(** * CoinTaxman: the per-coin taxation evaluator of [taxman.py]

    A shallow embedding of [Taxman] (src/taxman.py): the German evaluator
    [_evaluate_taxation_GERMANY] with its inner [evaluate_sell], the grouping
    driver [_evaluate_taxation_per_coin] and the entry point
    [evaluate_taxation].

    Conventions of the embedding:
    - a [decimal.Decimal] is the rational it denotes ([Q]); the arithmetic of
      the evaluator rounds as Python's default context does, to 28
      significant digits and ties to even; numeric statements are up to
      [Qeq] where they involve arithmetic;
    - a Python exception is a value of [exn]; a call that may raise returns
      a [result];
    - the two event lists of a [Taxman] instance and the module logger are
      threaded explicitly (monad [M]): what was appended before an exception
      stays appended, as in Python;
    - the balance queue is a local of [_evaluate_taxation_GERMANY] and is
      passed explicitly. *)

From Stdlib Require Import List Bool ZArith QArith Qabs Qminmax Qround Qpower.
From Stdlib Require Import Lqa Lia String.
From Stdlib Require Import Permutation Sorted.
Import ListNotations.

Local Open Scope string_scope.
Local Open Scope list_scope.
Local Open Scope Q_scope.

(** ** Exceptions and results *)

Inductive exn : Type :=
| RuntimeError (msg : string)
| NotImplementedError
| AssertionError (msg : string)
| UnboundLocalError
| DivisionByZero
| TypeError
| InsufficientBalance
| NonPositiveChange.

Inductive result (A : Type) : Type :=
| Ok (a : A)
| Raise (e : exn).
Arguments Ok {A} a.
Arguments Raise {A} e.

(** ** Decimals ([decimal.Decimal])

    The module never changes the context, so every [+], [-], [*] and [/] on
    decimals returns the exact result rounded to [PREC] = 28 significant
    digits, ties going to the even digit ([ROUND_HALF_EVEN]). The exponent is
    taken as unbounded (the default context bounds it by 999999) and the sign
    of a zero is not kept. *)

(** The integer nearest to [q], the even one of the two when [q] lies half
    way. *)
Definition half_even (q : Q) : Z :=
  let f := Qfloor q in
  match Qcompare (q - inject_Z f) (1 # 2) with
  | Lt => f
  | Gt => (f + 1)%Z
  | Eq => if Z.even f then f else (f + 1)%Z
  end.

(** [n] is an integer nearest to [q], and even when [q] lies half way. *)
Definition nearest_even (q : Q) (n : Z) : Prop :=
  inject_Z n - (1 # 2) <= q /\ q <= inject_Z n + (1 # 2)
  /\ (q == inject_Z n + (1 # 2) -> Z.even n = true)
  /\ (q == inject_Z n - (1 # 2) -> Z.even n = true).

(** The number of decimal digits of [n >= 1], less one. *)
Fixpoint ilog10_fuel (fuel : nat) (n : Z) : Z :=
  match fuel with
  | O => 0
  | S fuel' => if (n <? 10)%Z then 0 else (1 + ilog10_fuel fuel' (n / 10))%Z
  end.

Definition ilog10 (n : Z) : Z := ilog10_fuel (S (Z.to_nat (Z.log2 n))) n.

(** The exponent of the leading digit of [q <> 0]: the [e] with
    [10^e <= |q| < 10^(e+1)]. *)
Definition exponent10 (q : Q) : Z :=
  let d := (ilog10 (Z.abs (Qnum q)) - ilog10 (Zpos (Qden q)))%Z in
  if Qle_bool (10 ^ d) (Qabs q) then d else (d - 1)%Z.

(** [x] lies in the decade of exponent [e]. *)
Definition in_decade (e : Z) (x : Q) : Prop := 10 ^ e <= x /\ x < 10 ^ (e + 1).

(** [decimal.getcontext().prec] *)
Definition PREC : Z := 28.

(** [q] rounded to [PREC] digits counted from the digit of exponent [e]. *)
Definition round_at (e : Z) (q : Q) : Q :=
  let s := (PREC - 1 - e)%Z in
  Qred (inject_Z (half_even (q * 10 ^ s)) / 10 ^ s).

(** The rounding that ends every operation of the context. *)
Definition round_prec (q : Q) : Q :=
  if Qeq_bool q 0 then 0 else round_at (exponent10 q) q.

(** [x + y], [x - y], [x * y] and [x / y] on decimals; the division is only
    called with a divisor other than zero. *)
Definition dec_add (x y : Q) : Q := round_prec (x + y).
Definition dec_sub (x y : Q) : Q := round_prec (x - y).
Definition dec_mul (x y : Q) : Q := round_prec (x * y).
Definition dec_div (x y : Q) : Q := round_prec (x / y).

(** [f"{x:.2f}"] and [f"{x:.6f}"]: the decimal rounded to that many places,
    ties to even, whatever the precision of the context; what is kept is the
    value of the numeral printed. *)
Definition quantize (places : Z) (x : Q) : Q :=
  Qred (inject_Z (half_even (x * 10 ^ places)) / 10 ^ places).

(** ** datetime

    A [datetime.datetime]: its fields and whether it carries a timezone
    ([aware], then taken in UTC) or not (naive). Python orders two datetimes
    of the same flavour lexicographically on the fields and raises
    [TypeError] when it is asked to compare a naive with an aware one. The
    evaluator itself compares operations of the ledger among themselves
    (all aware, by the data model) and virtual sells among themselves (all
    naive); [dt_ltb] is the order on the fields. *)

Record datetime : Type := mk_datetime {
  year : Z; month : Z; day : Z; hour : Z; minute : Z; second : Z;
  aware : bool
}.

Definition dt_key (t : datetime) : list Z :=
  [year t; month t; day t; hour t; minute t; second t].

Fixpoint lex_ltb (a b : list Z) : bool :=
  match a, b with
  | x :: a', y :: b' => (x <? y)%Z || ((x =? y)%Z && lex_ltb a' b')
  | [], _ :: _ => true
  | _, [] => false
  end.

Definition dt_ltb (a b : datetime) : bool := lex_ltb (dt_key a) (dt_key b).
Definition dt_leb (a b : datetime) : bool := negb (dt_ltb b a).

(** Python's [min(a, b)]: [b] only when [b < a]. *)
Definition dt_min (a b : datetime) : datetime := if dt_ltb b a then b else a.

(** ** Operations ([transaction.py], only its use is in src)

    The classes tested by [isinstance] in the evaluator; [OtherKind] stands for
    any further subclass of [Operation], named by its class name. *)

Inductive OpKind : Type :=
| Fee | CoinLend | CoinLendEnd | Staking | StakingEnd | Buy | Sell
| CoinLendInterest | StakingInterest | Airdrop | Commission
| Deposit | Withdrawal
| OtherKind (class_name : string).

Record Operation : Type := mk_Operation {
  kind : OpKind;
  utc_time : datetime;
  platform : string;
  change : Q;
  coin : string;
  line : list Z;
  file_path : string
}.

(** [tr.SoldCoin]: the consumption record, read as [sc.op] and [sc.sold]. *)
Record SoldCoin : Type := mk_SoldCoin {
  sc_op : Operation;
  sold : Q
}.

(** One entry of the remark of a sell event: the source joins
    ["{sc.sold} from {sc.op.utc_time} ({class name})"] with [", "]; the
    rendering of decimals and dates is left out and the fields are kept. *)
Record RemarkItem : Type := mk_RemarkItem {
  rm_sold : Q;
  rm_time : datetime;
  rm_kind : OpKind
}.

(** [tr.TaxEvent]; [sell_value], [real_gain] and [remark] default to
    [Decimal()], [Decimal()] and the empty remark. *)
Record TaxEvent : Type := mk_TaxEvent {
  taxation_type : string;
  taxed_gain : Q;
  te_op : Operation;
  sell_value : Q;
  real_gain : Q;
  remark : list RemarkItem
}.

Definition TaxEvent3 (ty : string) (g : Q) (op : Operation) : TaxEvent :=
  mk_TaxEvent ty g op 0 0 [].

(** ** Configuration and collaborators ([config.py], [price_data.py],
    [misc.py]: absent from src, taken as parameters) *)

Inductive Principle : Type := FIFO | LIFO | OtherPrinciple.
Inductive Country : Type := GERMANY | OtherCountry (name : string).

Record Config : Type := mk_Config {
  TAX_YEAR : Z;
  FIAT : string;
  COUNTRY : Country;
  PRINCIPLE : Principle;
  MULTI_DEPOT : bool;
  CALCULATE_UNREALIZED_GAINS : bool;
  (** The long-term predicate, a callable of the configuration: it returns
      a verdict or raises. *)
  IS_LONG_TERM : datetime -> datetime -> result bool;
  (** The clock when [datetime.datetime.now()] was called for
      [TAX_DEADLINE]; its fields are read. *)
  now : datetime
}.

Record PriceData : Type := mk_PriceData {
  (** [PriceData.get_cost], called on an operation and on a sold coin. *)
  get_cost : Operation + SoldCoin -> Q;
  (** [misc.is_fiat]. *)
  is_fiat : string -> bool
}.

(** ** Balance queue ([balance_queue.py]) *)

(** Modelled from the spec: [balance_queue.BalancedOperation] is not in src.
    A lot: the operation that created it and what is left of it; the
    evaluator reads [bop.not_sold]. [total_amount] is the change of the
    origin operation. *)
Record BalancedOperation : Type := mk_bop {
  bop_op : Operation;
  not_sold : Q
}.

Definition total_amount (l : BalancedOperation) : Q := change (bop_op l).

(** The exact sum of amounts, as the data model speaks of it. *)
Definition Qsum (l : list Q) : Q := fold_left Qplus l 0.

(** Modelled from the spec: [misc.dsum] is not in src. The sum of an
    iterable of decimals, added up from zero in the order of the iterable;
    each addition rounds. *)
Definition dsum (l : list Q) : Q := fold_left dec_add l 0.

Definition not_sold_total (q : list BalancedOperation) : Q :=
  Qsum (map not_sold q).

(** Modelled from the spec: the consumption loop of [BalanceQueue.remove] is
    not in src. For each lot in order, take [min(remaining, still needed)],
    decrement the lot, emit a record, until the request is satisfied; a lot
    whose remaining amount reaches zero is evicted. Returns the records,
    the lots left and what could not be satisfied. *)
Fixpoint consume (needed : Q) (lots : list BalancedOperation)
  : list SoldCoin * list BalancedOperation * Q :=
  match lots with
  | [] => ([], [], needed)
  | l :: rest =>
      if Qle_bool needed 0 then ([], lots, needed)
      else
        let take := Qmin (not_sold l) needed in
        let '(scs, rest', missing) := consume (needed - take) rest in
        let l' := mk_bop (bop_op l) (not_sold l - take) in
        (mk_SoldCoin (bop_op l) take :: scs,
         (if Qeq_bool (not_sold l') 0 then rest' else l' :: rest'),
         missing)
  end.

Module BalanceQueue.

(** Modelled from the spec: the class [BalanceQueue] and its two policies
    ([BalanceFIFOQueue], [BalanceLIFOQueue]) are not in src. The queue is
    the ordered sequence of open lots; the evaluator adds in ascending
    time, so the head is the oldest lot and the tail the newest.
    [Taxman.__init__] builds no instance for a principle other than FIFO
    and LIFO. *)
Record t : Type := mk {
  principle : Principle;
  queue : list BalancedOperation
}.

Definition empty (p : Principle) : t := mk p [].

(** Modelled from the spec: [add] appends a lot with
    [total_amount = remaining_amount = op.change], which must be
    positive. *)
Definition add (op : Operation) (b : t) : result t :=
  if Qle_bool (change op) 0
  then Raise NonPositiveChange
  else Ok (mk (principle b) (queue b ++ [mk_bop op (change op)])).

(** Modelled from the spec: [remove] consumes [abs(op.change)], oldest lot
    first under FIFO and newest first under LIFO, and fails with
    [InsufficientBalance] when the lots hold less than that. *)
Definition remove (op : Operation) (b : t) : result (list SoldCoin * t) :=
  let amount := Qabs (change op) in
  if Qle_bool amount (not_sold_total (queue b)) then
    match principle b with
    | LIFO =>
        let '(scs, lots, _) := consume amount (rev (queue b)) in
        Ok (scs, mk (principle b) (rev lots))
    | _ =>
        let '(scs, lots, _) := consume amount (queue b) in
        Ok (scs, mk (principle b) lots)
    end
  else Raise InsufficientBalance.

(** Modelled from the spec: [sanity_check] asserts [not_sold >= 0] in
    aggregate and for every lot. *)
Definition sanity_check (b : t) : result unit :=
  if Qle_bool 0 (not_sold_total (queue b))
     && forallb (fun l => Qle_bool 0 (not_sold l)) (queue b)
  then Ok tt
  else Raise (AssertionError "sanity check of the balance queue failed").

End BalanceQueue.

(** ** The Taxman instance and the effects of its methods *)

Inductive LogRecord : Type :=
| LogDebug (msg : string)
| UnresolvedDeposit (amount : Q) (coin platform : string) (t : datetime)
| UnresolvedWithdrawal (amount : Q) (coin platform : string) (t : datetime).

(** [self.book.operations], the two event lists created by [__init__], and
    the records written to the module logger. *)
Record Taxman : Type := mk_Taxman {
  book : list Operation;
  tax_events : list TaxEvent;
  virtual_tax_events : list TaxEvent;
  log : list LogRecord
}.

Definition M (A : Type) : Type := Taxman -> result A * Taxman.

Definition ret {A} (a : A) : M A := fun s => (Ok a, s).
Definition raise {A} (e : exn) : M A := fun s => (Raise e, s).
Definition bind {A B} (m : M A) (f : A -> M B) : M B :=
  fun s => match m s with
           | (Ok a, s') => f a s'
           | (Raise e, s') => (Raise e, s')
           end.
Definition lift {A} (r : result A) : M A := fun s => (r, s).

Notation "x <- m ;; k" := (bind m (fun x => k))
  (at level 61, m at next level, right associativity).
Notation "m ;;; k" := (bind m (fun _ => k))
  (at level 61, right associativity).

(** [self.tax_events.append(tx)] *)
Definition append_tax_event (tx : TaxEvent) : M unit :=
  fun s => (Ok tt, mk_Taxman (book s) (tax_events s ++ [tx])
                             (virtual_tax_events s) (log s)).

(** [self.virtual_tax_events.append(tx)] *)
Definition append_virtual_tax_event (tx : TaxEvent) : M unit :=
  fun s => (Ok tt, mk_Taxman (book s) (tax_events s)
                             (virtual_tax_events s ++ [tx]) (log s)).

(** [log.warning(...)], [log.debug(...)] *)
Definition log_record (r : LogRecord) : M unit :=
  fun s => (Ok tt, mk_Taxman (book s) (tax_events s)
                             (virtual_tax_events s) (log s ++ [r])).

Fixpoint for_each {A} (f : A -> M unit) (l : list A) : M unit :=
  match l with
  | [] => ret tt
  | x :: rest => f x ;;; for_each f rest
  end.

(** Modelled from the spec: [misc.group_by] is not in src. It partitions a
    list by an attribute into a dict, whose items come in the order in which
    the keys first occur; each group keeps the order of the list. *)
Fixpoint group_insert {A} (k : string) (x : A) (groups : list (string * list A))
  : list (string * list A) :=
  match groups with
  | [] => [(k, [x])]
  | (k', xs) :: rest =>
      if (k =? k')%string then (k', xs ++ [x]) :: rest
      else (k', xs) :: group_insert k x rest
  end.

Definition group_by {A} (key : A -> string) (l : list A)
  : list (string * list A) :=
  fold_left (fun groups x => group_insert (key x) x groups) l [].

(** Modelled from the spec: [tr.sort_operations(ops, ["utc_time"])] is not
    in src. Operations are put in ascending time; operations of equal time
    keep their order, as Python's sort is stable. *)
Fixpoint insert_by_time (op : Operation) (l : list Operation) : list Operation :=
  match l with
  | [] => [op]
  | y :: rest =>
      if dt_leb (utc_time op) (utc_time y) then op :: l
      else y :: insert_by_time op rest
  end.

Definition sort_operations (l : list Operation) : list Operation :=
  fold_right insert_by_time [] l.

Definition nonzero (x : Q) : bool := negb (Qeq_bool x 0).

Definition py_last {A} (l : list A) : option A :=
  match rev l with [] => None | x :: _ => Some x end.

(** ** The evaluator *)

Section Evaluator.

Variable cfg : Config.
Variable price_data : PriceData.

(** [datetime.datetime.now()]: the clock, as a naive datetime. *)
Definition datetime_now : datetime :=
  mk_datetime (year (now cfg)) (month (now cfg)) (day (now cfg))
              (hour (now cfg)) (minute (now cfg)) (second (now cfg)) false.

(** [TAX_DEADLINE], computed once when the module is loaded; both arguments
    of [min] are naive. *)
Definition TAX_DEADLINE : datetime :=
  dt_min (mk_datetime (TAX_YEAR cfg) 12 31 23 59 59 false) datetime_now.

Definition in_tax_year (op : Operation) : bool :=
  (year (utc_time op) =? TAX_YEAR cfg)%Z.

(** [self.BalanceType()] *)
Definition BalanceType : BalanceQueue.t := BalanceQueue.empty (PRINCIPLE cfg).

(** [Taxman.__init__]: fresh event lists; refuses a country without an
    evaluator and a principle without a queue type. *)
Definition Taxman_init (b : list Operation) : result Taxman :=
  match COUNTRY cfg with
  | OtherCountry _ => Raise NotImplementedError
  | GERMANY =>
      match PRINCIPLE cfg with
      | FIFO | LIFO => Ok (mk_Taxman b [] [] [])
      | OtherPrinciple => Raise NotImplementedError
      end
  end.

(** [isinstance(sc.op, (tr.Airdrop, tr.CoinLendInterest, tr.StakingInterest,
    tr.Commission))] *)
Definition is_income_origin (k : OpKind) : bool :=
  match k with
  | Airdrop | CoinLendInterest | StakingInterest | Commission => true
  | _ => false
  end.

(** The [is_taxable] of the loop over the sold coins: [config.IS_LONG_TERM]
    is called first, on every lot, and may raise; the tests that follow it do
    not. *)
Definition is_taxable (sc : SoldCoin) (op : Operation) : result bool :=
  match IS_LONG_TERM cfg (utc_time (sc_op sc)) (utc_time op) with
  | Raise e => Raise e
  | Ok long_term =>
      Ok (negb long_term
          && negb (is_income_origin (kind (sc_op sc))
                   && negb (coin (sc_op sc) =? FIAT cfg)%string))
  end.

(** [gain] of one sold coin: [(sc.sold / op.change) * sell_value] minus the
    cost of the sold coin, each operation rounding. *)
Definition lot_gain (op : Operation) (sell_value : Q) (sc : SoldCoin) : Q :=
  let partial_sell_value := dec_mul (dec_div (sold sc) (change op)) sell_value in
  let sold_coin_cost := get_cost price_data (inr sc) in
  dec_sub partial_sell_value sold_coin_cost.

(** The [for sc in sold_coins] loop of [evaluate_sell], on the accumulators
    [taxed_gain] and [real_gain]. A decimal division by zero raises. *)
Fixpoint gains_loop (op : Operation) (sell_value : Q)
  (sold_coins : list SoldCoin) (taxed_gain real_gain : Q) : result (Q * Q) :=
  match sold_coins with
  | [] => Ok (taxed_gain, real_gain)
  | sc :: rest =>
      match is_taxable sc op with
      | Raise e => Raise e
      | Ok taxable =>
          if taxable || CALCULATE_UNREALIZED_GAINS cfg then
            if Qeq_bool (change op) 0 then Raise DivisionByZero
            else
              let gain := lot_gain op sell_value sc in
              let taxed_gain' :=
                if taxable then dec_add taxed_gain gain else taxed_gain in
              let real_gain' :=
                if CALCULATE_UNREALIZED_GAINS cfg then dec_add real_gain gain
                else real_gain in
              gains_loop op sell_value rest taxed_gain' real_gain'
          else gains_loop op sell_value rest taxed_gain real_gain
      end
  end.

Definition sell_remark (sold_coins : list SoldCoin) : list RemarkItem :=
  map (fun sc => mk_RemarkItem (sold sc) (utc_time (sc_op sc)) (kind (sc_op sc)))
      sold_coins.

(** The inner function [evaluate_sell] of [_evaluate_taxation_GERMANY]; it
    closes over [coin] and [balance], here arguments, and returns the
    balance it leaves. *)
Definition evaluate_sell (coin : string) (op : Operation) (force : bool)
  (balance : BalanceQueue.t) : result (option TaxEvent * BalanceQueue.t) :=
  match BalanceQueue.remove op balance with
  | Raise e => Raise e
  | Ok (sold_coins, balance') =>
      if (coin =? FIAT cfg)%string then Ok (None, balance')
      else if negb (in_tax_year op) && negb force then Ok (None, balance')
      else
        let taxation_type := "Sonstige Einkünfte" in
        let sell_value := get_cost price_data (inl op) in
        match gains_loop op sell_value sold_coins 0 0 with
        | Raise e => Raise e
        | Ok (taxed_gain, real_gain) =>
            Ok (Some (mk_TaxEvent taxation_type taxed_gain op sell_value
                                  real_gain (sell_remark sold_coins)),
                balance')
        end
  end.

(** One turn of [for op in operations] in [_evaluate_taxation_GERMANY]. The
    statements after [raise RuntimeError] in the [tr.Fee] branch are never
    run. A [TaxEvent] is a plain record, so [if tx_ := ...] tests for
    [None]. *)
Definition process_op (coin : string) (op : Operation)
  (balance : BalanceQueue.t) : M BalanceQueue.t :=
  match kind op with
  | Fee => raise (RuntimeError "single fee operations shouldn't exist")
  | CoinLend | CoinLendEnd | Staking | StakingEnd => ret balance
  | Buy => lift (BalanceQueue.add op balance)
  | Sell =>
      r <- lift (evaluate_sell coin op false balance) ;;
      match r with
      | (Some tx_, balance') => append_tax_event tx_ ;;; ret balance'
      | (None, balance') => ret balance'
      end
  | CoinLendInterest | StakingInterest =>
      balance' <- lift (BalanceQueue.add op balance) ;;
      if in_tax_year op then
        taxation_type <-
          (if is_fiat price_data coin then
             match kind op with
             | StakingInterest =>
                 raise (AssertionError "You can not stake fiat currencies.")
             | _ => ret "Einkünfte aus Kapitalvermögen"
             end
           else ret "Einkünfte aus sonstigen Leistungen") ;;
        let taxed_gain := get_cost price_data (inl op) in
        append_tax_event (TaxEvent3 taxation_type taxed_gain op) ;;;
        ret balance'
      else ret balance'
  | Airdrop => lift (BalanceQueue.add op balance)
  | Commission =>
      balance' <- lift (BalanceQueue.add op balance) ;;
      if in_tax_year op then
        let taxation_type := "Einkünfte aus sonstigen Leistungen" in
        let taxed_gain := get_cost price_data (inl op) in
        append_tax_event (TaxEvent3 taxation_type taxed_gain op) ;;;
        ret balance'
      else ret balance'
  | Deposit =>
      if (coin =? FIAT cfg)%string then lift (BalanceQueue.add op balance)
      else
        log_record (UnresolvedDeposit (change op) coin (platform op)
                                      (utc_time op)) ;;;
        ret balance
  | Withdrawal =>
      if (coin =? FIAT cfg)%string then
        r <- lift (BalanceQueue.remove op balance) ;;
        ret (snd r)
      else
        log_record (UnresolvedWithdrawal (change op) coin (platform op)
                                         (utc_time op)) ;;;
        ret balance
  | OtherKind _ => raise NotImplementedError
  end.

(** The loop [for op in operations]. *)
Fixpoint replay (coin : string) (operations : list Operation)
  (balance : BalanceQueue.t) : M BalanceQueue.t :=
  match operations with
  | [] => ret balance
  | op :: rest =>
      balance' <- process_op coin op balance ;;
      replay coin rest balance'
  end.

(** What follows the loop: the sanity check and the virtual sell of what is
    left. [op.platform] reads the loop variable, unbound when there was no
    operation. *)
Definition unrealized_gains (coin : string) (operations : list Operation)
  (balance : BalanceQueue.t) : M unit :=
  lift (BalanceQueue.sanity_check balance) ;;;
  let left_coin := dsum (map not_sold (BalanceQueue.queue balance)) in
  if CALCULATE_UNREALIZED_GAINS cfg && nonzero left_coin then
    match py_last operations with
    | None => raise UnboundLocalError
    | Some op =>
        let virtual_sell :=
          mk_Operation Sell TAX_DEADLINE (platform op) left_coin coin
                       [(-1)%Z] "" in
        r <- lift (evaluate_sell coin virtual_sell true balance) ;;
        match fst r with
        | Some tx_ => append_virtual_tax_event tx_
        | None => ret tt
        end
    end
  else ret tt.

Definition _evaluate_taxation_GERMANY (coin : string)
  (operations : list Operation) : M unit :=
  balance <- replay coin operations BalanceType ;;
  unrealized_gains coin operations balance.

(** [self.__evaluate_taxation], looked up by the name of the country; only
    Germany has an evaluator. *)
Definition evaluate_taxation_of_country (coin : string)
  (operations : list Operation) : M unit :=
  _evaluate_taxation_GERMANY coin operations.

Definition _evaluate_taxation_per_coin (operations : list Operation) : M unit :=
  for_each
    (fun g => let '(coin, coin_operations) := g in
              let coin_operations := sort_operations coin_operations in
              evaluate_taxation_of_country coin coin_operations)
    (group_by coin operations).

Definition year_bound_ok (ops : list Operation) : bool :=
  forallb (fun op => (year (utc_time op) <=? TAX_YEAR cfg)%Z) ops.

Definition evaluate_taxation : M unit :=
  log_record (LogDebug "Starting evaluation...") ;;;
  (fun self =>
     if year_bound_ok (book self) then
       (if MULTI_DEPOT cfg then
          for_each (fun g => _evaluate_taxation_per_coin (snd g))
                   (group_by platform (book self))
        else _evaluate_taxation_per_coin (book self)) self
     else
       raise (AssertionError
         "For tax evaluation, no operation should happen after the tax year.")
         self).

End Evaluator.

(** ** Reporting: [print_evaluation] and [export_evaluation_as_csv] *)

(** Python's [sorted]: a stable sort; [leb x y] says that [x] may stand
    before [y]. With [reverse=True] equal keys keep their order too. *)
Fixpoint insert_sorted {A} (leb : A -> A -> bool) (x : A) (l : list A)
  : list A :=
  match l with
  | [] => [x]
  | y :: rest =>
      if leb x y then x :: l else y :: insert_sorted leb x rest
  end.

Definition py_sorted {A} (leb : A -> A -> bool) (l : list A) : list A :=
  fold_right (insert_sorted leb) [] l.

(** Python's [max(first :: others, key=...)]: the first of the greatest. *)
Definition py_max {A} (ltb : A -> A -> bool) (first : A) (others : list A)
  : A :=
  fold_left (fun best x => if ltb best x then x else best) others first.

(** The lines that [print_evaluation] joins into the text it logs. A decimal
    is held as it is printed, rounded to two places ([:.2f]) or six
    ([:.6f]); the rendering of dates is left out and the datetime is kept. *)
Inductive ReportLine : Type :=
| ReportTitle
| TaxYearTitle (tax_year : Z)
| TypeTotal (taxation_type : string) (taxed_gains : Q) (fiat : string)
| NoTaxEvents (tax_year : Z)
| DeadlineTitle (tax_year : Z) (lo_date : datetime)
| Invested (invested : Q) (fiat : string)
| WouldHaveRealized (real_gains taxed_gains : Q) (fiat : string)
| PortfolioTitle (lo_date : datetime)
| PortfolioLine (platform : string) (amount : Q) (coin : string)
    (sell_value : Q) (fiat : string) (real_gain taxed_gain : Q).

(** A cell of the exported CSV, before [csv.writer] renders it. *)
Inductive Cell : Type :=
| CellText (s : string)
| CellDecimal (d : Q)
| CellTime (t : datetime)
| CellClass (k : OpKind)
| CellRemark (r : list RemarkItem).

(** What the export takes from outside: [misc.get_next_file_path],
    [misc.get_current_commit_hash] and the date of the day. *)
Record ExportEnv : Type := mk_ExportEnv {
  next_file_path : string;
  current_commit_hash : string;
  today : string
}.

Section Reporting.

Variable cfg : Config.

Definition type_totals (events : list TaxEvent) : list ReportLine :=
  map (fun g => let '(taxation_type, tax_events) := g in
                let taxed_gains := dsum (map taxed_gain tax_events) in
                TypeTotal taxation_type (quantize 2 taxed_gains) (FIAT cfg))
      (group_by taxation_type events).

Definition portfolio_line (tx : TaxEvent) : ReportLine :=
  PortfolioLine (platform (te_op tx)) (quantize 6 (change (te_op tx)))
                (coin (te_op tx)) (quantize 2 (sell_value tx)) (FIAT cfg)
                (quantize 2 (real_gain tx)) (quantize 2 (taxed_gain tx)).

(** [Taxman.print_evaluation]: the text handed to [log.info], line by
    line; the assertion on the configuration may fail. *)
Definition print_evaluation (self : Taxman) : result (list ReportLine) :=
  let eval_str := [ReportTitle] in
  let eval_str :=
    match tax_events self with
    | _ :: _ =>
        eval_str ++ [TaxYearTitle (TAX_YEAR cfg)]
                 ++ type_totals (tax_events self)
    | [] => eval_str ++ [NoTaxEvents (TAX_YEAR cfg)]
    end in
  match virtual_tax_events self with
  | [] => Ok eval_str
  | first :: others =>
      if CALCULATE_UNREALIZED_GAINS cfg then
        let latest_operation :=
          py_max (fun a b => dt_ltb (utc_time (te_op a)) (utc_time (te_op b)))
                 first others in
        let lo_date := utc_time (te_op latest_operation) in
        let invested := dsum (map sell_value (virtual_tax_events self)) in
        let real_gains := dsum (map real_gain (virtual_tax_events self)) in
        let taxed_gains := dsum (map taxed_gain (virtual_tax_events self)) in
        Ok (eval_str
              ++ [DeadlineTitle (TAX_YEAR cfg) lo_date;
                  Invested (quantize 2 invested) (FIAT cfg);
                  WouldHaveRealized (quantize 2 real_gains)
                                    (quantize 2 taxed_gains) (FIAT cfg);
                  PortfolioTitle lo_date]
              ++ map portfolio_line
                   (py_sorted (fun a b => Qle_bool (sell_value b) (sell_value a))
                              (virtual_tax_events self)))
      else Raise (AssertionError "")
  end.

Definition csv_header : list Cell :=
  [CellText "Date and Time UTC"; CellText "Platform";
   CellText "Taxation Type"; CellText ("Taxed Gain in " ++ FIAT cfg)%string;
   CellText "Action"; CellText "Amount"; CellText "Asset";
   CellText ("Sell Value in " ++ FIAT cfg)%string; CellText "Remark"].

Definition csv_line (tx : TaxEvent) : list Cell :=
  [CellTime (utc_time (te_op tx)); CellText (platform (te_op tx));
   CellText (taxation_type tx); CellDecimal (taxed_gain tx);
   CellClass (kind (te_op tx)); CellDecimal (change (te_op tx));
   CellText (coin (te_op tx)); CellDecimal (sell_value tx);
   CellRemark (remark tx)].

(** [Taxman.export_evaluation_as_csv]: the path it returns and the rows it
    writes to the file at that path. *)
Definition export_evaluation_as_csv (env : ExportEnv) (self : Taxman)
  : string * list (list Cell) :=
  let file_path := next_file_path env in
  (file_path,
   [[CellText "# software";
     CellText "CoinTaxman <https://github.com/provinzio/CoinTaxman>"];
    [CellText "# commit"; CellText (current_commit_hash env)];
    [CellText "# updated"; CellText (today env)];
    csv_header]
   ++ map csv_line
        (py_sorted (fun a b => dt_leb (utc_time (te_op a)) (utc_time (te_op b)))
                   (tax_events self))).

End Reporting.

(** ** A sample ledger and configuration *)

Module Sample.

(** The operations of the ledger carry aware timestamps. *)
Definition date (y m d : Z) : datetime := mk_datetime y m d 12 0 0 true.

(** The clock of a run; [datetime.datetime.now()] is naive. *)
Definition clock (y m d : Z) : datetime := mk_datetime y m d 12 0 0 false.

(** [config.IS_LONG_TERM] as shipped for Germany,
    [buy + relativedelta(years=1) < sell]: held longer than a year. The
    comparison raises on a naive and an aware datetime. *)
Definition one_year_rule (buy sell : datetime) : result bool :=
  if Bool.eqb (aware buy) (aware sell) then
    Ok (dt_ltb (mk_datetime (year buy + 1) (month buy) (day buy)
                            (hour buy) (minute buy) (second buy) (aware buy))
               sell)
  else Raise TypeError.

(** A predicate that reads the years only, [sell.year - buy.year > 1]; it
    compares no datetimes and takes a naive and an aware one alike. *)
Definition calendar_rule (buy sell : datetime) : result bool :=
  Ok (year buy + 1 <? year sell)%Z.

Definition config_with (rule : datetime -> datetime -> result bool)
  (unrealized : bool) (t : datetime) : Config :=
  mk_Config 2021 "EUR" GERMANY FIFO false unrealized rule t.

(** The configuration as shipped, run in March 2022. *)
Definition config (unrealized : bool) : Config :=
  config_with one_year_rule unrealized (clock 2022 3 1).

(** The configuration with the predicate on years, run in March 2022 and run
    in September 2021, within the tax year. *)
Definition calendar_config (unrealized : bool) : Config :=
  config_with calendar_rule unrealized (clock 2022 3 1).


(** A price per coin: 200 in 2019, 100 from 2020 to March 2021, then 150. *)
Definition price (t : datetime) : Q :=
  if (year t =? 2019)%Z then 200
  else if (year t =? 2020)%Z then 100
  else if (month t <? 4)%Z then 100
  else 150.

Definition prices : PriceData :=
  mk_PriceData
    (fun x => match x with
              | inl op => price (utc_time op) * change op
              | inr sc => price (utc_time (sc_op sc)) * sold sc
              end)
    (fun c => (c =? "EUR")%string || (c =? "USD")%string).

Definition op (k : OpKind) (t : datetime) (amount : Q) (c : string)
  : Operation :=
  mk_Operation k t "kraken" amount c [1%Z] "kraken.csv".

Definition buy19 : Operation := op Buy (date 2019 1 10) 1 "BTC".
Definition buy21 : Operation := op Buy (date 2021 2 1) 1 "BTC".
Definition sell21 : Operation := op Sell (date 2021 6 1) 1 "BTC".
Definition sell21_2 : Operation := op Sell (date 2021 6 1) 2 "BTC".
Definition fee21 : Operation := op Fee (date 2021 3 1) (1 # 100) "BTC".
Definition odd21 : Operation := op (OtherKind "Transfer") (date 2021 3 1) 1 "BTC".
Definition deposit_eur : Operation := op Deposit (date 2021 1 5) 100 "EUR".
Definition withdraw_eur : Operation := op Withdrawal (date 2021 1 9) 40 "EUR".
Definition deposit_btc : Operation := op Deposit (date 2021 1 5) 1 "BTC".
Definition sell_eur : Operation := op Sell (date 2021 4 1) 30 "EUR".
Definition stake_eur : Operation := op StakingInterest (date 2021 5 1) 2 "EUR".
Definition lend_eur : Operation := op CoinLendInterest (date 2021 5 1) 2 "EUR".
Definition late22 : Operation := op Buy (date 2022 1 2) 1 "BTC".

Definition fresh (b : list Operation) : Taxman := mk_Taxman b [] [] [].

(** Queues as the replay of some buys or deposits leaves them. *)
Definition lot (o : Operation) : BalancedOperation := mk_bop o (change o).

Definition holding (lots : list Operation) : BalanceQueue.t :=
  BalanceQueue.mk FIFO (map lot lots).

(** What [remove] and [evaluate_sell] return on them. *)
Definition sold_of (r : result (list SoldCoin * BalanceQueue.t))
  : list SoldCoin :=
  match r with Ok (scs, _) => scs | Raise _ => [] end.

Definition left_of (b : BalanceQueue.t)
  (r : result (list SoldCoin * BalanceQueue.t)) : BalanceQueue.t :=
  match r with Ok (_, b') => b' | Raise _ => b end.

Definition sold_old : list SoldCoin :=
  Eval vm_compute in sold_of (BalanceQueue.remove sell21 (holding [buy19])).

Definition event_of (r : result (option TaxEvent * BalanceQueue.t))
  : TaxEvent :=
  match r with
  | Ok (Some tx, _) => tx
  | _ => TaxEvent3 "" 0 sell21
  end.

Definition event_new : TaxEvent :=
  Eval vm_compute in
    event_of (evaluate_sell (config false) prices "BTC" sell21 false
                            (holding [buy21])).

Definition event_old_and_new : TaxEvent :=
  Eval vm_compute in
    event_of (evaluate_sell (config true) prices "BTC" sell21_2 false
                            (holding [buy19; buy21])).

Definition event_old : TaxEvent :=
  Eval vm_compute in
    event_of (evaluate_sell (config false) prices "BTC" sell21 false
                            (holding [buy19])).

(** Lots of every origin: a purchase of 2019, income of February 2021 in
    BTC of each kind, lending interest in the home fiat, and a purchase of
    February 2021; and a Sell that consumes them all. *)
Definition airdrop21 : Operation := op Airdrop (date 2021 2 1) 1 "BTC".
Definition lend_btc21 : Operation := op CoinLendInterest (date 2021 2 1) 1 "BTC".
Definition stake_btc21 : Operation := op StakingInterest (date 2021 2 1) 1 "BTC".
Definition commission21 : Operation := op Commission (date 2021 2 1) 1 "BTC".



Definition sell21_5 : Operation := op Sell (date 2021 6 1) 5 "BTC".

Definition exempt_lots : list Operation :=
  [buy19; airdrop21; lend_btc21; stake_btc21; commission21].

Definition sold_exempt : list SoldCoin :=
  Eval vm_compute in
    sold_of (BalanceQueue.remove sell21_5 (holding exempt_lots)).

Definition sold_airdrop_and_new : list SoldCoin :=
  Eval vm_compute in
    sold_of (BalanceQueue.remove sell21_2 (holding [airdrop21; buy21])).

Definition event_airdrop_and_new : TaxEvent :=
  Eval vm_compute in
    event_of (evaluate_sell (config true) prices "BTC" sell21_2 false
                            (holding [airdrop21; buy21])).

(** Further operations and values of the sample. *)
Definition lend21 : Operation := op CoinLend (date 2021 3 1) 1 "BTC".

(** Realized events of two types: a Sell taxed with 50, a commission
    taxed with an eighth, and a Sell taxed with nothing. *)
Definition commission_event : TaxEvent :=
  TaxEvent3 "Einkünfte aus sonstigen Leistungen" (1 # 8) commission21.

Definition three_events : Taxman :=
  mk_Taxman [] [event_new; commission_event; event_old] [] [].

Definition summary_of (r : result (list ReportLine)) : list ReportLine :=
  match r with Ok lines => lines | Raise _ => [] end.

Definition three_events_summary : list ReportLine :=
  Eval vm_compute in summary_of (print_evaluation (config false) three_events).

End Sample.

(** ** Notions used in the statements *)

Definition OpKind_eq_dec (a b : OpKind) : {a = b} + {a <> b}.
Proof. decide equality. apply string_dec. Defined.

(** What a removal took, by its records. *)
Definition sold_total (scs : list SoldCoin) : Q := Qsum (map sold scs).

(** The instance after further events and log records were appended. *)
Definition with_events (s : Taxman) (E V : list TaxEvent)
  (W : list LogRecord) : Taxman :=
  mk_Taxman (book s) (tax_events s ++ E) (virtual_tax_events s ++ V)
            (log s ++ W).

(** A computation that, whatever the instance it starts from, has the same
    outcome and appends the same realized events, virtual events and log
    records, all events satisfying [P]. *)
Definition emits {A} (P : TaxEvent -> Prop) (m : M A) : Prop :=
  exists r E V W,
    (forall s, m s = (r, with_events s E V W)) /\ Forall P E /\ Forall P V.

(** The open lots of a queue all hold something. *)
Definition lots_positive (b : BalanceQueue.t) : Prop :=
  Forall (fun l => 0 < not_sold l) (BalanceQueue.queue b).

(** A computation whose value, when it does not raise, satisfies [Q]. *)
Definition yields {A} (Q : A -> Prop) (m : M A) : Prop :=
  forall s a s', m s = (Ok a, s') -> Q a.

(** A computation that leaves the virtual list of the instance alone. *)
Definition keeps_virtual {A} (m : M A) : Prop :=
  forall s, virtual_tax_events (snd (m s)) = virtual_tax_events s.

Section Notions.

Variable cfg : Config.
Variable price_data : PriceData.

(** The verdicts of the long-term predicate on the lots of a disposal, in
    the order of consumption, or the first error it raises. *)
Fixpoint long_term_checks (op : Operation) (sold_coins : list SoldCoin)
  : result (list bool) :=
  match sold_coins with
  | [] => Ok []
  | sc :: rest =>
      match IS_LONG_TERM cfg (utc_time (sc_op sc)) (utc_time op) with
      | Raise e => Raise e
      | Ok verdict =>
          match long_term_checks op rest with
          | Raise e => Raise e
          | Ok verdicts => Ok (verdict :: verdicts)
          end
      end
  end.

(** The holding period of a lot exceeds the long-term threshold: the
    predicate of the configuration says so. *)
Definition held_long_term (sc : SoldCoin) (op : Operation) : Prop :=
  IS_LONG_TERM cfg (utc_time (sc_op sc)) (utc_time op) = Ok true.

(** The taxability test as the specification words it: a lot is exempt when
    it was held for the long term, or when it stems from an Airdrop,
    CoinLendInterest, StakingInterest or Commission operation whose coin is
    not the home fiat; it is taxable unless it is exempt. *)
Definition income_kinds : list OpKind :=
  [Airdrop; CoinLendInterest; StakingInterest; Commission].

Definition lot_exempt (sc : SoldCoin) (op : Operation) : Prop :=
  held_long_term sc op
  \/ (In (kind (sc_op sc)) income_kinds /\ coin (sc_op sc) <> FIAT cfg).

Definition lot_exempt_dec (sc : SoldCoin) (op : Operation)
  : {lot_exempt sc op} + {~ lot_exempt sc op}.
Proof.
  unfold lot_exempt, held_long_term.
  assert (Hresult : forall r : result bool, {r = Ok true} + {r <> Ok true}).
  { intros [[|]|e]; [left; reflexivity|right; discriminate|right; discriminate]. }
  destruct (Hresult (IS_LONG_TERM cfg (utc_time (sc_op sc)) (utc_time op)))
    as [Hlong|Hlong]; [left; left; exact Hlong|].
  destruct (in_dec OpKind_eq_dec (kind (sc_op sc)) income_kinds) as [Hin|Hin].
  - destruct (string_dec (coin (sc_op sc)) (FIAT cfg)) as [Hfiat|Hfiat].
    + right. intros [H|[_ H]]; contradiction.
    + left. right. split; assumption.
  - right. intros [H|[H _]]; contradiction.
Defined.

Definition lot_taxable (sc : SoldCoin) (op : Operation) : bool :=
  if lot_exempt_dec sc op then false else true.

(** The gains of the taxable lots of a disposal, added up from zero in the
    order of consumption. *)
Definition taxable_gains (op : Operation) (sell_value : Q)
  (sold_coins : list SoldCoin) : Q :=
  dsum (map (lot_gain price_data op sell_value)
            (filter (fun sc => lot_taxable sc op) sold_coins)).

(** The gains of all lots of a disposal, added up likewise. *)
Definition all_gains (op : Operation) (sell_value : Q)
  (sold_coins : list SoldCoin) : Q :=
  dsum (map (lot_gain price_data op sell_value) sold_coins).

(** The invariant of a Tax Event as the data model states it: the taxed gain
    has the sign of the real gain and does not exceed it in magnitude. *)
Definition taxed_within_real (tx : TaxEvent) : Prop :=
  (0 <= real_gain tx -> 0 <= taxed_gain tx /\ taxed_gain tx <= real_gain tx)
  /\ (real_gain tx <= 0 -> real_gain tx <= taxed_gain tx /\ taxed_gain tx <= 0).

(** Where an event of the category of capital income may come from: a
    CoinLendInterest operation of the group, the coin being a fiat. *)
Definition capital_income_from_lending (coin : string)
  (operations : list Operation) (tx : TaxEvent) : Prop :=
  taxation_type tx = "Einkünfte aus Kapitalvermögen" ->
  kind (te_op tx) = CoinLendInterest
  /\ is_fiat price_data coin = true
  /\ In (te_op tx) operations.

(** A disposal is taxable when one of its lots is. *)
Definition disposal_taxable (op : Operation) (sold_coins : list SoldCoin)
  : bool :=
  existsb (fun sc => lot_taxable sc op) sold_coins.

(** When a Sell emits a realized event, as the specification words it; a
    Sell of the ledger is never forced. *)
Definition sell_emits_spec (coin : string) (op : Operation)
  (sold_coins : list SoldCoin) : bool :=
  negb (coin =? FIAT cfg)%string
  && in_tax_year cfg op
  && (disposal_taxable op sold_coins || CALCULATE_UNREALIZED_GAINS cfg).

End Notions.

(** ** Further notions *)


(** The operations that only mark custody. *)
Definition custodial (k : OpKind) : bool :=
  match k with
  | CoinLend | CoinLendEnd | Staking | StakingEnd => true
  | _ => false
  end.

(** The kinds that the evaluator refuses. *)
Definition unevaluable (k : OpKind) : Prop :=
  k = Fee \/ exists name, k = OtherKind name.

(** The taxation types that a report lists with a total. *)
Definition type_total_types (lines : list ReportLine) : list string :=
  flat_map (fun l => match l with TypeTotal ty _ _ => [ty] | _ => [] end) lines.

(** As [emits], with one condition on the realized events and another on
    the virtual ones. *)
Definition appends {A} (PE PV : TaxEvent -> Prop) (m : M A) : Prop :=
  exists r E V W,
    (forall s, m s = (r, with_events s E V W)) /\ Forall PE E /\ Forall PV V.

(** The same configuration with another multi-depot flag. *)
Definition with_multi_depot (cfg : Config) (flag : bool) : Config :=
  mk_Config (TAX_YEAR cfg) (FIAT cfg) (COUNTRY cfg) (PRINCIPLE cfg) flag
            (CALCULATE_UNREALIZED_GAINS cfg) (IS_LONG_TERM cfg) (now cfg).

Section FurtherNotions.

Variable cfg : Config.
Variable price_data : PriceData.

(** The operations whose turn, when it does not raise, appends a realized
    event. *)
Definition triggers_event (coin : string) (op : Operation) : bool :=
  in_tax_year cfg op
  && match kind op with
     | Sell => negb (coin =? FIAT cfg)%string
     | CoinLendInterest | StakingInterest | Commission => true
     | _ => false
     end.

(** What the turn of an operation adds to the balance of its group. *)
Definition balance_effect (coin : string) (op : Operation) : Q :=
  match kind op with
  | Buy | CoinLendInterest | StakingInterest | Airdrop | Commission =>
      change op
  | Sell => - Qabs (change op)
  | Deposit => if (coin =? FIAT cfg)%string then change op else 0
  | Withdrawal => if (coin =? FIAT cfg)%string then - Qabs (change op) else 0
  | _ => 0
  end.

Definition net_balance (coin : string) (operations : list Operation) : Q :=
  Qsum (map (balance_effect coin) operations).

(** An event of income: the full fiat value of the operation is taxed, the
    other fields keep their defaults. *)
Definition income_event (ty : string) (tx : TaxEvent) : Prop :=
  taxation_type tx = ty
  /\ taxed_gain tx = get_cost price_data (inl (te_op tx))
  /\ sell_value tx = 0 /\ real_gain tx = 0 /\ remark tx = [].

(** What holds of a realized event of a group. *)
Definition realized_event_ok (coin : string) (operations : list Operation)
  (tx : TaxEvent) : Prop :=
  In (te_op tx) operations
  /\ in_tax_year cfg (te_op tx) = true
  /\ match kind (te_op tx) with
     | Sell =>
         taxation_type tx = "Sonstige Einkünfte"
         /\ (coin =? FIAT cfg)%string = false
         /\ sell_value tx = get_cost price_data (inl (te_op tx))
     | CoinLendInterest =>
         income_event (if is_fiat price_data coin
                       then "Einkünfte aus Kapitalvermögen"
                       else "Einkünfte aus sonstigen Leistungen") tx
     | StakingInterest =>
         is_fiat price_data coin = false
         /\ income_event "Einkünfte aus sonstigen Leistungen" tx
     | Commission => income_event "Einkünfte aus sonstigen Leistungen" tx
     | _ => False
     end.

(** What holds of a virtual event of a group. *)
Definition virtual_event_ok (group_coin : string) (tx : TaxEvent) : Prop :=
  CALCULATE_UNREALIZED_GAINS cfg = true
  /\ (group_coin =? FIAT cfg)%string = false
  /\ taxation_type tx = "Sonstige Einkünfte"
  /\ kind (te_op tx) = Sell
  /\ utc_time (te_op tx) = TAX_DEADLINE cfg
  /\ coin (te_op tx) = group_coin
  /\ 0 < change (te_op tx)
  /\ sell_value tx = get_cost price_data (inl (te_op tx)).

End FurtherNotions.

(** * Properties *)

(** ** Rounding to the nearest integer, ties to even *)

Lemma inject_Z_succ (n : Z) : inject_Z (n + 1) == inject_Z n + 1.
Proof. rewrite inject_Z_plus. reflexivity. Qed.

Lemma half_even_nearest (q : Q) : nearest_even q (half_even q).
Proof.
  unfold nearest_even, half_even.
  pose proof (Qfloor_le q) as Hlo. pose proof (Qlt_floor q) as Hhi.
  rewrite inject_Z_succ in Hhi.
  destruct (Qcompare (q - inject_Z (Qfloor q)) (1 # 2)) eqn:Hc.
  - apply Qeq_alt in Hc.
    destruct (Z.even (Qfloor q)) eqn:He.
    + repeat split; try lra; intros E; try exact He; exfalso; lra.
    + rewrite inject_Z_succ.
      repeat split; try lra; intros E; try (exfalso; lra).
      rewrite Z.even_add, He. reflexivity.
  - apply Qlt_alt in Hc.
    repeat split; try lra; intros E; exfalso; lra.
  - apply Qgt_alt in Hc. rewrite inject_Z_succ.
    repeat split; try lra; intros E; exfalso; lra.
Qed.

Lemma Zlt_Qle_succ (n m : Z) : (n < m)%Z -> inject_Z n + 1 <= inject_Z m.
Proof.
  intros H. rewrite <- inject_Z_succ. rewrite <- Zle_Qle. lia.
Qed.

Lemma nearest_even_mono (q1 q2 : Q) (n1 n2 : Z) :
  nearest_even q1 n1 -> nearest_even q2 n2 -> q1 <= q2 -> (n1 <= n2)%Z.
Proof.
  intros (L1 & U1 & Tu1 & Tl1) (L2 & U2 & Tu2 & Tl2) Hle.
  destruct (Z_lt_le_dec n2 n1) as [Hlt|Hge]; [|exact Hge]. exfalso.
  pose proof (Zlt_Qle_succ _ _ Hlt) as Hq.
  assert (E2 : q2 == inject_Z n2 + (1 # 2)) by lra.
  assert (E1 : q1 == inject_Z n1 - (1 # 2)) by lra.
  assert (En : inject_Z n1 == inject_Z n2 + 1) by lra.
  rewrite <- inject_Z_succ in En. apply (proj1 (inject_Z_injective _ _)) in En. subst n1.
  specialize (Tu2 E2). specialize (Tl1 E1).
  rewrite Z.even_add, Tu2 in Tl1. discriminate.
Qed.

Lemma nearest_even_unique (q : Q) (n m : Z) :
  nearest_even q n -> nearest_even q m -> n = m.
Proof.
  intros Hn Hm. apply Z.le_antisymm.
  - apply (nearest_even_mono q q); auto. lra.
  - apply (nearest_even_mono q q); auto. lra.
Qed.

Lemma half_even_mono (q1 q2 : Q) : q1 <= q2 -> (half_even q1 <= half_even q2)%Z.
Proof.
  intros H. apply (nearest_even_mono q1 q2); auto using half_even_nearest.
Qed.

Lemma half_even_eq (q : Q) (n : Z) : nearest_even q n -> half_even q = n.
Proof. intros H. apply (nearest_even_unique q); auto using half_even_nearest. Qed.

Lemma half_even_inject (n : Z) : half_even (inject_Z n) = n.
Proof.
  apply half_even_eq. unfold nearest_even. repeat split; try lra; intros; lra.
Qed.

Lemma half_even_opp (q : Q) : half_even (- q) = (- half_even q)%Z.
Proof.
  apply half_even_eq. destruct (half_even_nearest q) as (L & U & Tu & Tl).
  unfold nearest_even. rewrite inject_Z_opp, Z.even_opp.
  repeat split; try lra.
  - intros H. apply Tl. lra.
  - intros H. apply Tu. lra.
Qed.

Lemma half_even_proper (q q' : Q) : q == q' -> half_even q = half_even q'.
Proof.
  intros H. apply half_even_eq.
  destruct (half_even_nearest q') as (L & U & Tu & Tl).
  unfold nearest_even. repeat split; try lra.
  - intros E. apply Tu. lra.
  - intros E. apply Tl. lra.
Qed.

(** ** Decimal digits *)

Lemma ilog10_fuel_spec (fuel : nat) :
  forall n, (1 <= n < 2 ^ Z.of_nat fuel)%Z ->
            (0 <= ilog10_fuel fuel n
             /\ 10 ^ ilog10_fuel fuel n <= n < 10 ^ (ilog10_fuel fuel n + 1))%Z.
Proof.
  induction fuel as [|fuel IH]; intros n Hn.
  - simpl in Hn. lia.
  - change (ilog10_fuel (S fuel) n)
      with (if (n <? 10)%Z then 0%Z else (1 + ilog10_fuel fuel (n / 10))%Z).
    destruct (Z.ltb_spec n 10) as [Hlt|Hge].
    + change (10 ^ 0)%Z with 1%Z. change (10 ^ (0 + 1))%Z with 10%Z. lia.
    + assert (Hdiv : (1 <= n / 10 < 2 ^ Z.of_nat fuel)%Z).
      { rewrite Nat2Z.inj_succ, Z.pow_succ_r in Hn by lia.
        split.
        - apply Z.div_le_lower_bound; lia.
        - apply Z.div_lt_upper_bound; lia. }
      destruct (IH _ Hdiv) as (H0 & Hlo & Hhi).
      pose proof (Z.mul_div_le n 10 ltac:(lia)) as Hm.
      pose proof (Z.mod_pos_bound n 10 ltac:(lia)) as Hmod.
      pose proof (Z.div_mod n 10 ltac:(lia)) as Hdm.
      split; [lia|].
      replace (1 + ilog10_fuel fuel (n / 10))%Z
        with (Z.succ (ilog10_fuel fuel (n / 10))) by lia.
      rewrite Z.pow_succ_r by lia.
      replace (Z.succ (ilog10_fuel fuel (n / 10)) + 1)%Z
        with (Z.succ (ilog10_fuel fuel (n / 10) + 1)) by lia.
      rewrite Z.pow_succ_r by lia.
      split; lia.
Qed.

Lemma ilog10_spec (n : Z) :
  (1 <= n)%Z ->
  (0 <= ilog10 n /\ 10 ^ ilog10 n <= n < 10 ^ (ilog10 n + 1))%Z.
Proof.
  intros Hn. unfold ilog10. apply ilog10_fuel_spec.
  split; [exact Hn|].
  rewrite Nat2Z.inj_succ, Z2Nat.id by apply Z.log2_nonneg.
  apply Z.log2_spec. lia.
Qed.

(** ** Powers of ten *)

Lemma ten_not_0 : ~ 10 == 0.
Proof. discriminate. Qed.

Lemma pow10_pos (k : Z) : 0 < 10 ^ k.
Proof. apply Qpower_0_lt. reflexivity. Qed.

Lemma pow10_plus (n m : Z) : 10 ^ (n + m) == 10 ^ n * 10 ^ m.
Proof. apply Qpower_plus. exact ten_not_0. Qed.

Lemma pow10_le (n m : Z) : (n <= m)%Z -> 10 ^ n <= 10 ^ m.
Proof. intros H. apply Qpower_le_compat_l; [exact H|discriminate]. Qed.

Lemma pow10_lt (n m : Z) : (n < m)%Z -> 10 ^ n < 10 ^ m.
Proof. intros H. apply Qpower_lt_compat_l; [exact H|reflexivity]. Qed.

Lemma pow10_Z (k : Z) : (0 <= k)%Z -> inject_Z (10 ^ k) == 10 ^ k.
Proof. intros H. apply (Zpower_Qpower 10 k H). Qed.

Lemma pow10_cancel (s : Z) : 10 ^ s * 10 ^ (- s) == 1.
Proof. rewrite <- pow10_plus. now replace (s + - s)%Z with 0%Z by lia. Qed.

(** ** The exponent of the leading digit *)

Lemma in_decade_unique (e1 e2 : Z) (x : Q) :
  in_decade e1 x -> in_decade e2 x -> e1 = e2.
Proof.
  intros [L1 U1] [L2 U2].
  destruct (Z.lt_trichotomy e1 e2) as [H|[H|H]]; [|exact H|]; exfalso.
  - pose proof (pow10_le (e1 + 1) e2 ltac:(lia)). lra.
  - pose proof (pow10_le (e2 + 1) e1 ltac:(lia)). lra.
Qed.

Lemma in_decade_mono (e1 e2 : Z) (x y : Q) :
  in_decade e1 x -> in_decade e2 y -> x <= y -> (e1 <= e2)%Z.
Proof.
  intros [L1 U1] [L2 U2] Hxy.
  destruct (Z_lt_le_dec e2 e1) as [H|H]; [|exact H]. exfalso.
  pose proof (pow10_le (e2 + 1) e1 ltac:(lia)). lra.
Qed.

Lemma Qabs_Qmake (a : Z) (b : positive) :
  Qabs (a # b) * inject_Z (Zpos b) == inject_Z (Z.abs a).
Proof.
  unfold Qabs. simpl. unfold Qeq, Qmult, inject_Z. simpl. lia.
Qed.

Lemma exponent10_spec (q : Q) :
  ~ q == 0 -> in_decade (exponent10 q) (Qabs q).
Proof.
  intros Hq. destruct q as [a b].
  assert (Ha : (1 <= Z.abs a)%Z).
  { assert (a <> 0%Z).
    { intros ->. apply Hq. reflexivity. }
    lia. }
  assert (Hb : (1 <= Zpos b)%Z) by lia.
  destruct (ilog10_spec _ Ha) as (Ha0 & Halo & Hahi).
  destruct (ilog10_spec _ Hb) as (Hb0 & Hblo & Hbhi).
  unfold exponent10. cbn [Qnum Qden].
  set (la := ilog10 (Z.abs a)) in *. set (lb := ilog10 (Zpos b)) in *.
  set (x := Qabs (a # b)).
  assert (Hx : x * inject_Z (Zpos b) == inject_Z (Z.abs a))
    by apply Qabs_Qmake.
  assert (HB : 0 < inject_Z (Zpos b)) by reflexivity.
  rewrite Zle_Qle in Halo, Hblo.
  rewrite Zlt_Qlt in Hahi, Hbhi.
  rewrite pow10_Z in Halo, Hahi, Hblo, Hbhi by lia.
  assert (Hupper : x < 10 ^ (la - lb + 1)).
  { apply (Qmult_lt_r _ _ _ HB). rewrite Hx.
    eapply Qlt_le_trans; [exact Hahi|].
    replace (la + 1)%Z with ((la - lb + 1) + lb)%Z by lia.
    rewrite pow10_plus. apply Qmult_le_l; [apply pow10_pos|exact Hblo]. }
  assert (Hlower : 10 ^ (la - lb - 1) <= x).
  { apply (Qmult_le_r _ _ _ HB). rewrite Hx.
    eapply Qle_trans; [|exact Halo].
    replace la with ((la - lb - 1) + (lb + 1))%Z at 2 by lia.
    rewrite pow10_plus. apply Qmult_le_l; [apply pow10_pos|].
    apply Qlt_le_weak. exact Hbhi. }
  destruct (Qle_bool (10 ^ (la - lb)) x) eqn:Hc.
  - apply Qle_bool_iff in Hc. split; assumption.
  - split; [exact Hlower|].
    replace (la - lb - 1 + 1)%Z with (la - lb)%Z by lia.
    destruct (Qlt_le_dec x (10 ^ (la - lb))) as [H|H]; [exact H|].
    apply Qle_bool_iff in H. congruence.
Qed.

Lemma exponent10_eq (q : Q) (e : Z) :
  in_decade e (Qabs q) -> exponent10 q = e.
Proof.
  intros H. apply (in_decade_unique _ _ (Qabs q)); [|exact H].
  apply exponent10_spec. intros Hq. destruct H as [L _].
  rewrite Hq in L. simpl in L. pose proof (pow10_pos e). lra.
Qed.

(** ** Rounding at a given exponent *)

Lemma div_pow10 (x : Q) (s : Z) : x / 10 ^ s == x * 10 ^ (- s).
Proof. unfold Qdiv. now rewrite Qpower_opp. Qed.

Lemma round_at_eq (e : Z) (q : Q) :
  round_at e q == inject_Z (half_even (q * 10 ^ (PREC - 1 - e))) * 10 ^ (e + 1 - PREC).
Proof.
  unfold round_at. cbv zeta. rewrite Qred_correct, div_pow10.
  now replace (- (PREC - 1 - e))%Z with (e + 1 - PREC)%Z by lia.
Qed.

Lemma round_at_proper (e : Z) (q q' : Q) : q == q' -> round_at e q = round_at e q'.
Proof.
  intros H. unfold round_at. cbv zeta.
  rewrite (half_even_proper (q * 10 ^ (PREC - 1 - e)) (q' * 10 ^ (PREC - 1 - e))).
  - reflexivity.
  - now rewrite H.
Qed.

Lemma round_at_mono (e : Z) (q q' : Q) : q <= q' -> round_at e q <= round_at e q'.
Proof.
  intros H. rewrite !round_at_eq.
  apply Qmult_le_compat_r; [|apply Qlt_le_weak, pow10_pos].
  rewrite <- Zle_Qle. apply half_even_mono.
  apply Qmult_le_compat_r; [exact H|apply Qlt_le_weak, pow10_pos].
Qed.

Lemma round_at_opp (e : Z) (q : Q) : round_at e (- q) == - round_at e q.
Proof.
  rewrite !round_at_eq.
  rewrite (half_even_proper (- q * 10 ^ (PREC - 1 - e)) (- (q * 10 ^ (PREC - 1 - e))))
    by ring.
  rewrite half_even_opp, inject_Z_opp. ring.
Qed.

Lemma round_at_pow10 (e k : Z) :
  (e + 1 - PREC <= k)%Z -> round_at e (10 ^ k) == 10 ^ k.
Proof.
  intros Hk. rewrite round_at_eq.
  rewrite (half_even_proper (10 ^ k * 10 ^ (PREC - 1 - e))
             (inject_Z (10 ^ (k + (PREC - 1 - e))))).
  - rewrite half_even_inject, pow10_Z by lia. rewrite <- pow10_plus.
    now replace (k + (PREC - 1 - e) + (e + 1 - PREC))%Z with k by lia.
  - rewrite pow10_Z by lia. now rewrite pow10_plus.
Qed.

Lemma round_at_bounds (e : Z) (q : Q) :
  in_decade e q -> 10 ^ e <= round_at e q <= 10 ^ (e + 1).
Proof.
  intros [L U]. split.
  - rewrite <- (round_at_pow10 e e) by (unfold PREC; lia).
    apply round_at_mono, L.
  - rewrite <- (round_at_pow10 e (e + 1)) by (unfold PREC; lia).
    apply round_at_mono. apply Qlt_le_weak, U.
Qed.

Lemma round_at_fixed (e : Z) (q : Q) (n : Z) :
  q == inject_Z n * 10 ^ (e + 1 - PREC) -> round_at e q == q.
Proof.
  intros H. rewrite round_at_eq.
  rewrite (half_even_proper (q * 10 ^ (PREC - 1 - e)) (inject_Z n)).
  - rewrite half_even_inject. now rewrite H.
  - rewrite H, <- Qmult_assoc, <- pow10_plus.
    replace (e + 1 - PREC + (PREC - 1 - e))%Z with 0%Z by lia.
    change (10 ^ 0) with 1. ring.
Qed.

(** ** Rounding to the precision of the context *)

Lemma round_prec_zero (q : Q) : q == 0 -> round_prec q = 0.
Proof.
  intros H. unfold round_prec.
  now rewrite (proj2 (Qeq_bool_iff q 0) H).
Qed.

Lemma round_prec_nonzero (q : Q) : ~ q == 0 -> round_prec q = round_at (exponent10 q) q.
Proof.
  intros H. unfold round_prec. destruct (Qeq_bool q 0) eqn:E; [|reflexivity].
  apply Qeq_bool_iff in E. contradiction.
Qed.

Lemma exponent10_proper (q q' : Q) : ~ q == 0 -> q == q' -> exponent10 q = exponent10 q'.
Proof.
  intros Hq H. apply exponent10_eq.
  assert (Hq' : ~ q' == 0) by (now rewrite <- H).
  destruct (exponent10_spec q' Hq') as [L U].
  split; rewrite H; assumption.
Qed.

Lemma exponent10_opp (q : Q) : ~ q == 0 -> exponent10 (- q) = exponent10 q.
Proof.
  intros Hq. apply exponent10_eq.
  destruct (exponent10_spec q Hq) as [L U].
  split; rewrite Qabs_opp; assumption.
Qed.

Lemma exponent10_pos (q : Q) : 0 < q -> in_decade (exponent10 q) q.
Proof.
  intros Hq. destruct (exponent10_spec q ltac:(lra)) as [L U].
  rewrite Qabs_pos in L, U by lra. split; assumption.
Qed.

Lemma round_prec_proper (q q' : Q) : q == q' -> round_prec q = round_prec q'.
Proof.
  intros H. unfold round_prec.
  destruct (Qeq_bool q 0) eqn:E, (Qeq_bool q' 0) eqn:E'; try reflexivity.
  - apply Qeq_bool_iff in E. apply Qeq_bool_neq in E'. exfalso. apply E'. lra.
  - apply Qeq_bool_iff in E'. apply Qeq_bool_neq in E. exfalso. apply E. lra.
  - apply Qeq_bool_neq in E.
    rewrite (exponent10_proper q q' E H). now apply round_at_proper.
Qed.

Lemma round_prec_opp (q : Q) : round_prec (- q) == - round_prec q.
Proof.
  unfold round_prec.
  destruct (Qeq_bool q 0) eqn:E, (Qeq_bool (- q) 0) eqn:E'; try reflexivity.
  - apply Qeq_bool_iff in E. apply Qeq_bool_neq in E'. exfalso. apply E'. lra.
  - apply Qeq_bool_iff in E'. apply Qeq_bool_neq in E. exfalso. apply E. lra.
  - apply Qeq_bool_neq in E. rewrite (exponent10_opp q E). apply round_at_opp.
Qed.

Lemma round_prec_pos_bounds (q : Q) :
  0 < q -> 10 ^ exponent10 q <= round_prec q <= 10 ^ (exponent10 q + 1).
Proof.
  intros Hq. rewrite round_prec_nonzero by lra.
  apply round_at_bounds, exponent10_pos, Hq.
Qed.

Lemma round_prec_pos (q : Q) : 0 < q -> 0 < round_prec q.
Proof.
  intros Hq. destruct (round_prec_pos_bounds q Hq) as [L _].
  pose proof (pow10_pos (exponent10 q)). lra.
Qed.

Lemma round_prec_mono_pos (x y : Q) :
  0 < x -> x <= y -> round_prec x <= round_prec y.
Proof.
  intros Hx Hxy.
  assert (Hy : 0 < y) by lra.
  pose proof (exponent10_pos x Hx) as Dx. pose proof (exponent10_pos y Hy) as Dy.
  pose proof (in_decade_mono _ _ _ _ Dx Dy Hxy) as He.
  destruct (Z.eq_dec (exponent10 x) (exponent10 y)) as [Heq|Hne].
  - rewrite !round_prec_nonzero by lra. rewrite Heq. now apply round_at_mono.
  - destruct (round_prec_pos_bounds x Hx) as [_ Ux].
    destruct (round_prec_pos_bounds y Hy) as [Ly _].
    pose proof (pow10_le (exponent10 x + 1) (exponent10 y) ltac:(lia)). lra.
Qed.

Lemma round_prec_mono (x y : Q) : x <= y -> round_prec x <= round_prec y.
Proof.
  intros Hxy.
  destruct (Q_dec x 0) as [[Hx|Hx]|Hx], (Q_dec y 0) as [[Hy|Hy]|Hy];
    try (exfalso; lra).
  - assert (H : round_prec (- y) <= round_prec (- x))
      by (apply round_prec_mono_pos; lra).
    rewrite !round_prec_opp in H. lra.
  - pose proof (round_prec_pos (- x) ltac:(lra)) as H. rewrite round_prec_opp in H.
    pose proof (round_prec_pos y Hy). lra.
  - pose proof (round_prec_pos (- x) ltac:(lra)) as H. rewrite round_prec_opp in H.
    rewrite (round_prec_zero y Hy). lra.
  - now apply round_prec_mono_pos.
  - rewrite (round_prec_zero x Hx). pose proof (round_prec_pos y Hy). lra.
  - rewrite (round_prec_zero x Hx), (round_prec_zero y Hy). lra.
Qed.

Lemma round_prec_idem_pos (q : Q) :
  0 < q -> round_prec (round_prec q) == round_prec q.
Proof.
  intros Hq. pose proof (round_prec_pos q Hq) as Hr.
  destruct (round_prec_pos_bounds q Hq) as [L U].
  set (e := exponent10 q) in *.
  assert (Hrep : round_prec q
                 == inject_Z (half_even (q * 10 ^ (PREC - 1 - e))) * 10 ^ (e + 1 - PREC)).
  { rewrite round_prec_nonzero by lra. apply round_at_eq. }
  destruct (Qlt_le_dec (round_prec q) (10 ^ (e + 1))) as [Hlt|Hge].
  - rewrite (round_prec_nonzero (round_prec q)) by lra.
    rewrite (exponent10_eq (round_prec q) e).
    + eapply round_at_fixed, Hrep.
    + split; rewrite Qabs_pos by lra; assumption.
  - assert (Heq : round_prec q == 10 ^ (e + 1)) by lra.
    rewrite (round_prec_proper _ _ Heq). rewrite Heq.
    rewrite round_prec_nonzero by (pose proof (pow10_pos (e + 1)); lra).
    rewrite (exponent10_eq (10 ^ (e + 1)) (e + 1)).
    + apply round_at_pow10. unfold PREC. lia.
    + split; rewrite Qabs_pos by (apply Qlt_le_weak, pow10_pos);
        [lra|apply pow10_lt; lia].
Qed.

Lemma round_prec_idem (q : Q) : round_prec (round_prec q) == round_prec q.
Proof.
  destruct (Q_dec q 0) as [[Hq|Hq]|Hq].
  - pose proof (round_prec_idem_pos (- q) ltac:(lra)) as H.
    rewrite (round_prec_proper _ _ (round_prec_opp q)) in H.
    rewrite !round_prec_opp in H. lra.
  - now apply round_prec_idem_pos.
  - rewrite (round_prec_zero q Hq). reflexivity.
Qed.

Lemma round_prec_nonneg (q : Q) : 0 <= q -> 0 <= round_prec q.
Proof.
  intros H. change 0 with (round_prec 0) at 1. now apply round_prec_mono.
Qed.

(** ** Sums of decimals *)

Lemma fold_left_Qplus (l : list Q) (a : Q) :
  fold_left Qplus l a == a + Qsum l.
Proof.
  unfold Qsum. revert a.
  induction l as [|x l IH]; intros a; simpl.
  - lra.
  - rewrite (IH (a + x)), (IH (0 + x)). lra.
Qed.

Lemma Qsum_cons (x : Q) (l : list Q) : Qsum (x :: l) == x + Qsum l.
Proof. unfold Qsum at 1. simpl. rewrite fold_left_Qplus. lra. Qed.

Lemma Qsum_app (l1 l2 : list Q) : Qsum (l1 ++ l2) == Qsum l1 + Qsum l2.
Proof.
  induction l1 as [|x l1 IH]; simpl.
  - unfold Qsum at 2. simpl. lra.
  - rewrite !Qsum_cons, IH. lra.
Qed.

Lemma Qsum_rev (l : list Q) : Qsum (rev l) == Qsum l.
Proof.
  induction l as [|x l IH]; simpl.
  - reflexivity.
  - rewrite Qsum_app, IH, !Qsum_cons. change (Qsum []) with 0. lra.
Qed.

Lemma not_sold_total_cons (l : BalancedOperation) (q : list BalancedOperation) :
  not_sold_total (l :: q) == not_sold l + not_sold_total q.
Proof. unfold not_sold_total. simpl. apply Qsum_cons. Qed.

Lemma not_sold_total_rev (q : list BalancedOperation) :
  not_sold_total (rev q) == not_sold_total q.
Proof. unfold not_sold_total. rewrite map_rev. apply Qsum_rev. Qed.

(** ** The consumption loop *)

Lemma consume_satisfied (needed : Q) (lots : list BalancedOperation) :
  needed <= 0 -> consume needed lots = ([], lots, needed).
Proof.
  intros H. destruct lots as [|l rest]; simpl.
  - reflexivity.
  - apply Qle_bool_iff in H. rewrite H. reflexivity.
Qed.

(** What is taken from the lots is what the records say, and what is still
    missing is the request less what was taken. *)
Lemma consume_conservation (lots : list BalancedOperation) (needed : Q) :
  forall scs lots' missing,
    consume needed lots = (scs, lots', missing) ->
    not_sold_total lots' + sold_total scs == not_sold_total lots
    /\ sold_total scs + missing == needed.
Proof.
  revert needed.
  induction lots as [|l rest IH]; intros needed scs lots' missing; simpl.
  - intros H. injection H as <- <- <-.
    change (sold_total []) with 0. change (not_sold_total []) with 0.
    split; lra.
  - destruct (Qle_bool needed 0) eqn:Hn.
    + intros H. injection H as <- <- <-.
      change (sold_total []) with 0. split; lra.
    + destruct (consume (needed - Qmin (not_sold l) needed) rest)
        as [[scs0 rest0] miss0] eqn:Hc.
      intros H. injection H as <- <- <-.
      destruct (IH _ _ _ _ Hc) as [H1 H2].
      unfold sold_total in *. simpl. rewrite Qsum_cons.
      rewrite not_sold_total_cons. split; [|lra].
      destruct (Qeq_bool (not_sold l - Qmin (not_sold l) needed) 0) eqn:Hz.
      * apply Qeq_bool_iff in Hz. lra.
      * rewrite not_sold_total_cons. simpl. lra.
Qed.

(** A request that the lots can cover is covered in full. *)
Lemma consume_complete (lots : list BalancedOperation) (needed : Q) :
  forall scs lots' missing,
    0 <= needed -> needed <= not_sold_total lots ->
    consume needed lots = (scs, lots', missing) ->
    missing == 0.
Proof.
  revert needed.
  induction lots as [|l rest IH]; intros needed scs lots' missing Hpos Hle; simpl.
  - intros H. injection H as <- <- <-.
    change (not_sold_total []) with 0 in Hle. lra.
  - destruct (Qle_bool needed 0) eqn:Hn.
    + intros H. injection H as <- <- <-. apply Qle_bool_iff in Hn. lra.
    + destruct (consume (needed - Qmin (not_sold l) needed) rest)
        as [[scs0 rest0] miss0] eqn:Hc.
      intros H. injection H as <- <- <-.
      rewrite not_sold_total_cons in Hle.
      destruct (Q.min_spec (not_sold l) needed) as [[Hlt Hm]|[Hge Hm]].
      * apply (IH _ _ _ _) in Hc; [exact Hc| |]; lra.
      * rewrite consume_satisfied in Hc by lra.
        injection Hc as _ _ <-. lra.
Qed.

(** Records are only produced for a positive request. *)
Lemma consume_records_positive (lots : list BalancedOperation) (needed : Q) :
  forall scs lots' missing,
    consume needed lots = (scs, lots', missing) ->
    scs <> [] -> 0 < needed.
Proof.
  intros scs lots' missing H Hne.
  destruct (Qlt_le_dec 0 needed) as [Hlt|Hle]; [exact Hlt|].
  rewrite (consume_satisfied _ _ Hle) in H. injection H as <- _ _.
  contradiction.
Qed.

(** ** [BalanceQueue.remove] *)

Lemma remove_insufficient (op : Operation) (b : BalanceQueue.t) :
  not_sold_total (BalanceQueue.queue b) < Qabs (change op) ->
  BalanceQueue.remove op b = Raise InsufficientBalance.
Proof.
  intros H. unfold BalanceQueue.remove.
  destruct (Qle_bool _ _) eqn:Hle; [|reflexivity].
  apply Qle_bool_iff in Hle. lra.
Qed.

Lemma remove_sufficient (op : Operation) (b : BalanceQueue.t) :
  Qabs (change op) <= not_sold_total (BalanceQueue.queue b) ->
  exists scs b', BalanceQueue.remove op b = Ok (scs, b').
Proof.
  intros H. unfold BalanceQueue.remove.
  apply Qle_bool_iff in H. rewrite H.
  destruct (BalanceQueue.principle b).
  - destruct (consume _ _) as [[scs lots] m]. eauto.
  - destruct (consume _ _) as [[scs lots] m]. eauto.
  - destruct (consume _ _) as [[scs lots] m]. eauto.
Qed.

(** Lot conservation and consumption completeness of a removal. *)
Lemma remove_ok_inv (op : Operation) (b b' : BalanceQueue.t)
  (scs : list SoldCoin) :
  BalanceQueue.remove op b = Ok (scs, b') ->
  Qabs (change op) <= not_sold_total (BalanceQueue.queue b)
  /\ not_sold_total (BalanceQueue.queue b')
     == not_sold_total (BalanceQueue.queue b) - Qabs (change op)
  /\ sold_total scs == Qabs (change op)
  /\ (scs <> [] -> ~ change op == 0)
  /\ BalanceQueue.principle b' = BalanceQueue.principle b.
Proof.
  unfold BalanceQueue.remove.
  destruct (Qle_bool _ _) eqn:Hle; [|discriminate].
  apply Qle_bool_iff in Hle.
  pose proof (Qabs_nonneg (change op)) as Hpos.
  assert (Hgen : forall lots scs0 lots0 m,
             not_sold_total lots == not_sold_total (BalanceQueue.queue b) ->
             consume (Qabs (change op)) lots = (scs0, lots0, m) ->
             not_sold_total lots0
               == not_sold_total (BalanceQueue.queue b) - Qabs (change op)
             /\ sold_total scs0 == Qabs (change op)
             /\ (scs0 <> [] -> ~ change op == 0)).
  { intros lots scs0 lots0 m Ht Hc.
    pose proof (consume_conservation _ _ _ _ _ Hc) as [H1 H2].
    assert (Hm : m == 0).
    { apply (consume_complete _ _ _ _ _ Hpos) in Hc; [exact Hc|]. lra. }
    repeat split; try lra.
    intros Hne Hz.
    pose proof (consume_records_positive _ _ _ _ _ Hc Hne) as Hlt.
    rewrite Hz in Hlt. simpl in Hlt. lra. }
  destruct (BalanceQueue.principle b) eqn:Hp.
  - destruct (consume _ _) as [[scs0 lots0] m] eqn:Hc.
    intros H. injection H as <- <-. simpl.
    destruct (Hgen _ _ _ _ (Qeq_refl _) Hc) as (H1 & H2 & H3).
    repeat split; assumption.
  - destruct (consume _ _) as [[scs0 lots0] m] eqn:Hc.
    intros H. injection H as <- <-. simpl.
    destruct (Hgen _ _ _ _ (not_sold_total_rev _) Hc) as (H1 & H2 & H3).
    rewrite not_sold_total_rev. repeat split; assumption.
  - destruct (consume _ _) as [[scs0 lots0] m] eqn:Hc.
    intros H. injection H as <- <-. simpl.
    destruct (Hgen _ _ _ _ (Qeq_refl _) Hc) as (H1 & H2 & H3).
    repeat split; assumption.
Qed.

(** ** Open lots stay positive *)

Lemma consume_positive (lots : list BalancedOperation) :
  forall needed scs lots' missing,
    Forall (fun l => 0 < not_sold l) lots ->
    consume needed lots = (scs, lots', missing) ->
    Forall (fun l => 0 < not_sold l) lots'.
Proof.
  induction lots as [|l rest IH]; intros needed scs lots' missing Hpos; simpl.
  - intros H. injection H as _ <- _. constructor.
  - destruct (Qle_bool needed 0) eqn:Hn.
    + intros H. injection H as _ <- _. exact Hpos.
    + destruct (consume (needed - Qmin (not_sold l) needed) rest)
        as [[scs0 rest0] miss0] eqn:Hc.
      intros H. injection H as _ <- _.
      inversion Hpos as [|? ? Hl Hrest]; subst.
      specialize (IH _ _ _ _ Hrest Hc).
      destruct (Qeq_bool (not_sold l - Qmin (not_sold l) needed) 0) eqn:Hz.
      * exact IH.
      * constructor; [|exact IH]. simpl.
        assert (Hne : ~ not_sold l - Qmin (not_sold l) needed == 0).
        { intros E. apply Qeq_bool_iff in E. congruence. }
        pose proof (Q.le_min_l (not_sold l) needed).
        destruct (Qlt_le_dec 0 (not_sold l - Qmin (not_sold l) needed));
          [assumption|].
        exfalso. apply Hne. lra.
Qed.

Lemma add_positive (op : Operation) (b b' : BalanceQueue.t) :
  lots_positive b -> BalanceQueue.add op b = Ok b' -> lots_positive b'.
Proof.
  unfold lots_positive, BalanceQueue.add. intros Hpos.
  destruct (Qle_bool (change op) 0) eqn:Hle; [discriminate|].
  intros H. injection H as <-. simpl.
  apply Forall_app. split; [exact Hpos|].
  constructor; [|constructor]. simpl.
  destruct (Qlt_le_dec 0 (change op)) as [Hlt|Hge]; [exact Hlt|].
  apply Qle_bool_iff in Hge. congruence.
Qed.

Lemma remove_positive (op : Operation) (b b' : BalanceQueue.t)
  (scs : list SoldCoin) :
  lots_positive b -> BalanceQueue.remove op b = Ok (scs, b') ->
  lots_positive b'.
Proof.
  unfold lots_positive, BalanceQueue.remove. intros Hpos.
  destruct (Qle_bool _ _); [|discriminate].
  destruct (BalanceQueue.principle b).
  - destruct (consume _ _) as [[scs0 lots0] m] eqn:Hc.
    intros H. injection H as _ <-. simpl.
    apply (consume_positive _ _ _ _ _ Hpos Hc).
  - destruct (consume _ _) as [[scs0 lots0] m] eqn:Hc.
    intros H. injection H as _ <-. simpl.
    apply Forall_rev. apply Forall_rev in Hpos.
    apply (consume_positive _ _ _ _ _ Hpos Hc).
  - destruct (consume _ _) as [[scs0 lots0] m] eqn:Hc.
    intros H. injection H as _ <-. simpl.
    apply (consume_positive _ _ _ _ _ Hpos Hc).
Qed.

Lemma positive_total_nonneg (q : list BalancedOperation) :
  Forall (fun l => 0 < not_sold l) q -> 0 <= not_sold_total q.
Proof.
  induction 1 as [|l rest Hl Hrest IH].
  - change (not_sold_total []) with 0. lra.
  - rewrite not_sold_total_cons. lra.
Qed.


(** ** The gains of a Sell *)

Section SellGains.

Variable cfg : Config.
Variable price_data : PriceData.

Lemma Qeq_bool_false (x y : Q) : ~ x == y -> Qeq_bool x y = false.
Proof.
  intros H. destruct (Qeq_bool x y) eqn:E; [|reflexivity].
  apply Qeq_bool_iff in E. contradiction.
Qed.

Lemma income_kinds_is_income_origin (k : OpKind) :
  In k income_kinds <-> is_income_origin k = true.
Proof.
  unfold income_kinds. split.
  - intros [<-|[<-|[<-|[<-|[]]]]]; reflexivity.
  - destruct k; try discriminate; intros _; simpl; tauto.
Qed.

(** On a lot on which the long-term predicate returns, the test of the loop
    says exempt where the specification does. *)
Lemma is_taxable_exempt (sc : SoldCoin) (op : Operation) (verdict : bool) :
  IS_LONG_TERM cfg (utc_time (sc_op sc)) (utc_time op) = Ok verdict ->
  lot_exempt cfg sc op -> is_taxable cfg sc op = Ok false.
Proof.
  intros H Hex. unfold is_taxable. rewrite H. f_equal.
  destruct Hex as [Hlong|[Hin Hfiat]].
  - unfold held_long_term in Hlong. rewrite H in Hlong.
    injection Hlong as ->. reflexivity.
  - apply String.eqb_neq in Hfiat. rewrite Hfiat.
    apply income_kinds_is_income_origin in Hin. rewrite Hin.
    apply andb_false_r.
Qed.

Lemma is_taxable_not_exempt (sc : SoldCoin) (op : Operation) (verdict : bool) :
  IS_LONG_TERM cfg (utc_time (sc_op sc)) (utc_time op) = Ok verdict ->
  ~ lot_exempt cfg sc op -> is_taxable cfg sc op = Ok true.
Proof.
  intros H Hex. unfold is_taxable. rewrite H. f_equal.
  destruct verdict.
  - exfalso. apply Hex. left. exact H.
  - simpl. destruct (is_income_origin (kind (sc_op sc))) eqn:Hk; [|reflexivity].
    destruct (coin (sc_op sc) =? FIAT cfg)%string eqn:Hf; [reflexivity|].
    exfalso. apply Hex. right. split.
    + apply income_kinds_is_income_origin. exact Hk.
    + apply String.eqb_neq. exact Hf.
Qed.

Lemma is_taxable_lot_taxable (sc : SoldCoin) (op : Operation) (verdict : bool) :
  IS_LONG_TERM cfg (utc_time (sc_op sc)) (utc_time op) = Ok verdict ->
  is_taxable cfg sc op = Ok (lot_taxable cfg sc op).
Proof.
  intros H. unfold lot_taxable.
  destruct (lot_exempt_dec cfg sc op) as [Hex|Hex].
  - now apply (is_taxable_exempt sc op verdict).
  - now apply (is_taxable_not_exempt sc op verdict).
Qed.

Lemma lot_taxable_false (sc : SoldCoin) (op : Operation) :
  lot_taxable cfg sc op = false <-> lot_exempt cfg sc op.
Proof.
  unfold lot_taxable. destruct (lot_exempt_dec cfg sc op); split; intros;
    try reflexivity; try assumption; try discriminate; contradiction.
Qed.

Lemma lot_taxable_true (sc : SoldCoin) (op : Operation) :
  lot_taxable cfg sc op = true <-> ~ lot_exempt cfg sc op.
Proof.
  unfold lot_taxable. destruct (lot_exempt_dec cfg sc op); split; intros;
    try reflexivity; try assumption; try discriminate; contradiction.
Qed.



(** With a change other than zero the loop over the sold coins stops only
    where the long-term predicate raises. When it runs to its end, each
    taxable lot has added its gain to [taxed_gain] and, when unrealized gains
    are tracked, every lot has added its gain to [real_gain]. *)
Lemma gains_loop_checked (op : Operation) (sell_value : Q)
  (sold_coins : list SoldCoin) :
  (sold_coins <> [] -> Qeq_bool (change op) 0 = false) ->
  forall taxed real,
    gains_loop cfg price_data op sell_value sold_coins taxed real
    = match long_term_checks cfg op sold_coins with
      | Raise e => Raise e
      | Ok _ =>
          Ok (fold_left dec_add
                (map (lot_gain price_data op sell_value)
                     (filter (fun sc => lot_taxable cfg sc op) sold_coins))
                taxed,
              if CALCULATE_UNREALIZED_GAINS cfg
              then fold_left dec_add
                     (map (lot_gain price_data op sell_value) sold_coins) real
              else real)
      end.
Proof.
  induction sold_coins as [|sc rest IH]; intros Hz taxed real; simpl.
  - now destruct (CALCULATE_UNREALIZED_GAINS cfg).
  - assert (Hc : Qeq_bool (change op) 0 = false) by (apply Hz; discriminate).
    assert (Hrest : rest <> [] -> Qeq_bool (change op) 0 = false)
      by (intros _; exact Hc).
    destruct (IS_LONG_TERM cfg (utc_time (sc_op sc)) (utc_time op))
      as [verdict|e] eqn:Hlong.
    + rewrite (is_taxable_lot_taxable sc op verdict Hlong).
      destruct (lot_taxable cfg sc op) eqn:Ht;
        destruct (CALCULATE_UNREALIZED_GAINS cfg) eqn:Hu; simpl;
        rewrite ?Hc, (IH Hrest), ?Hu;
        destruct (long_term_checks cfg op rest); reflexivity.
    + unfold is_taxable. rewrite Hlong. reflexivity.
Qed.


(** The shape of an evaluated Sell whose removal succeeded. *)
Lemma evaluate_sell_event (coin : string) (op : Operation) (force : bool)
  (balance balance' : BalanceQueue.t) (sold_coins : list SoldCoin) :
  (coin =? FIAT cfg)%string = false ->
  in_tax_year cfg op || force = true ->
  BalanceQueue.remove op balance = Ok (sold_coins, balance') ->
  evaluate_sell cfg price_data coin op force balance
  = match long_term_checks cfg op sold_coins with
    | Raise e => Raise e
    | Ok _ =>
        Ok (Some (mk_TaxEvent "Sonstige Einkünfte"
                    (taxable_gains cfg price_data op
                       (get_cost price_data (inl op)) sold_coins)
                    op (get_cost price_data (inl op))
                    (if CALCULATE_UNREALIZED_GAINS cfg
                     then all_gains price_data op
                            (get_cost price_data (inl op)) sold_coins
                     else 0)
                    (sell_remark sold_coins)),
            balance')
    end.
Proof.
  intros Hfiat Hyear Hrm. unfold evaluate_sell. rewrite Hrm, Hfiat.
  assert (Hskip : negb (in_tax_year cfg op) && negb force = false).
  { destruct (in_tax_year cfg op), force; simpl in *; congruence. }
  rewrite Hskip, gains_loop_checked.
  - destruct (long_term_checks cfg op sold_coins); reflexivity.
  - intros Hne. apply Qeq_bool_false.
    apply (remove_ok_inv _ _ _ _ Hrm). exact Hne.
Qed.

(** An event only comes out of a Sell of another coin than the home fiat,
    in the tax year or forced, whose removal succeeded and on whose lots the
    long-term predicate returned. *)
Lemma evaluate_sell_some_inv (coin : string) (op : Operation) (force : bool)
  (balance balance' : BalanceQueue.t) (tx : TaxEvent) :
  evaluate_sell cfg price_data coin op force balance = Ok (Some tx, balance') ->
  exists sold_coins verdicts,
    BalanceQueue.remove op balance = Ok (sold_coins, balance')
    /\ (coin =? FIAT cfg)%string = false
    /\ in_tax_year cfg op || force = true
    /\ long_term_checks cfg op sold_coins = Ok verdicts.
Proof.
  intros H.
  destruct (BalanceQueue.remove op balance) as [[scs b1]|e] eqn:Hrm.
  2:{ unfold evaluate_sell in H. rewrite Hrm in H. discriminate. }
  destruct (coin =? FIAT cfg)%string eqn:Hf.
  { unfold evaluate_sell in H. rewrite Hrm, Hf in H. discriminate. }
  destruct (in_tax_year cfg op || force) eqn:Hy.
  2:{ unfold evaluate_sell in H. rewrite Hrm, Hf in H.
      destruct (in_tax_year cfg op), force; simpl in *; discriminate. }
  rewrite (evaluate_sell_event _ _ _ _ _ _ Hf Hy Hrm) in H.
  destruct (long_term_checks cfg op scs) as [verdicts|e] eqn:Hchecks;
    [|discriminate].
  injection H as _ <-. exists scs, verdicts. repeat split; assumption.
Qed.

Lemma evaluate_sell_some_event (coin : string) (op : Operation) (force : bool)
  (balance balance' : BalanceQueue.t) (tx : TaxEvent) :
  evaluate_sell cfg price_data coin op force balance = Ok (Some tx, balance') ->
  exists sold_coins,
    BalanceQueue.remove op balance = Ok (sold_coins, balance')
    /\ (coin =? FIAT cfg)%string = false
    /\ in_tax_year cfg op || force = true
    /\ tx = mk_TaxEvent "Sonstige Einkünfte"
               (taxable_gains cfg price_data op
                  (get_cost price_data (inl op)) sold_coins)
               op (get_cost price_data (inl op))
               (if CALCULATE_UNREALIZED_GAINS cfg
                then all_gains price_data op
                       (get_cost price_data (inl op)) sold_coins
                else 0)
               (sell_remark sold_coins).
Proof.
  intros H.
  destruct (evaluate_sell_some_inv _ _ _ _ _ _ H)
    as (scs & verdicts & Hrm & Hf & Hy & Hchecks).
  rewrite (evaluate_sell_event _ _ _ _ _ _ Hf Hy Hrm), Hchecks in H.
  injection H as <-. exists scs. repeat split; assumption.
Qed.

(** The taxed sum does not exceed the sum of all gains when no lot left out
    of it made a loss, and is not below it when none made a profit. *)
Lemma taxed_sum_le {A} (c : A -> bool) (g : A -> Q) (l : list A) :
  Forall (fun x => c x = false -> 0 <= g x) l ->
  forall t r,
    t <= r -> round_prec r == r ->
    fold_left dec_add (map g (filter c l)) t <= fold_left dec_add (map g l) r.
Proof.
  induction 1 as [|x rest Hx Hrest IH]; intros t r Htr Hr; simpl.
  - exact Htr.
  - destruct (c x) eqn:Hc; simpl.
    + apply IH.
      * apply round_prec_mono. lra.
      * apply round_prec_idem.
    + apply IH.
      * assert (round_prec r <= dec_add r (g x)).
        { apply round_prec_mono. specialize (Hx eq_refl). lra. }
        lra.
      * apply round_prec_idem.
Qed.

Lemma taxed_sum_ge {A} (c : A -> bool) (g : A -> Q) (l : list A) :
  Forall (fun x => c x = false -> g x <= 0) l ->
  forall t r,
    r <= t -> round_prec r == r ->
    fold_left dec_add (map g l) r <= fold_left dec_add (map g (filter c l)) t.
Proof.
  induction 1 as [|x rest Hx Hrest IH]; intros t r Htr Hr; simpl.
  - exact Htr.
  - destruct (c x) eqn:Hc; simpl.
    + apply IH.
      * apply round_prec_mono. lra.
      * apply round_prec_idem.
    + apply IH.
      * assert (dec_add r (g x) <= round_prec r).
        { apply round_prec_mono. specialize (Hx eq_refl). lra. }
        lra.
      * apply round_prec_idem.
Qed.

Lemma filter_all {A} (c : A -> bool) (l : list A) :
  Forall (fun x => c x = true) l -> filter c l = l.
Proof.
  induction 1 as [|x rest Hx Hrest IH]; simpl.
  - reflexivity.
  - now rewrite Hx, IH.
Qed.


(** C3, as the code has it. The event of an evaluated Sell has as taxed gain
    the sum of the gains of its taxable lots. When unrealized gains are not
    tracked its real gain stays zero. When they are tracked its real gain is
    the sum of the gains of all its lots, each sum rounding as it goes: the
    two gains are equal when no lot is exempt, the taxed gain is at most the
    real gain when no exempt lot was sold at a loss, and at least the real
    gain when no exempt lot was sold at a profit. *)
Theorem sell_event_real_and_taxed_gain (coin : string) (op : Operation)
  (force : bool) (balance balance' : BalanceQueue.t) (tx : TaxEvent) :
  evaluate_sell cfg price_data coin op force balance = Ok (Some tx, balance') ->
  exists sold_coins,
    BalanceQueue.remove op balance = Ok (sold_coins, balance')
    /\ taxed_gain tx
       = taxable_gains cfg price_data op (sell_value tx) sold_coins
    /\ (CALCULATE_UNREALIZED_GAINS cfg = false -> real_gain tx = 0)
    /\ (CALCULATE_UNREALIZED_GAINS cfg = true ->
        real_gain tx = all_gains price_data op (sell_value tx) sold_coins
        /\ (Forall (fun sc => ~ lot_exempt cfg sc op) sold_coins ->
            taxed_gain tx = real_gain tx)
        /\ (Forall (fun sc => lot_exempt cfg sc op ->
                              0 <= lot_gain price_data op (sell_value tx) sc)
                   sold_coins ->
            taxed_gain tx <= real_gain tx)
        /\ (Forall (fun sc => lot_exempt cfg sc op ->
                              lot_gain price_data op (sell_value tx) sc <= 0)
                   sold_coins ->
            real_gain tx <= taxed_gain tx)).
Proof.
  intros H.
  destruct (evaluate_sell_some_inv _ _ _ _ _ _ H)
    as (scs & verdicts & Hrm & Hf & Hy & Hchecks).
  rewrite (evaluate_sell_event _ _ _ _ _ _ Hf Hy Hrm), Hchecks in H.
  injection H as <-. exists scs. simpl.
  split; [exact Hrm|]. split; [reflexivity|]. split.
  - intros Hu. now rewrite Hu.
  - intros Hu. rewrite Hu. split; [reflexivity|].
    unfold taxable_gains, all_gains, dsum. split; [|split].
    + intros Hall. rewrite filter_all; [reflexivity|].
      revert Hall. apply Forall_impl. intros sc. apply lot_taxable_true.
    + intros Hall. apply taxed_sum_le; [|lra|reflexivity].
      revert Hall. apply Forall_impl. intros sc Hsc Ht. apply Hsc.
      now apply lot_taxable_false.
    + intros Hall. apply taxed_sum_ge; [|lra|reflexivity].
      revert Hall. apply Forall_impl. intros sc Hsc Ht. apply Hsc.
      now apply lot_taxable_false.
Qed.

End SellGains.

(** ** A Sell of the home fiat, Sells of the ledger, deposits and
    withdrawals *)

Section Operations.

Variable cfg : Config.
Variable price_data : PriceData.

(** C9. For a Sell of the home fiat, [evaluate_sell] removes the disposed
    amount from the balance queue before it returns without a Tax Event:
    its outcome is that of the removal, so an insufficient balance still
    raises, and on success the queue holds the disposed amount less. *)
Theorem evaluate_sell_fiat_removes_first (coin : string) (op : Operation)
  (force : bool) (balance : BalanceQueue.t) :
  (coin =? FIAT cfg)%string = true ->
  evaluate_sell cfg price_data coin op force balance
  = match BalanceQueue.remove op balance with
    | Ok (_, balance') => Ok (None, balance')
    | Raise e => Raise e
    end
  /\ (not_sold_total (BalanceQueue.queue balance) < Qabs (change op) ->
      evaluate_sell cfg price_data coin op force balance
      = Raise InsufficientBalance)
  /\ (Qabs (change op) <= not_sold_total (BalanceQueue.queue balance) ->
      exists balance',
        evaluate_sell cfg price_data coin op force balance
        = Ok (None, balance')
        /\ not_sold_total (BalanceQueue.queue balance')
           == not_sold_total (BalanceQueue.queue balance) - Qabs (change op)).
Proof.
  intros Hfiat.
  assert (Heq : evaluate_sell cfg price_data coin op force balance
                = match BalanceQueue.remove op balance with
                  | Ok (_, balance') => Ok (None, balance')
                  | Raise e => Raise e
                  end).
  { unfold evaluate_sell.
    destruct (BalanceQueue.remove op balance) as [[scs b1]|e]; [|reflexivity].
    now rewrite Hfiat. }
  split; [exact Heq|]. split.
  - intros Hlt. rewrite Heq, remove_insufficient; [reflexivity|exact Hlt].
  - intros Hle.
    destruct (remove_sufficient _ _ Hle) as (scs & b1 & Hrm).
    exists b1. rewrite Heq, Hrm. split; [reflexivity|].
    apply (remove_ok_inv _ _ _ _ Hrm).
Qed.

(** C2, as the code has it. A Sell of the ledger whose removal from the
    balance queue succeeds emits one realized Tax Event if and only if its
    coin is not the home fiat and it falls in the tax year; it does so
    whether or not a lot is taxable and whether or not unrealized gains are
    tracked, and it never touches the virtual list. When the removal fails
    the error is raised and nothing is emitted; likewise when the long-term
    predicate raises on a lot of a Sell that would emit. *)
Theorem sell_emits_realized_event (coin : string) (op : Operation)
  (balance : BalanceQueue.t) (self : Taxman) :
  kind op = Sell ->
  match BalanceQueue.remove op balance with
  | Raise e => process_op cfg price_data coin op balance self = (Raise e, self)
  | Ok (sold_coins, balance') =>
      if negb (coin =? FIAT cfg)%string && in_tax_year cfg op then
        match long_term_checks cfg op sold_coins with
        | Raise e =>
            process_op cfg price_data coin op balance self = (Raise e, self)
        | Ok _ =>
            exists tx,
              process_op cfg price_data coin op balance self
              = (Ok balance',
                 mk_Taxman (book self) (tax_events self ++ [tx])
                           (virtual_tax_events self) (log self))
              /\ te_op tx = op
              /\ taxation_type tx = "Sonstige Einkünfte"
        end
      else
        process_op cfg price_data coin op balance self = (Ok balance', self)
  end.
Proof.
  intros Hk. unfold process_op. rewrite Hk.
  destruct (BalanceQueue.remove op balance) as [[scs b1]|e] eqn:Hrm.
  - destruct (coin =? FIAT cfg)%string eqn:Hf; simpl.
    + unfold bind, lift, evaluate_sell. rewrite Hrm, Hf. reflexivity.
    + destruct (in_tax_year cfg op) eqn:Hy.
      * unfold bind, lift.
        rewrite (evaluate_sell_event cfg price_data coin op false _ _ _ Hf
                   (eq_trans (f_equal (fun b => b || false) Hy) eq_refl) Hrm).
        destruct (long_term_checks cfg op scs); [|reflexivity].
        eexists. simpl. split; [reflexivity|]. split; reflexivity.
      * unfold bind, lift, evaluate_sell. rewrite Hrm, Hf, Hy. reflexivity.
  - unfold bind, lift, evaluate_sell. rewrite Hrm. reflexivity.
Qed.

(** C7. A Deposit of the home fiat is added to the balance queue and a
    Withdrawal of the home fiat removed from it; a Deposit or Withdrawal of
    another coin is logged as unresolved and skipped: the queue is unchanged,
    no event is emitted, nothing is raised, and the remaining operations are
    evaluated from the same queue. *)
Theorem deposit_withdrawal_handling (coin : string) (op : Operation)
  (balance : BalanceQueue.t) (self : Taxman) :
  kind op = Deposit \/ kind op = Withdrawal ->
  let unresolved :=
    match kind op with
    | Deposit => UnresolvedDeposit
    | _ => UnresolvedWithdrawal
    end (change op) coin (platform op) (utc_time op) in
  let logged :=
    mk_Taxman (book self) (tax_events self) (virtual_tax_events self)
              (log self ++ [unresolved]) in
  ((coin =? FIAT cfg)%string = true ->
   process_op cfg price_data coin op balance self
   = (match kind op with
      | Deposit => BalanceQueue.add op balance
      | _ => match BalanceQueue.remove op balance with
             | Ok (_, balance') => Ok balance'
             | Raise e => Raise e
             end
      end, self))
  /\ ((coin =? FIAT cfg)%string = false ->
      process_op cfg price_data coin op balance self = (Ok balance, logged)
      /\ forall rest,
          replay cfg price_data coin (op :: rest) balance self
          = replay cfg price_data coin rest balance logged).
Proof.
  intros Hk unresolved logged. subst unresolved logged.
  unfold process_op. simpl replay. unfold process_op.
  destruct Hk as [Hk|Hk]; rewrite Hk; split; intros Hf; rewrite Hf.
  - reflexivity.
  - split; [reflexivity|]. intros rest. reflexivity.
  - unfold bind, lift.
    destruct (BalanceQueue.remove op balance) as [[scs b1]|e]; reflexivity.
  - split; [reflexivity|]. intros rest. reflexivity.
Qed.

End Operations.

(** ** Computations that only append *)

Lemma with_events_nil (s : Taxman) : with_events s [] [] [] = s.
Proof. destruct s. unfold with_events. simpl. now rewrite !app_nil_r. Qed.

Lemma with_events_twice (s : Taxman) (E V E' V' : list TaxEvent)
  (W W' : list LogRecord) :
  with_events (with_events s E V W) E' V' W'
  = with_events s (E ++ E') (V ++ V') (W ++ W').
Proof. unfold with_events. simpl. now rewrite !app_assoc. Qed.

Section Emits.

Context {A B : Type} (P : TaxEvent -> Prop).

Lemma emits_lift (r : result A) : emits P (lift r).
Proof.
  exists r, [], [], []. repeat split; auto.
  intros s. unfold lift. now rewrite with_events_nil.
Qed.

Lemma emits_ret (a : A) : emits P (ret a).
Proof. apply (emits_lift (Ok a)). Qed.

Lemma emits_raise (e : exn) : emits P (@raise A e).
Proof. apply (emits_lift (Raise e)). Qed.

Lemma emits_bind (m : M A) (f : A -> M B) :
  emits P m -> (forall a, emits P (f a)) -> emits P (bind m f).
Proof.
  intros (r & E & V & W & Hm & HE & HV) Hf.
  destruct r as [a|e].
  - destruct (Hf a) as (r' & E' & V' & W' & Hfa & HE' & HV').
    exists r', (E ++ E'), (V ++ V'), (W ++ W'). repeat split.
    + intros s. unfold bind. now rewrite Hm, Hfa, with_events_twice.
    + apply Forall_app; auto.
    + apply Forall_app; auto.
  - exists (Raise e), E, V, W. repeat split; auto.
    intros s. unfold bind. now rewrite Hm.
Qed.

Lemma emits_weaken (P' : TaxEvent -> Prop) (m : M A) :
  (forall tx, P' tx -> P tx) -> emits P' m -> emits P m.
Proof.
  intros Himp (r & E & V & W & Hm & HE & HV).
  exists r, E, V, W. repeat split; auto.
  - revert HE. apply Forall_impl. exact Himp.
  - revert HV. apply Forall_impl. exact Himp.
Qed.

End Emits.

Lemma emits_append_tax_event (P : TaxEvent -> Prop) (tx : TaxEvent) :
  P tx -> emits P (append_tax_event tx).
Proof.
  intros H. exists (Ok tt), [tx], [], []. repeat split; auto.
  intros s. unfold append_tax_event, with_events. now rewrite !app_nil_r.
Qed.

Lemma emits_append_virtual_tax_event (P : TaxEvent -> Prop) (tx : TaxEvent) :
  P tx -> emits P (append_virtual_tax_event tx).
Proof.
  intros H. exists (Ok tt), [], [tx], []. repeat split; auto.
  intros s. unfold append_virtual_tax_event, with_events.
  now rewrite !app_nil_r.
Qed.

Lemma emits_log_record (P : TaxEvent -> Prop) (r : LogRecord) :
  emits P (log_record r).
Proof.
  exists (Ok tt), [], [], [r]. repeat split; auto.
  intros s. unfold log_record, with_events. now rewrite !app_nil_r.
Qed.

Lemma emits_for_each {A} (P : TaxEvent -> Prop) (f : A -> M unit)
  (l : list A) :
  (forall x, In x l -> emits P (f x)) -> emits P (for_each f l).
Proof.
  induction l as [|x rest IH]; intros H; simpl.
  - apply emits_ret.
  - apply emits_bind.
    + apply H. now left.
    + intros _. apply IH. intros y Hy. apply H. now right.
Qed.

Lemma emits_bind_lift {A B} (P : TaxEvent -> Prop) (r : result A)
  (f : A -> M B) :
  (forall a, r = Ok a -> emits P (f a)) -> emits P (bind (lift r) f).
Proof.
  intros Hf. destruct r as [a|e].
  - destruct (Hf a eq_refl) as (r' & E & V & W & Hfa & HE & HV).
    exists r', E, V, W. repeat split; auto.
  - exists (Raise e), [], [], []. repeat split; auto.
    intros s. unfold bind, lift. now rewrite with_events_nil.
Qed.

Lemma emits_bind_ret {A B} (P : TaxEvent -> Prop) (a : A) (f : A -> M B) :
  emits P (f a) -> emits P (bind (ret a) f).
Proof. intros H. exact H. Qed.

Lemma emits_bind_raise {A B} (P : TaxEvent -> Prop) (e : exn) (f : A -> M B) :
  emits P (bind (raise e) f).
Proof. apply (@emits_raise B P e). Qed.

(** ** Computations that leave the virtual list alone *)

Lemma keeps_virtual_lift {A} (r : result A) : keeps_virtual (lift r).
Proof. intros s. reflexivity. Qed.

Lemma keeps_virtual_ret {A} (a : A) : keeps_virtual (ret a).
Proof. intros s. reflexivity. Qed.

Lemma keeps_virtual_raise {A} (e : exn) : keeps_virtual (@raise A e).
Proof. intros s. reflexivity. Qed.

Lemma keeps_virtual_append_tax_event (tx : TaxEvent) :
  keeps_virtual (append_tax_event tx).
Proof. intros s. reflexivity. Qed.

Lemma keeps_virtual_log_record (r : LogRecord) : keeps_virtual (log_record r).
Proof. intros s. reflexivity. Qed.

Lemma keeps_virtual_bind {A B} (m : M A) (f : A -> M B) :
  keeps_virtual m -> (forall a, keeps_virtual (f a)) ->
  keeps_virtual (bind m f).
Proof.
  intros Hm Hf s. unfold bind. specialize (Hm s).
  destruct (m s) as [[a|e] s1]; simpl in *.
  - now rewrite Hf.
  - exact Hm.
Qed.

Create HintDb keeps.
#[local] Hint Resolve keeps_virtual_lift keeps_virtual_ret keeps_virtual_raise
  keeps_virtual_append_tax_event keeps_virtual_log_record keeps_virtual_bind
  : keeps.

(** ** Values of computations *)


Lemma yields_lift {A} (Q : A -> Prop) (r : result A) :
  (forall a, r = Ok a -> Q a) -> yields Q (lift r).
Proof. intros H s a s' E. injection E as -> _. now apply H. Qed.

Lemma yields_ret {A} (Q : A -> Prop) (a : A) : Q a -> yields Q (ret a).
Proof. intros H s a' s' E. injection E as <- _. exact H. Qed.

Lemma yields_raise {A} (Q : A -> Prop) (e : exn) : yields Q (@raise A e).
Proof. intros s a s' E. discriminate E. Qed.

Lemma yields_bind {A B} (Q' : A -> Prop) (Q : B -> Prop) (m : M A)
  (f : A -> M B) :
  yields Q' m -> (forall a, Q' a -> yields Q (f a)) -> yields Q (bind m f).
Proof.
  intros Hm Hf s b s'. unfold bind.
  destruct (m s) as [[a|e] s1] eqn:E; [|discriminate].
  apply (Hf a (Hm _ _ _ E)).
Qed.

Lemma yields_any {A} (m : M A) : yields (fun _ => True) m.
Proof. intros s a s' _. exact I. Qed.

(** ** Replaying the operations of a group *)

Section Replay.

Variable cfg : Config.
Variable price_data : PriceData.

Lemma evaluate_sell_event_shape (coin : string) (op : Operation)
  (force : bool) (balance balance' : BalanceQueue.t) (tx : TaxEvent) :
  evaluate_sell cfg price_data coin op force balance = Ok (Some tx, balance') ->
  taxation_type tx = "Sonstige Einkünfte" /\ te_op tx = op.
Proof.
  intros H.
  destruct (evaluate_sell_some_event _ _ _ _ _ _ _ _ H)
    as (scs & Hrm & Hf & Hy & ->).
  split; reflexivity.
Qed.

Lemma sell_event_not_capital_income (coin : string)
  (operations : list Operation) (tx : TaxEvent) :
  taxation_type tx = "Sonstige Einkünfte" ->
  capital_income_from_lending price_data coin operations tx.
Proof. intros H Hk. rewrite H in Hk. discriminate Hk. Qed.

Lemma process_op_emits (coin : string) (operations : list Operation)
  (op : Operation) (balance : BalanceQueue.t) :
  In op operations ->
  emits (capital_income_from_lending price_data coin operations)
        (process_op cfg price_data coin op balance).
Proof.
  intros Hin. unfold process_op.
  destruct (kind op) eqn:Hk;
    try apply emits_raise; try apply emits_ret; try apply emits_lift.
  - (* Sell *)
    apply emits_bind_lift. intros [[tx|] b1] Hr.
    + apply emits_bind; [|intros _; apply emits_ret].
      apply emits_append_tax_event.
      apply sell_event_not_capital_income.
      apply (evaluate_sell_event_shape _ _ _ _ _ _ Hr).
    + apply emits_ret.
  - (* CoinLendInterest *)
    apply emits_bind_lift. intros b1 _.
    destruct (in_tax_year cfg op); [|apply emits_ret].
    destruct (is_fiat price_data coin) eqn:Hfiat; apply emits_bind_ret;
      (apply emits_bind; [|intros _; apply emits_ret]);
      apply emits_append_tax_event; intros Hty; simpl in *.
    + rewrite Hk. auto.
    + discriminate Hty.
  - (* StakingInterest *)
    apply emits_bind_lift. intros b1 _.
    destruct (in_tax_year cfg op); [|apply emits_ret].
    destruct (is_fiat price_data coin) eqn:Hfiat.
    + apply emits_bind_raise.
    + apply emits_bind_ret.
      apply emits_bind; [|intros _; apply emits_ret].
      apply emits_append_tax_event. intros Hty. discriminate Hty.
  - (* Commission *)
    apply emits_bind_lift. intros b1 _.
    destruct (in_tax_year cfg op); [|apply emits_ret].
    apply emits_bind; [|intros _; apply emits_ret].
    apply emits_append_tax_event. intros Hty. discriminate Hty.
  - (* Deposit *)
    destruct (coin =? FIAT cfg)%string; [apply emits_lift|].
    apply emits_bind; [apply emits_log_record|intros _; apply emits_ret].
  - (* Withdrawal *)
    destruct (coin =? FIAT cfg)%string.
    + apply emits_bind_lift. intros r _. apply emits_ret.
    + apply emits_bind; [apply emits_log_record|intros _; apply emits_ret].
Qed.

Lemma replay_emits (coin : string) (operations : list Operation) :
  forall todo balance,
    incl todo operations ->
    emits (capital_income_from_lending price_data coin operations)
          (replay cfg price_data coin todo balance).
Proof.
  induction todo as [|op rest IH]; intros balance Hincl; simpl.
  - apply emits_ret.
  - apply emits_bind.
    + apply process_op_emits. apply Hincl. now left.
    + intros b1. apply IH. intros x Hx. apply Hincl. now right.
Qed.

Lemma unrealized_gains_emits (coin : string) (operations : list Operation)
  (balance : BalanceQueue.t) :
  emits (capital_income_from_lending price_data coin operations)
        (unrealized_gains cfg price_data coin operations balance).
Proof.
  unfold unrealized_gains.
  apply emits_bind; [apply emits_lift|]. intros _.
  destruct (CALCULATE_UNREALIZED_GAINS cfg && nonzero _); [|apply emits_ret].
  destruct (py_last operations) as [op|]; [|apply emits_raise].
  apply emits_bind_lift. intros [[tx|] b1] Hr; [|apply emits_ret].
  apply emits_append_virtual_tax_event.
  apply sell_event_not_capital_income.
  apply (evaluate_sell_event_shape _ _ _ _ _ _ Hr).
Qed.

Lemma evaluate_taxation_GERMANY_emits (coin : string)
  (operations : list Operation) :
  emits (capital_income_from_lending price_data coin operations)
        (_evaluate_taxation_GERMANY cfg price_data coin operations).
Proof.
  unfold _evaluate_taxation_GERMANY.
  apply emits_bind.
  - apply replay_emits. apply incl_refl.
  - intros b. apply unrealized_gains_emits.
Qed.

(** Replaying a sequence is replaying its front and then, if that did not
    raise, its back from the balance and the instance reached. *)
Lemma replay_app (coin : string) (front back : list Operation) :
  forall balance self,
    replay cfg price_data coin (front ++ back) balance self
    = match replay cfg price_data coin front balance self with
      | (Ok balance', self') => replay cfg price_data coin back balance' self'
      | (Raise e, self') => (Raise e, self')
      end.
Proof.
  induction front as [|op rest IH]; intros balance self; simpl.
  - reflexivity.
  - unfold bind.
    destruct (process_op cfg price_data coin op balance self) as [[b1|e] s1].
    + apply IH.
    + reflexivity.
Qed.

(** The replay raises at the first operation whose turn raises whatever the
    balance and the instance, and stops there. *)
Lemma replay_raises_at (coin : string) (front back : list Operation)
  (op : Operation) (e : exn) :
  (forall balance self,
      process_op cfg price_data coin op balance self = (Raise e, self)) ->
  forall self,
    _evaluate_taxation_GERMANY cfg price_data coin (front ++ op :: back) self
    = match replay cfg price_data coin front (BalanceType cfg) self with
      | (Ok _, self') => (Raise e, self')
      | (Raise e', self') => (Raise e', self')
      end.
Proof.
  intros Hop self. unfold _evaluate_taxation_GERMANY, bind at 1.
  rewrite replay_app.
  destruct (replay cfg price_data coin front (BalanceType cfg) self)
    as [[b1|e1] s1]; [|reflexivity].
  simpl. unfold bind at 1. now rewrite Hop.
Qed.

(** The replay of a group leaves the virtual list alone. *)
Lemma process_op_keeps_virtual (coin : string) (op : Operation)
  (balance : BalanceQueue.t) :
  keeps_virtual (process_op cfg price_data coin op balance).
Proof.
  unfold process_op.
  destruct (kind op); auto with keeps.
  - apply keeps_virtual_bind; auto with keeps.
    intros [[tx|] b1]; auto with keeps.
  - apply keeps_virtual_bind; auto with keeps. intros b1.
    destruct (in_tax_year cfg op); auto with keeps.
    destruct (is_fiat price_data coin); auto 6 with keeps.
  - apply keeps_virtual_bind; auto with keeps. intros b1.
    destruct (in_tax_year cfg op); auto with keeps.
    destruct (is_fiat price_data coin); auto 6 with keeps.
  - apply keeps_virtual_bind; auto with keeps. intros b1.
    destruct (in_tax_year cfg op); auto 6 with keeps.
  - destruct (coin =? FIAT cfg)%string; auto 6 with keeps.
  - destruct (coin =? FIAT cfg)%string; auto 6 with keeps.
Qed.

Lemma replay_virtual_tax_events (coin : string) (operations : list Operation) :
  forall balance, keeps_virtual (replay cfg price_data coin operations balance).
Proof.
  induction operations as [|op rest IH]; intros balance; simpl.
  - auto with keeps.
  - apply keeps_virtual_bind; [apply process_op_keeps_virtual|exact IH].
Qed.

(** C6. The evaluation of a group whose operations contain a standalone Fee
    or an operation of unrecognized kind raises: when the operations before
    it replay without error, the error is the RuntimeError of the Fee or the
    NotImplementedError of the unrecognized kind, raised from the instance
    those operations left; otherwise it is the earlier error. Nothing of
    what follows is evaluated, neither the later operations nor the virtual
    sell, so no further Tax Event is produced and the virtual list is
    untouched. *)
Theorem fee_or_unrecognized_kind_aborts (coin : string)
  (front back : list Operation) (op : Operation) (self : Taxman) :
  kind op = Fee \/ (exists name, kind op = OtherKind name) ->
  let error :=
    match kind op with
    | Fee => RuntimeError "single fee operations shouldn't exist"
    | _ => NotImplementedError
    end in
  let outcome :=
    _evaluate_taxation_GERMANY cfg price_data coin (front ++ op :: back) self in
  outcome
  = match replay cfg price_data coin front (BalanceType cfg) self with
    | (Ok _, self') => (Raise error, self')
    | (Raise e, self') => (Raise e, self')
    end
  /\ (exists e, fst outcome = Raise e)
  /\ virtual_tax_events (snd outcome) = virtual_tax_events self.
Proof.
  intros Hk error outcome.
  assert (Hop : forall balance s,
             process_op cfg price_data coin op balance s = (Raise error, s)).
  { intros balance s. subst error. unfold process_op.
    destruct Hk as [Hk|[name Hk]]; rewrite Hk; reflexivity. }
  assert (Heq := replay_raises_at coin front back op error Hop self).
  fold outcome in Heq. split; [exact Heq|].
  pose proof (replay_virtual_tax_events coin front (BalanceType cfg) self) as Hv.
  unfold keeps_virtual in Hv.
  rewrite Heq.
  destruct (replay cfg price_data coin front (BalanceType cfg) self)
    as [[b1|e1] s1]; simpl in *; split; eauto.
Qed.

(** C10. In a group whose coin is a fiat currency, a StakingInterest
    operation of the tax year aborts the evaluation: once the operations
    before it have replayed, its turn fails the assertion that fiat
    currencies can not be staked (an operation whose change is not positive
    is refused by the balance queue just before). And every event of the
    category of capital income that the evaluation of a group emits, in
    either list, was triggered by a CoinLendInterest operation of the group,
    the coin of the group being a fiat currency. *)
Theorem capital_income_only_from_lending_on_fiat (coin : string)
  (operations : list Operation) :
  (forall front op back self,
      operations = front ++ op :: back ->
      kind op = StakingInterest ->
      is_fiat price_data coin = true ->
      in_tax_year cfg op = true ->
      let outcome :=
        _evaluate_taxation_GERMANY cfg price_data coin operations self in
      (exists e, fst outcome = Raise e)
      /\ (0 < change op ->
          outcome
          = match replay cfg price_data coin front (BalanceType cfg) self with
            | (Ok _, self') =>
                (Raise (AssertionError "You can not stake fiat currencies."),
                 self')
            | (Raise e, self') => (Raise e, self')
            end))
  /\ emits (capital_income_from_lending price_data coin operations)
           (_evaluate_taxation_GERMANY cfg price_data coin operations).
Proof.
  split; [|apply evaluate_taxation_GERMANY_emits].
  intros front op back self -> Hk Hfiat Hyear outcome.
  set (error := if Qle_bool (change op) 0 then NonPositiveChange
                else AssertionError "You can not stake fiat currencies.").
  assert (Hop : forall balance s,
             process_op cfg price_data coin op balance s = (Raise error, s)).
  { intros balance s. subst error. unfold process_op. rewrite Hk.
    unfold bind, lift, BalanceQueue.add.
    destruct (Qle_bool (change op) 0); [reflexivity|].
    rewrite Hyear, Hfiat. reflexivity. }
  assert (Heq := replay_raises_at coin front back op error Hop self).
  fold outcome in Heq. split.
  - rewrite Heq.
    destruct (replay cfg price_data coin front (BalanceType cfg) self)
      as [[b1|e1] s1]; simpl; eauto.
  - intros Hpos. rewrite Heq. subst error.
    destruct (Qle_bool (change op) 0) eqn:Hle; [|reflexivity].
    apply Qle_bool_iff in Hle. lra.
Qed.

(** The turn of an operation and the replay keep the open lots positive. *)
Lemma process_op_positive (coin : string) (op : Operation)
  (balance : BalanceQueue.t) :
  lots_positive balance ->
  yields lots_positive (process_op cfg price_data coin op balance).
Proof.
  intros Hpos.
  assert (Hadd : yields lots_positive (lift (BalanceQueue.add op balance))).
  { apply yields_lift. intros b1. apply add_positive. exact Hpos. }
  assert (Hunit : forall (m : M unit) b1,
             lots_positive b1 -> yields lots_positive (m ;;; ret b1)).
  { intros m b1 H1. apply (yields_bind (fun _ => True)).
    - apply yields_any.
    - intros _ _. now apply yields_ret. }
  unfold process_op.
  destruct (kind op); try apply yields_raise; try (now apply yields_ret);
    try exact Hadd.
  - (* Sell *)
    apply (yields_bind (fun r => lots_positive (snd r))).
    + apply yields_lift. intros [tx b1] Hr. simpl.
      unfold evaluate_sell in Hr.
      destruct (BalanceQueue.remove op balance) as [[scs b2]|e] eqn:Hrm;
        [|discriminate].
      assert (lots_positive b2) by (eapply remove_positive; eassumption).
      destruct (coin =? FIAT cfg)%string; [now injection Hr as _ <-|].
      destruct (negb (in_tax_year cfg op) && negb false);
        [now injection Hr as _ <-|].
      destruct (gains_loop _ _ _ _ _ _ _) as [[t r]|e]; [|discriminate].
      now injection Hr as _ <-.
    + intros [[tx|] b1] H1; simpl in H1.
      * now apply Hunit.
      * now apply yields_ret.
  - (* CoinLendInterest *)
    apply (yields_bind lots_positive); [exact Hadd|]. intros b1 H1.
    destruct (in_tax_year cfg op); [|now apply yields_ret].
    apply (yields_bind (fun _ => True)); [apply yields_any|].
    intros ty _. now apply Hunit.
  - (* StakingInterest *)
    apply (yields_bind lots_positive); [exact Hadd|]. intros b1 H1.
    destruct (in_tax_year cfg op); [|now apply yields_ret].
    apply (yields_bind (fun _ => True)); [apply yields_any|].
    intros ty _. now apply Hunit.
  - (* Commission *)
    apply (yields_bind lots_positive); [exact Hadd|]. intros b1 H1.
    destruct (in_tax_year cfg op); [|now apply yields_ret].
    now apply Hunit.
  - (* Deposit *)
    destruct (coin =? FIAT cfg)%string; [exact Hadd|now apply Hunit].
  - (* Withdrawal *)
    destruct (coin =? FIAT cfg)%string; [|now apply Hunit].
    apply (yields_bind (fun r => lots_positive (snd r))).
    + apply yields_lift. intros [scs b1] Hr. simpl.
      eapply remove_positive; eassumption.
    + intros r Hr. now apply yields_ret.
Qed.

Lemma replay_positive (coin : string) (operations : list Operation) :
  forall balance,
    lots_positive balance ->
    yields lots_positive (replay cfg price_data coin operations balance).
Proof.
  induction operations as [|op rest IH]; intros balance Hpos; simpl.
  - now apply yields_ret.
  - apply (yields_bind lots_positive).
    + now apply process_op_positive.
    + intros b1 H1. now apply IH.
Qed.




End Replay.

(** ** The entry point *)

Section EntryPoint.

Variable cfg : Config.
Variable price_data : PriceData.

Lemma year_bound_ok_false (ops : list Operation) :
  year_bound_ok cfg ops = false
  <-> exists op, In op ops /\ (TAX_YEAR cfg < year (utc_time op))%Z.
Proof.
  unfold year_bound_ok. induction ops as [|x rest IH]; simpl.
  - split; [discriminate|]. intros (op & [] & _).
  - rewrite andb_false_iff, IH, Z.leb_gt. split.
    + intros [H|(op & Hin & Hlt)].
      * exists x. auto.
      * exists op. auto.
    + intros (op & [<-|Hin] & Hlt); [now left|].
      right. exists op. auto.
Qed.

Lemma year_bound_ok_true (ops : list Operation) :
  year_bound_ok cfg ops = true
  <-> forall op, In op ops -> (year (utc_time op) <= TAX_YEAR cfg)%Z.
Proof.
  unfold year_bound_ok. rewrite forallb_forall.
  split; intros H op Hin; apply Z.leb_le; now apply H.
Qed.

(** C8. [evaluate_taxation] requires every operation of the book to lie in
    a year not after the tax year: when some operation has a later timestamp
    it fails its assertion before any group is evaluated, both event lists
    being left as they were; and when it does not fail, every operation of
    the book satisfies the bound. *)
Theorem evaluate_taxation_checks_year_bound (self : Taxman) :
  ((exists op, In op (book self) /\ (TAX_YEAR cfg < year (utc_time op))%Z) ->
   evaluate_taxation cfg price_data self
   = (Raise (AssertionError
        "For tax evaluation, no operation should happen after the tax year."),
      mk_Taxman (book self) (tax_events self) (virtual_tax_events self)
                (log self ++ [LogDebug "Starting evaluation..."])))
  /\ (fst (evaluate_taxation cfg price_data self) = Ok tt ->
      forall op, In op (book self) ->
                 (year (utc_time op) <= TAX_YEAR cfg)%Z).
Proof.
  split.
  - intros H. apply year_bound_ok_false in H.
    unfold evaluate_taxation, bind, log_record. simpl. now rewrite H.
  - intros Hok. apply year_bound_ok_true.
    destruct (year_bound_ok cfg (book self)) eqn:Hb; [reflexivity|].
    unfold evaluate_taxation, bind, log_record in Hok. simpl in Hok.
    rewrite Hb in Hok. discriminate Hok.
Qed.

Lemma per_coin_emits (operations : list Operation) :
  emits (fun _ => True)
        (_evaluate_taxation_per_coin cfg price_data operations).
Proof.
  unfold _evaluate_taxation_per_coin.
  apply emits_for_each. intros [coin coin_operations] _.
  eapply emits_weaken; [|apply evaluate_taxation_GERMANY_emits].
  intros tx _. exact I.
Qed.

(** Whatever the event lists of the instance, an evaluation of a given book
    has the same outcome and appends the same events and log records. *)
Lemma evaluate_taxation_appends (bk : list Operation) :
  exists r E V W,
    forall self, book self = bk ->
      evaluate_taxation cfg price_data self = (r, with_events self E V W).
Proof.
  assert (Hbody : emits (fun _ => True)
            (if MULTI_DEPOT cfg then
               for_each (fun g => _evaluate_taxation_per_coin cfg price_data
                                    (snd g))
                        (group_by platform bk)
             else _evaluate_taxation_per_coin cfg price_data bk)).
  { destruct (MULTI_DEPOT cfg).
    - apply emits_for_each. intros g _. apply per_coin_emits.
    - apply per_coin_emits. }
  destruct Hbody as (r & E & V & W & Hm & _).
  destruct (year_bound_ok cfg bk) eqn:Hb.
  - exists r, E, V, (LogDebug "Starting evaluation..." :: W).
    intros self <-. unfold evaluate_taxation, bind, log_record. simpl.
    rewrite Hb, Hm. unfold with_events. simpl.
    now rewrite <- app_assoc.
  - exists (Raise (AssertionError
        "For tax evaluation, no operation should happen after the tax year.")),
      [], [], [LogDebug "Starting evaluation..."].
    intros self <-. unfold evaluate_taxation, bind, log_record. simpl.
    rewrite Hb. unfold raise, with_events. simpl. now rewrite !app_nil_r.
Qed.

(** C4, as the code has it. The evaluation is deterministic, and it appends:
    [__init__] creates the two event lists and [evaluate_taxation] never
    resets them. For a given book and configuration there are an outcome and
    lists of realized and virtual events such that a fresh instance ends
    with exactly these lists, any instance ends with these events appended
    to the lists it held, and a second run on the same instance therefore
    ends with each list holding the events twice. *)
Theorem evaluate_taxation_deterministic_and_appending (self : Taxman) :
  exists r E V W,
    (forall new, Taxman_init cfg (book self) = Ok new ->
                 evaluate_taxation cfg price_data new
                 = (r, mk_Taxman (book self) E V W))
    /\ evaluate_taxation cfg price_data self = (r, with_events self E V W)
    /\ evaluate_taxation cfg price_data
         (snd (evaluate_taxation cfg price_data self))
       = (r, with_events self (E ++ E) (V ++ V) (W ++ W)).
Proof.
  destruct (evaluate_taxation_appends (book self)) as (r & E & V & W & H).
  exists r, E, V, W. split; [|split].
  - intros new Hinit. unfold Taxman_init in Hinit.
    destruct (COUNTRY cfg); [|discriminate].
    assert (new = mk_Taxman (book self) [] [] []) as ->.
    { destruct (PRINCIPLE cfg); congruence. }
    rewrite (H (mk_Taxman (book self) [] [] []) eq_refl). reflexivity.
  - apply H. reflexivity.
  - rewrite (H self eq_refl). simpl.
    rewrite (H (with_events self E V W) eq_refl).
    now rewrite with_events_twice.
Qed.

End EntryPoint.

(** ** The sample ledger, evaluated *)

Import Sample.


(** A Sell of 2021 against a lot held since 2019, unrealized gains not
    tracked: no lot is taxable, and an event with a taxed gain of zero is
    emitted all the same. *)
Lemma sell_event_without_taxable_lot :
  BalanceQueue.remove sell21 (holding [buy19]) = Ok (sold_old, holding [])
  /\ process_op (config false) prices "BTC" sell21 (holding [buy19]) (fresh [])
     = (Ok (holding []), mk_Taxman [] [event_old] [] [])
  /\ disposal_taxable (config false) sell21 sold_old = false
  /\ CALCULATE_UNREALIZED_GAINS (config false) = false
  /\ sell_emits_spec (config false) "BTC" sell21 sold_old = false.
Proof. repeat split; vm_compute; reflexivity. Qed.

Lemma sell_emits_realized_event_sample :
  kind sell21 = Sell
  /\ exists tx,
      process_op (config false) prices "BTC" sell21 (holding [buy19]) (fresh [])
      = (Ok (holding []), mk_Taxman [] [tx] [] [])
      /\ te_op tx = sell21
      /\ taxation_type tx = "Sonstige Einkünfte".
Proof.
  split; [reflexivity|].
  exact (sell_emits_realized_event (config false) prices "BTC" sell21
           (holding [buy19]) (fresh []) eq_refl).
Defined.

(** The spec scenario "Buy 1.0 at 100, Sell 1.0 at 150", unrealized gains
    not tracked: taxed gain 50 against a real gain of 0. And with unrealized
    gains tracked, a taxable lot with a gain of 50 sold together with an
    exempt lot with a loss of 50: taxed gain 50 against a real gain of 0. *)
Lemma taxed_gain_exceeds_real_gain :
  (evaluate_sell (config false) prices "BTC" sell21 false (holding [buy21])
   = Ok (Some event_new, holding [])
   /\ ~ taxed_gain event_new <= real_gain event_new
   /\ ~ taxed_within_real event_new)
  /\ (evaluate_sell (config true) prices "BTC" sell21_2 false
                    (holding [buy19; buy21])
      = Ok (Some event_old_and_new, holding [])
      /\ ~ taxed_gain event_old_and_new <= real_gain event_old_and_new
      /\ ~ taxed_within_real event_old_and_new).
Proof.
  split; (split; [vm_compute; reflexivity|split]).
  - intros H. vm_compute in H. apply H. reflexivity.
  - intros [H _]. assert (Hr : 0 <= real_gain event_new) by (vm_compute; discriminate).
    destruct (H Hr) as [_ H2]. vm_compute in H2. apply H2. reflexivity.
  - intros H. vm_compute in H. apply H. reflexivity.
  - intros [H _].
    assert (Hr : 0 <= real_gain event_old_and_new) by (vm_compute; discriminate).
    destruct (H Hr) as [_ H2]. vm_compute in H2. apply H2. reflexivity.
Qed.

(** With unrealized gains tracked, an airdropped lot and a lot bought in
    February 2021 sold together, each at a gain of 50: the exempt lot made
    no loss, and the taxed gain of 50 is within the real gain of 100. *)
Lemma sell_event_real_and_taxed_gain_sample :
  evaluate_sell (config true) prices "BTC" sell21_2 false
                (holding [airdrop21; buy21])
  = Ok (Some event_airdrop_and_new, holding [])
  /\ CALCULATE_UNREALIZED_GAINS (config true) = true
  /\ Forall (fun sc =>
               lot_exempt (config true) sc sell21_2 ->
               0 <= lot_gain prices sell21_2
                             (sell_value event_airdrop_and_new) sc)
            sold_airdrop_and_new
  /\ taxed_gain event_airdrop_and_new <= real_gain event_airdrop_and_new
  /\ taxed_gain event_airdrop_and_new == 50
  /\ real_gain event_airdrop_and_new == 100.
Proof.
  assert (Hlots : Forall (fun sc =>
               lot_exempt (config true) sc sell21_2 ->
               0 <= lot_gain prices sell21_2
                             (sell_value event_airdrop_and_new) sc)
            sold_airdrop_and_new).
  { repeat constructor; intros _; vm_compute; discriminate. }
  split; [vm_compute; reflexivity|]. split; [reflexivity|].
  split; [exact Hlots|]. split; [|split; vm_compute; reflexivity].
  destruct (sell_event_real_and_taxed_gain (config true) prices "BTC"
              sell21_2 false (holding [airdrop21; buy21]) (holding [])
              event_airdrop_and_new eq_refl)
    as (scs & Hrm & _ & _ & Htracked).
  injection Hrm as <-.
  exact (proj1 (proj2 (proj2 (Htracked eq_refl))) Hlots).
Defined.

(** A second run on the same instance: the realized list of the first run,
    one event, becomes a list of two. *)
Lemma second_run_repeats_events :
  let first := snd (evaluate_taxation (config false) prices
                      (fresh [buy21; sell21])) in
  let second := snd (evaluate_taxation (config false) prices first) in
  fst (evaluate_taxation (config false) prices (fresh [buy21; sell21])) = Ok tt
  /\ tax_events first = [event_new]
  /\ tax_events second = [event_new; event_new]
  /\ tax_events second <> tax_events first.
Proof.
  repeat split; try (vm_compute; reflexivity).
  intros H. apply (f_equal (@List.length _)) in H. vm_compute in H.
  discriminate H.
Qed.



Lemma fee_or_unrecognized_kind_aborts_sample :
  (kind fee21 = Fee \/ exists name, kind fee21 = OtherKind name)
  /\ _evaluate_taxation_GERMANY (config true) prices "BTC"
       ([buy21] ++ fee21 :: [sell21]) (fresh [])
     = (Raise (RuntimeError "single fee operations shouldn't exist"),
        fresh [])
  /\ _evaluate_taxation_GERMANY (config true) prices "BTC"
       ([buy21] ++ odd21 :: [sell21]) (fresh [])
     = (Raise NotImplementedError, fresh []).
Proof.
  split; [left; reflexivity|]. split.
  - exact (proj1 (fee_or_unrecognized_kind_aborts (config true) prices "BTC"
                    [buy21] [sell21] fee21 (fresh [])
                    (or_introl eq_refl))).
  - exact (proj1 (fee_or_unrecognized_kind_aborts (config true) prices "BTC"
                    [buy21] [sell21] odd21 (fresh [])
                    (or_intror (ex_intro _ "Transfer" eq_refl)))).
Defined.

Lemma deposit_withdrawal_handling_sample :
  (kind deposit_btc = Deposit \/ kind deposit_btc = Withdrawal)
  /\ ("BTC" =? FIAT (config false))%string = false
  /\ process_op (config false) prices "BTC" deposit_btc (holding [buy21])
                (fresh [])
     = (Ok (holding [buy21]),
        mk_Taxman [] [] []
          [UnresolvedDeposit 1 "BTC" "kraken" (date 2021 1 5)])
  /\ ("EUR" =? FIAT (config false))%string = true
  /\ process_op (config false) prices "EUR" withdraw_eur
                (holding [deposit_eur]) (fresh [])
     = (Ok (BalanceQueue.mk FIFO [mk_bop deposit_eur (100 + - Qmin 100 40)]),
        fresh []).
Proof.
  split; [left; reflexivity|]. split; [reflexivity|]. split.
  - exact (proj1 (proj2 (deposit_withdrawal_handling (config false) prices
                           "BTC" deposit_btc (holding [buy21]) (fresh [])
                           (or_introl eq_refl)) eq_refl)).
  - split; [reflexivity|].
    exact (proj1 (deposit_withdrawal_handling (config false) prices
                    "EUR" withdraw_eur (holding [deposit_eur]) (fresh [])
                    (or_intror eq_refl)) eq_refl).
Defined.

Lemma evaluate_taxation_checks_year_bound_sample :
  (exists op, In op [buy21; late22]
              /\ (TAX_YEAR (config false) < year (utc_time op))%Z)
  /\ evaluate_taxation (config false) prices (fresh [buy21; late22])
     = (Raise (AssertionError
          "For tax evaluation, no operation should happen after the tax year."),
        mk_Taxman [buy21; late22] [] []
                  [LogDebug "Starting evaluation..."]).
Proof.
  assert (H : exists op, In op [buy21; late22]
                         /\ (TAX_YEAR (config false) < year (utc_time op))%Z).
  { exists late22. split; [right; left; reflexivity|reflexivity]. }
  split; [exact H|].
  exact (proj1 (evaluate_taxation_checks_year_bound (config false) prices
                  (fresh [buy21; late22])) H).
Defined.

Lemma evaluate_sell_fiat_removes_first_sample :
  ("EUR" =? FIAT (config false))%string = true
  /\ evaluate_sell (config false) prices "EUR" sell_eur false (holding [])
     = Raise InsufficientBalance
  /\ exists balance',
      evaluate_sell (config false) prices "EUR" sell_eur false
                    (holding [deposit_eur])
      = Ok (None, balance')
      /\ not_sold_total (BalanceQueue.queue balance') == 70.
Proof.
  split; [reflexivity|]. split.
  - apply (evaluate_sell_fiat_removes_first (config false) prices "EUR"
             sell_eur false (holding []) eq_refl).
    reflexivity.
  - destruct (evaluate_sell_fiat_removes_first (config false) prices "EUR"
                sell_eur false (holding [deposit_eur]) eq_refl)
      as (_ & _ & H).
    destruct H as (b' & Hev & Htotal); [vm_compute; discriminate|].
    exists b'. split; [exact Hev|].
    rewrite Htotal. vm_compute. reflexivity.
Defined.

Lemma capital_income_only_from_lending_on_fiat_sample :
  kind stake_eur = StakingInterest
  /\ is_fiat prices "EUR" = true
  /\ in_tax_year (config false) stake_eur = true
  /\ 0 < change stake_eur
  /\ _evaluate_taxation_GERMANY (config false) prices "EUR"
       [lend_eur; stake_eur; deposit_eur] (fresh [])
     = (Raise (AssertionError "You can not stake fiat currencies."),
        mk_Taxman [] [TaxEvent3 "Einkünfte aus Kapitalvermögen" 300 lend_eur]
                  [] []).
Proof.
  repeat (split; [reflexivity|]).
  exact (proj2 (proj1 (capital_income_only_from_lending_on_fiat
                         (config false) prices "EUR"
                         [lend_eur; stake_eur; deposit_eur])
                  [lend_eur] stake_eur [deposit_eur] (fresh [])
                  eq_refl eq_refl eq_refl eq_refl) eq_refl).
Defined.

Lemma evaluate_taxation_deterministic_and_appending_sample :
  Taxman_init (config false) [buy21; sell21] = Ok (fresh [buy21; sell21])
  /\ exists r E V W,
      evaluate_taxation (config false) prices (fresh [buy21; sell21])
      = (r, mk_Taxman [buy21; sell21] E V W)
      /\ evaluate_taxation (config false) prices
           (mk_Taxman [buy21; sell21] E V W)
         = (r, mk_Taxman [buy21; sell21] (E ++ E) (V ++ V) (W ++ W)).
Proof.
  split; [reflexivity|].
  destruct (evaluate_taxation_deterministic_and_appending (config false)
              prices (fresh [buy21; sell21]))
    as (r & E & V & W & Hnew & Hself & Htwice).
  exists r, E, V, W. split.
  - apply Hnew. reflexivity.
  - rewrite Hself in Htwice. exact Htwice.
Defined.

(** * Further properties of the evaluator *)

(** ** Appending realized and virtual events *)

Section Appends.

Context {A B : Type} (PE PV : TaxEvent -> Prop).

Lemma appends_lift (r : result A) : appends PE PV (lift r).
Proof.
  exists r, [], [], []. repeat split; auto.
  intros s. unfold lift. now rewrite with_events_nil.
Qed.

Lemma appends_ret (a : A) : appends PE PV (ret a).
Proof. apply (appends_lift (Ok a)). Qed.

Lemma appends_raise (e : exn) : appends PE PV (@raise A e).
Proof. apply (appends_lift (Raise e)). Qed.

Lemma appends_bind (m : M A) (f : A -> M B) :
  appends PE PV m -> (forall a, appends PE PV (f a)) ->
  appends PE PV (bind m f).
Proof.
  intros (r & E & V & W & Hm & HE & HV) Hf.
  destruct r as [a|e].
  - destruct (Hf a) as (r' & E' & V' & W' & Hfa & HE' & HV').
    exists r', (E ++ E'), (V ++ V'), (W ++ W'). repeat split.
    + intros s. unfold bind. now rewrite Hm, Hfa, with_events_twice.
    + apply Forall_app; auto.
    + apply Forall_app; auto.
  - exists (Raise e), E, V, W. repeat split; auto.
    intros s. unfold bind. now rewrite Hm.
Qed.

Lemma appends_bind_lift (r : result A) (f : A -> M B) :
  (forall a, r = Ok a -> appends PE PV (f a)) ->
  appends PE PV (bind (lift r) f).
Proof.
  intros Hf. destruct r as [a|e].
  - exact (Hf a eq_refl).
  - exists (Raise e), [], [], []. repeat split; auto.
    intros s. unfold bind, lift. now rewrite with_events_nil.
Qed.

Lemma appends_weaken (PE' PV' : TaxEvent -> Prop) (m : M A) :
  (forall tx, PE' tx -> PE tx) -> (forall tx, PV' tx -> PV tx) ->
  appends PE' PV' m -> appends PE PV m.
Proof.
  intros HimpE HimpV (r & E & V & W & Hm & HE & HV).
  exists r, E, V, W. repeat split; auto.
  - revert HE. apply Forall_impl. exact HimpE.
  - revert HV. apply Forall_impl. exact HimpV.
Qed.

End Appends.

Lemma appends_tax_event (PE PV : TaxEvent -> Prop) (tx : TaxEvent) :
  PE tx -> appends PE PV (append_tax_event tx).
Proof.
  intros H. exists (Ok tt), [tx], [], []. repeat split; auto.
  intros s. unfold append_tax_event, with_events. now rewrite !app_nil_r.
Qed.

Lemma appends_virtual_tax_event (PE PV : TaxEvent -> Prop) (tx : TaxEvent) :
  PV tx -> appends PE PV (append_virtual_tax_event tx).
Proof.
  intros H. exists (Ok tt), [], [tx], []. repeat split; auto.
  intros s. unfold append_virtual_tax_event, with_events.
  now rewrite !app_nil_r.
Qed.

Lemma appends_log_record (PE PV : TaxEvent -> Prop) (r : LogRecord) :
  appends PE PV (log_record r).
Proof.
  exists (Ok tt), [], [], [r]. repeat split; auto.
  intros s. unfold log_record, with_events. now rewrite !app_nil_r.
Qed.

Lemma appends_then_ret {A} (PE PV : TaxEvent -> Prop) (m : M unit) (a : A) :
  appends PE PV m -> appends PE PV (m ;;; ret a).
Proof. intros H. apply appends_bind; [exact H|]. intros _. apply appends_ret. Qed.

Lemma appends_for_each {A} (PE PV : TaxEvent -> Prop) (f : A -> M unit)
  (l : list A) :
  (forall x, In x l -> appends PE PV (f x)) -> appends PE PV (for_each f l).
Proof.
  induction l as [|x rest IH]; intros H; simpl.
  - apply appends_ret.
  - apply appends_bind.
    + apply H. now left.
    + intros _. apply IH. intros y Hy. apply H. now right.
Qed.

(** ** The events of a group *)

Section GroupEvents.

Variable cfg : Config.
Variable price_data : PriceData.

Lemma evaluate_sell_event_facts (coin : string) (op : Operation)
  (force : bool) (balance balance' : BalanceQueue.t) (tx : TaxEvent) :
  evaluate_sell cfg price_data coin op force balance = Ok (Some tx, balance') ->
  te_op tx = op
  /\ taxation_type tx = "Sonstige Einkünfte"
  /\ sell_value tx = get_cost price_data (inl op)
  /\ (coin =? FIAT cfg)%string = false
  /\ in_tax_year cfg op || force = true.
Proof.
  intros H.
  destruct (evaluate_sell_some_event _ _ _ _ _ _ _ _ H)
    as (scs & Hrm & Hf & Hy & ->).
  repeat split; assumption.
Qed.

Lemma evaluate_sell_none_inv (coin : string) (op : Operation)
  (force : bool) (balance balance' : BalanceQueue.t) :
  evaluate_sell cfg price_data coin op force balance = Ok (None, balance') ->
  (coin =? FIAT cfg)%string = true
  \/ (in_tax_year cfg op = false /\ force = false).
Proof.
  unfold evaluate_sell.
  destruct (BalanceQueue.remove op balance) as [[scs b1]|e]; [|discriminate].
  destruct (coin =? FIAT cfg)%string; [now left|].
  destruct (in_tax_year cfg op), force; simpl;
    try (intros _; right; split; reflexivity);
    destruct (gains_loop _ _ _ _ _ _ _) as [[t r]|e]; discriminate.
Qed.

Lemma income_event_TaxEvent3 (ty : string) (op : Operation) :
  income_event price_data ty
    (TaxEvent3 ty (get_cost price_data (inl op)) op).
Proof. repeat split. Qed.

(** The turn of an operation appends no virtual event, and realized events
    only of the expected shape. *)
Lemma process_op_appends (coin : string) (operations : list Operation)
  (op : Operation) (balance : BalanceQueue.t) :
  In op operations ->
  appends (realized_event_ok cfg price_data coin operations) (fun _ => False)
          (process_op cfg price_data coin op balance).
Proof.
  intros Hin. unfold process_op.
  destruct (kind op) eqn:Hk;
    try apply appends_raise; try apply appends_ret; try apply appends_lift.
  - (* Sell *)
    apply appends_bind_lift. intros [[tx|] b1] Hr; [|apply appends_ret].
    apply appends_then_ret. apply appends_tax_event.
    destruct (evaluate_sell_event_facts _ _ _ _ _ _ Hr)
      as (Hop & Hty & Hsv & Hf & Hy).
    rewrite orb_false_r in Hy.
    unfold realized_event_ok. rewrite Hop, Hk. repeat split; assumption.
  - (* CoinLendInterest *)
    apply appends_bind_lift. intros b1 _.
    destruct (in_tax_year cfg op) eqn:Hy; [|apply appends_ret].
    destruct (is_fiat price_data coin) eqn:Hfiat;
      apply appends_then_ret; apply appends_tax_event;
      unfold realized_event_ok; simpl; rewrite Hk, Hfiat;
      (split; [exact Hin|split; [exact Hy|apply income_event_TaxEvent3]]).
  - (* StakingInterest *)
    apply appends_bind_lift. intros b1 _.
    destruct (in_tax_year cfg op) eqn:Hy; [|apply appends_ret].
    destruct (is_fiat price_data coin) eqn:Hfiat.
    + apply (@appends_raise BalanceQueue.t).
    + apply appends_then_ret. apply appends_tax_event.
      unfold realized_event_ok. simpl. rewrite Hk.
      split; [exact Hin|]. split; [exact Hy|]. split; [exact Hfiat|].
      apply income_event_TaxEvent3.
  - (* Commission *)
    apply appends_bind_lift. intros b1 _.
    destruct (in_tax_year cfg op) eqn:Hy; [|apply appends_ret].
    apply appends_then_ret. apply appends_tax_event.
    unfold realized_event_ok. simpl. rewrite Hk.
    split; [exact Hin|]. split; [exact Hy|]. apply income_event_TaxEvent3.
  - (* Deposit *)
    destruct (coin =? FIAT cfg)%string; [apply appends_lift|].
    apply appends_then_ret. apply appends_log_record.
  - (* Withdrawal *)
    destruct (coin =? FIAT cfg)%string.
    + apply appends_bind_lift. intros r _. apply appends_ret.
    + apply appends_then_ret. apply appends_log_record.
Qed.

Lemma replay_appends (coin : string) (operations : list Operation) :
  forall todo balance,
    incl todo operations ->
    appends (realized_event_ok cfg price_data coin operations)
            (fun _ => False)
            (replay cfg price_data coin todo balance).
Proof.
  induction todo as [|op rest IH]; intros balance Hincl; simpl.
  - apply appends_ret.
  - apply appends_bind.
    + apply process_op_appends. apply Hincl. now left.
    + intros b1. apply IH. intros x Hx. apply Hincl. now right.
Qed.

Lemma fold_dec_add_nonneg (l : list Q) :
  Forall (fun x => 0 <= x) l ->
  forall a, 0 <= a -> 0 <= fold_left dec_add l a.
Proof.
  induction 1 as [|x rest Hx Hrest IH]; intros a Ha; simpl.
  - exact Ha.
  - apply IH. apply round_prec_nonneg. lra.
Qed.

Lemma sanity_check_left_coin_nonneg (balance : BalanceQueue.t) (u : unit) :
  BalanceQueue.sanity_check balance = Ok u ->
  0 <= dsum (map not_sold (BalanceQueue.queue balance)).
Proof.
  unfold BalanceQueue.sanity_check.
  destruct (Qle_bool 0 (not_sold_total (BalanceQueue.queue balance)));
    [|discriminate].
  destruct (forallb _ _) eqn:Hall; [|discriminate].
  intros _. apply fold_dec_add_nonneg; [|lra].
  apply Forall_map. apply Forall_forall. intros l Hin.
  rewrite forallb_forall in Hall. apply Qle_bool_iff. now apply Hall.
Qed.

Lemma nonzero_nonneg_positive (x : Q) : nonzero x = true -> 0 <= x -> 0 < x.
Proof.
  unfold nonzero. intros Hnz Hle.
  destruct (Qeq_bool x 0) eqn:E; [discriminate|].
  destruct (Qlt_le_dec 0 x) as [Hlt|Hge]; [exact Hlt|].
  assert (x == 0) by lra. apply Qeq_bool_iff in H. congruence.
Qed.

(** What follows the loop appends no realized event and at most virtual
    events of the expected shape. *)
Lemma unrealized_gains_appends (coin : string) (operations : list Operation)
  (balance : BalanceQueue.t) :
  appends (fun _ => False) (virtual_event_ok cfg price_data coin)
          (unrealized_gains cfg price_data coin operations balance).
Proof.
  unfold unrealized_gains.
  apply appends_bind_lift. intros u Hsane.
  destruct (CALCULATE_UNREALIZED_GAINS cfg) eqn:Hcug; [|apply appends_ret].
  destruct (nonzero _) eqn:Hnz; [|apply appends_ret]. simpl.
  destruct (py_last operations) as [op|]; [|apply appends_raise].
  apply appends_bind_lift. intros [[tx|] b1] Hr; [|apply appends_ret].
  apply appends_virtual_tax_event.
  destruct (evaluate_sell_event_facts _ _ _ _ _ _ Hr)
    as (Hop & Hty & Hsv & Hf & _).
  unfold virtual_event_ok. rewrite Hop. simpl.
  repeat split; try assumption.
  apply nonzero_nonneg_positive; [exact Hnz|].
  apply (sanity_check_left_coin_nonneg _ _ Hsane).
Qed.

(** X1. Whatever the instance it starts from, and whether or not it raises,
    the evaluation of a group only appends. Every realized event it appends
    is triggered by an operation of the group that lies in the tax year and
    is a Sell, a lending or staking interest or a commission: the event of a
    Sell is of "Sonstige Einkünfte", the coin not being the home fiat, and
    carries the fiat value of the Sell; the event of an interest or a
    commission taxes the full fiat value of the operation, as capital income
    for lending interest in a fiat coin and as "sonstige Leistungen"
    otherwise, and no staking interest in a fiat coin has an event. Buys,
    airdrops, deposits, withdrawals and the custodial operations never have
    an event. Every virtual event is that of a Sell dated [TAX_DEADLINE] of
    a positive amount of the coin of the group, which is not the home fiat,
    with unrealized gains tracked. *)
Theorem group_events_classified (coin : string) (operations : list Operation) :
  appends (realized_event_ok cfg price_data coin operations)
          (virtual_event_ok cfg price_data coin)
          (_evaluate_taxation_GERMANY cfg price_data coin operations).
Proof.
  unfold _evaluate_taxation_GERMANY.
  apply appends_bind.
  - eapply appends_weaken; [| |apply replay_appends; apply incl_refl].
    + auto.
    + intros tx [].
  - intros b. eapply appends_weaken; [| |apply unrealized_gains_appends].
    + intros tx [].
    + auto.
Qed.

End GroupEvents.

(** ** A group whose replay succeeds *)

Section GroupSuccess.

Variable cfg : Config.
Variable price_data : PriceData.

Ltac no_event Hk :=
  exists []; rewrite app_nil_r; split; [reflexivity|];
  unfold triggers_event; rewrite Hk, ?andb_false_r; reflexivity.

(** The turn of an operation that does not raise appends one realized event
    when the operation triggers one, and none otherwise. *)
Lemma process_op_ok_events (coin : string) (op : Operation)
  (balance balance' : BalanceQueue.t) (self self' : Taxman) :
  process_op cfg price_data coin op balance self = (Ok balance', self') ->
  exists E,
    tax_events self' = tax_events self ++ E
    /\ map te_op E = if triggers_event cfg coin op then [op] else [].
Proof.
  unfold process_op.
  destruct (kind op) eqn:Hk; unfold bind, lift, ret, raise;
    try discriminate;
    try (intros H; injection H as _ <-; no_event Hk).
  - (* Sell *)
    destruct (evaluate_sell cfg price_data coin op false balance)
      as [[[tx|] b1]|e] eqn:Hev; [| |discriminate].
    + destruct (evaluate_sell_event_facts _ _ _ _ _ _ _ _ Hev)
        as (Hop & _ & _ & Hf & Hy).
      rewrite orb_false_r in Hy.
      intros H. injection H as _ <-. exists [tx]. split; [reflexivity|].
      unfold triggers_event. rewrite Hk, Hf, Hy. simpl. now rewrite Hop.
    + intros H. injection H as _ <-.
      exists []. rewrite app_nil_r. split; [reflexivity|].
      unfold triggers_event. rewrite Hk.
      destruct (evaluate_sell_none_inv _ _ _ _ _ _ _ Hev) as [Hf|[Hy _]].
      * rewrite Hf. now rewrite andb_false_r.
      * now rewrite Hy.
  - (* CoinLendInterest *)
    destruct (BalanceQueue.add op balance) as [b1|e]; [|discriminate].
    unfold triggers_event. rewrite Hk.
    destruct (in_tax_year cfg op).
    + destruct (is_fiat price_data coin); intros H; injection H as _ <-;
        eexists [_]; split; reflexivity.
    + intros H. injection H as _ <-. exists []. now rewrite app_nil_r.
  - (* StakingInterest *)
    destruct (BalanceQueue.add op balance) as [b1|e]; [|discriminate].
    unfold triggers_event. rewrite Hk.
    destruct (in_tax_year cfg op).
    + destruct (is_fiat price_data coin); [discriminate|].
      intros H. injection H as _ <-. eexists [_]. split; reflexivity.
    + intros H. injection H as _ <-. exists []. now rewrite app_nil_r.
  - (* Commission *)
    destruct (BalanceQueue.add op balance) as [b1|e]; [|discriminate].
    unfold triggers_event. rewrite Hk.
    destruct (in_tax_year cfg op).
    + intros H. injection H as _ <-. eexists [_]. split; reflexivity.
    + intros H. injection H as _ <-. exists []. now rewrite app_nil_r.
  - (* Deposit *)
    destruct (coin =? FIAT cfg)%string.
    + intros H. injection H as _ <-. no_event Hk.
    + intros H. injection H as _ <-. no_event Hk.
  - (* Withdrawal *)
    destruct (coin =? FIAT cfg)%string.
    + destruct (BalanceQueue.remove op balance) as [r|e]; [|discriminate].
      intros H. injection H as _ <-. no_event Hk.
    + intros H. injection H as _ <-. no_event Hk.
Qed.

Lemma replay_ok_events (coin : string) (operations : list Operation) :
  forall balance balance' self self',
    replay cfg price_data coin operations balance self = (Ok balance', self') ->
    exists E,
      tax_events self' = tax_events self ++ E
      /\ map te_op E = filter (triggers_event cfg coin) operations.
Proof.
  induction operations as [|op rest IH];
    intros balance balance' self self'; simpl.
  - intros H. injection H as _ <-. exists []. now rewrite app_nil_r.
  - unfold bind.
    destruct (process_op cfg price_data coin op balance self)
      as [[b1|e] s1] eqn:Hop; [|discriminate].
    intros Hrest.
    destruct (process_op_ok_events _ _ _ _ _ _ Hop) as (E1 & Ht1 & Hm1).
    destruct (IH _ _ _ _ Hrest) as (E2 & Ht2 & Hm2).
    exists (E1 ++ E2). split.
    + now rewrite Ht2, Ht1, app_assoc.
    + rewrite map_app, Hm1, Hm2.
      destruct (triggers_event cfg coin op); reflexivity.
Qed.

(** What follows the loop leaves the realized list alone. *)
Lemma unrealized_gains_tax_events (coin : string)
  (operations : list Operation) (balance : BalanceQueue.t) (self : Taxman) :
  tax_events
    (snd (unrealized_gains cfg price_data coin operations balance self))
  = tax_events self.
Proof.
  unfold unrealized_gains, bind, lift.
  destruct (BalanceQueue.sanity_check balance); [|reflexivity].
  destruct (CALCULATE_UNREALIZED_GAINS cfg && nonzero _); [|reflexivity].
  destruct (py_last operations); [|reflexivity].
  destruct (evaluate_sell _ _ _ _ _ _) as [[[tx|] b1]|e]; reflexivity.
Qed.

(** X2. When the evaluation of a group does not raise, the realized events
    it appended are, in the order of the operations, one for each operation
    that triggers an event and none for any other: a Sell in the tax year of
    a coin other than the home fiat, and a lending interest, a staking
    interest or a commission in the tax year. *)
Theorem group_events_follow_operations (coin : string)
  (operations : list Operation) (self self' : Taxman) :
  _evaluate_taxation_GERMANY cfg price_data coin operations self
  = (Ok tt, self') ->
  exists E,
    tax_events self' = tax_events self ++ E
    /\ map te_op E = filter (triggers_event cfg coin) operations
    /\ (List.length E <= List.length operations)%nat.
Proof.
  unfold _evaluate_taxation_GERMANY, bind.
  destruct (replay cfg price_data coin operations (BalanceType cfg) self)
    as [[b1|e] s1] eqn:Hreplay; [|discriminate].
  intros H.
  destruct (replay_ok_events _ _ _ _ _ _ Hreplay) as (E & Ht & Hm).
  exists E. split; [|split; [exact Hm|]].
  - rewrite <- Ht.
    rewrite <- (unrealized_gains_tax_events coin operations b1 s1).
    now rewrite H.
  - rewrite <- (length_map te_op), Hm. apply filter_length_le.
Qed.

End GroupSuccess.

(** ** The balance a replay leaves *)

Section GroupBalance.

Variable cfg : Config.
Variable price_data : PriceData.

Lemma add_total (op : Operation) (b b' : BalanceQueue.t) :
  BalanceQueue.add op b = Ok b' ->
  not_sold_total (BalanceQueue.queue b')
  == not_sold_total (BalanceQueue.queue b) + change op.
Proof.
  unfold BalanceQueue.add.
  destruct (Qle_bool (change op) 0); [discriminate|].
  intros H. injection H as <-. simpl.
  unfold not_sold_total. rewrite map_app, Qsum_app. simpl.
  rewrite Qsum_cons. change (Qsum []) with 0. lra.
Qed.

Lemma remove_total (op : Operation) (b b' : BalanceQueue.t)
  (scs : list SoldCoin) :
  BalanceQueue.remove op b = Ok (scs, b') ->
  not_sold_total (BalanceQueue.queue b')
  == not_sold_total (BalanceQueue.queue b) + - Qabs (change op).
Proof.
  intros H. destruct (remove_ok_inv _ _ _ _ H) as (_ & Ht & _). lra.
Qed.

Lemma evaluate_sell_removes (coin : string) (op : Operation) (force : bool)
  (b b' : BalanceQueue.t) (tx : option TaxEvent) :
  evaluate_sell cfg price_data coin op force b = Ok (tx, b') ->
  exists scs, BalanceQueue.remove op b = Ok (scs, b').
Proof.
  unfold evaluate_sell.
  destruct (BalanceQueue.remove op b) as [[scs b1]|e]; [|discriminate].
  destruct (coin =? FIAT cfg)%string;
    [intros H; injection H as _ <-; eauto|].
  destruct (negb (in_tax_year cfg op) && negb force);
    [intros H; injection H as _ <-; eauto|].
  destruct (gains_loop _ _ _ _ _ _ _) as [[t r]|e]; [|discriminate].
  intros H; injection H as _ <-; eauto.
Qed.

(** The turn of an operation that does not raise changes the balance by the
    effect of the operation. *)
Lemma process_op_balance (coin : string) (op : Operation)
  (balance balance' : BalanceQueue.t) (self self' : Taxman) :
  process_op cfg price_data coin op balance self = (Ok balance', self') ->
  not_sold_total (BalanceQueue.queue balance')
  == not_sold_total (BalanceQueue.queue balance)
     + balance_effect cfg coin op.
Proof.
  unfold process_op, balance_effect.
  destruct (kind op) eqn:Hk; unfold bind, lift, ret, raise;
    try discriminate;
    try (intros H; injection H as <- _; lra);
    try (intros H; injection H as H _; apply add_total; exact H).
  - (* Sell *)
    destruct (evaluate_sell cfg price_data coin op false balance)
      as [[tx b1]|e] eqn:Hev; [|discriminate].
    destruct (evaluate_sell_removes _ _ _ _ _ _ Hev) as (scs & Hrm).
    destruct tx; intros H; injection H as <- _;
      apply (remove_total _ _ _ _ Hrm).
  - (* CoinLendInterest *)
    destruct (BalanceQueue.add op balance) as [b1|e] eqn:Hadd; [|discriminate].
    destruct (in_tax_year cfg op).
    + destruct (is_fiat price_data coin); intros H; injection H as <- _;
        apply (add_total _ _ _ Hadd).
    + intros H; injection H as <- _. apply (add_total _ _ _ Hadd).
  - (* StakingInterest *)
    destruct (BalanceQueue.add op balance) as [b1|e] eqn:Hadd; [|discriminate].
    destruct (in_tax_year cfg op).
    + destruct (is_fiat price_data coin); [discriminate|].
      intros H; injection H as <- _. apply (add_total _ _ _ Hadd).
    + intros H; injection H as <- _. apply (add_total _ _ _ Hadd).
  - (* Commission *)
    destruct (BalanceQueue.add op balance) as [b1|e] eqn:Hadd; [|discriminate].
    destruct (in_tax_year cfg op); intros H; injection H as <- _;
      apply (add_total _ _ _ Hadd).
  - (* Deposit *)
    destruct (coin =? FIAT cfg)%string.
    + intros H; injection H as H _. apply add_total; exact H.
    + intros H; injection H as <- _. lra.
  - (* Withdrawal *)
    destruct (coin =? FIAT cfg)%string.
    + destruct (BalanceQueue.remove op balance) as [[scs b1]|e] eqn:Hrm;
        [|discriminate].
      intros H; injection H as <- _. apply (remove_total _ _ _ _ Hrm).
    + intros H; injection H as <- _. lra.
Qed.

Lemma replay_balance (coin : string) (operations : list Operation) :
  forall balance balance' self self',
    replay cfg price_data coin operations balance self = (Ok balance', self') ->
    not_sold_total (BalanceQueue.queue balance')
    == not_sold_total (BalanceQueue.queue balance)
       + net_balance cfg coin operations.
Proof.
  induction operations as [|op rest IH];
    intros balance balance' self self'; simpl.
  - intros H. injection H as <- _. change (net_balance cfg coin []) with 0. lra.
  - unfold bind.
    destruct (process_op cfg price_data coin op balance self)
      as [[b1|e] s1] eqn:Hop; [|discriminate].
    intros Hrest.
    rewrite (IH _ _ _ _ Hrest), (process_op_balance _ _ _ _ _ _ Hop).
    unfold net_balance. simpl. rewrite Qsum_cons. lra.
Qed.

(** X3. When the operations of a group replay without error from the empty
    queue, the balance left is the net of the operations: what buys,
    interests, airdrops, commissions and deposits of home fiat brought in,
    less what Sells and withdrawals of home fiat took out; deposits and
    withdrawals of another coin and the custodial operations count for
    nothing. No front part of the operations took out more than it brought
    in, and every open lot holds a positive amount. *)
Theorem replay_leaves_net_balance (coin : string)
  (operations : list Operation) (balance : BalanceQueue.t)
  (self self' : Taxman) :
  replay cfg price_data coin operations (BalanceType cfg) self
  = (Ok balance, self') ->
  not_sold_total (BalanceQueue.queue balance)
  == net_balance cfg coin operations
  /\ (forall front back, operations = front ++ back ->
                         0 <= net_balance cfg coin front)
  /\ Forall (fun l => 0 < not_sold l) (BalanceQueue.queue balance).
Proof.
  intros H. split; [|split].
  - rewrite (replay_balance _ _ _ _ _ _ H).
    change (not_sold_total (BalanceQueue.queue (BalanceType cfg))) with 0. lra.
  - intros front back ->. rewrite replay_app in H.
    destruct (replay cfg price_data coin front (BalanceType cfg) self)
      as [[b1|e] s1] eqn:Hfront; [|discriminate].
    pose proof (replay_balance _ _ _ _ _ _ Hfront) as Ht.
    change (not_sold_total (BalanceQueue.queue (BalanceType cfg))) with 0 in Ht.
    assert (Hpos : lots_positive b1).
    { apply (replay_positive cfg price_data coin front (BalanceType cfg)
               (Forall_nil _) _ _ _ Hfront). }
    pose proof (positive_total_nonneg _ Hpos). lra.
  - apply (replay_positive cfg price_data coin operations (BalanceType cfg)
             (Forall_nil _) _ _ _ H).
Qed.

End GroupBalance.

(** ** Custodial operations *)

Section Custodial.

Variable cfg : Config.
Variable price_data : PriceData.

Lemma py_last_snoc {A} (l : list A) (x : A) : py_last (l ++ [x]) = Some x.
Proof. unfold py_last. now rewrite rev_app_distr. Qed.

Lemma py_last_some {A} (l : list A) (x : A) :
  py_last l = Some x -> exists front, l = front ++ [x].
Proof.
  unfold py_last. destruct (rev l) as [|y rest] eqn:Hrev; [discriminate|].
  intros H. injection H as ->. exists (rev rest).
  apply (f_equal (@rev _)) in Hrev. rewrite rev_involutive in Hrev.
  exact Hrev.
Qed.

Lemma py_last_none {A} (l : list A) : py_last l = None -> l = [].
Proof.
  unfold py_last. destruct (rev l) as [|y rest] eqn:Hrev; [|discriminate].
  intros _. apply (f_equal (@rev _)) in Hrev.
  now rewrite rev_involutive in Hrev.
Qed.

Lemma replay_without_custodial (coin : string) (operations : list Operation) :
  forall balance self,
    replay cfg price_data coin
      (filter (fun op => negb (custodial (kind op))) operations) balance self
    = replay cfg price_data coin operations balance self.
Proof.
  induction operations as [|op rest IH]; intros balance self; simpl.
  - reflexivity.
  - destruct (custodial (kind op)) eqn:Hc; simpl.
    + rewrite IH. unfold process_op.
      destruct (kind op); try discriminate Hc; reflexivity.
    + unfold bind.
      destruct (process_op cfg price_data coin op balance self)
        as [[b1|e] s1]; [apply IH|reflexivity].
Qed.

(** X5. The custodial operations (CoinLend, CoinLendEnd, Staking,
    StakingEnd) count for nothing in the replay of a group: with them left
    out the replay has the same outcome, balance, events and log. The
    evaluation of the whole group is the same too unless the last operation
    is a custodial one, whose platform the virtual sell would take. *)
Theorem custodial_operations_are_skipped (coin : string)
  (operations : list Operation) (self : Taxman) :
  let kept := filter (fun op => negb (custodial (kind op))) operations in
  (forall balance,
      replay cfg price_data coin kept balance self
      = replay cfg price_data coin operations balance self)
  /\ ((forall last, py_last operations = Some last ->
                    custodial (kind last) = false) ->
      _evaluate_taxation_GERMANY cfg price_data coin kept self
      = _evaluate_taxation_GERMANY cfg price_data coin operations self).
Proof.
  intros kept. split.
  - intros balance. apply replay_without_custodial.
  - intros Hlast.
    assert (Hsame : py_last kept = py_last operations).
    { destruct (py_last operations) as [last|] eqn:Hl.
      - destruct (py_last_some _ _ Hl) as (front & ->).
        subst kept. rewrite filter_app. simpl.
        rewrite (Hlast last eq_refl). simpl. apply py_last_snoc.
      - apply py_last_none in Hl. subst operations. reflexivity. }
    unfold _evaluate_taxation_GERMANY, bind.
    subst kept. rewrite replay_without_custodial.
    destruct (replay cfg price_data coin operations (BalanceType cfg) self)
      as [[b1|e] s1]; [|reflexivity].
    unfold unrealized_gains. now rewrite Hsame.
Qed.

End Custodial.

(** ** Grouping and sorting *)

Section Grouping.

Context {A : Type} (key : A -> string).

Lemma group_insert_in (k : string) (x : A) (groups : list (string * list A)) :
  forall k' xs',
    In (k', xs') (group_insert k x groups) ->
    In (k', xs') groups
    \/ (k' = k /\ (xs' = [x] \/ exists xs, In (k, xs) groups /\ xs' = xs ++ [x])).
Proof.
  induction groups as [|[k0 xs0] rest IH]; intros k' xs'; simpl.
  - intros [H|[]]. injection H as <- <-. right. split; auto.
  - destruct (k =? k0)%string eqn:Hk.
    + apply String.eqb_eq in Hk. subst k0. intros [H|H].
      * injection H as <- <-. right. split; [reflexivity|].
        right. exists xs0. split; [now left|reflexivity].
      * left. now right.
    + intros [H|H].
      * left. now left.
      * destruct (IH _ _ H) as [Hin|(-> & [->|(xs & Hin & ->)])].
        -- left. now right.
        -- right. split; auto.
        -- right. split; [reflexivity|]. right. exists xs. split; [now right|reflexivity].
Qed.

(** The members of a group have the key of the group and come from the
    list. *)
Lemma group_by_members (l : list A) :
  forall k xs, In (k, xs) (group_by key l) ->
               forall x, In x xs -> key x = k /\ In x l.
Proof.
  unfold group_by.
  assert (Hgen : forall todo groups (Q : A -> Prop),
    (forall k xs, In (k, xs) groups -> forall x, In x xs -> key x = k /\ Q x) ->
    (forall x, In x todo -> Q x) ->
    forall k xs,
      In (k, xs) (fold_left (fun g x => group_insert (key x) x g) todo groups) ->
      forall x, In x xs -> key x = k /\ Q x).
  { induction todo as [|y rest IH]; intros groups Q Hg Hq k xs; simpl.
    - apply Hg.
    - apply IH.
      + intros k' xs' Hin x Hx.
        destruct (group_insert_in _ _ _ _ _ Hin)
          as [Hold|(-> & [->|(xs0 & Hold & ->)])].
        * apply (Hg _ _ Hold _ Hx).
        * destruct Hx as [<-|[]]. split; [reflexivity|]. apply Hq. now left.
        * apply in_app_or in Hx. destruct Hx as [Hx|[<-|[]]].
          -- apply (Hg _ _ Hold _ Hx).
          -- split; [reflexivity|]. apply Hq. now left.
      + intros x Hx. apply Hq. now right. }
  intros k xs Hin x Hx.
  apply (Hgen l [] (fun x => In x l)) with (xs := xs); auto.
  intros k' xs' [].
Qed.

Lemma group_insert_has (k : string) (x : A) (groups : list (string * list A)) :
  exists xs, In (k, xs) (group_insert k x groups) /\ In x xs.
Proof.
  induction groups as [|[k0 xs0] rest IH]; simpl.
  - exists [x]. split; now left.
  - destruct (k =? k0)%string eqn:Hk.
    + apply String.eqb_eq in Hk. subst k0.
      exists (xs0 ++ [x]). split; [now left|]. apply in_or_app. right. now left.
    + destruct IH as (xs & Hin & Hx). exists xs. split; [now right|exact Hx].
Qed.

Lemma group_insert_keeps (k : string) (x : A) (groups : list (string * list A)) :
  forall k' y xs, In (k', xs) groups -> In y xs ->
                  exists xs', In (k', xs') (group_insert k x groups) /\ In y xs'.
Proof.
  induction groups as [|[k0 xs0] rest IH]; intros k' y xs; simpl.
  - intros [].
  - destruct (k =? k0)%string eqn:Hk.
    + intros [H|H] Hy.
      * injection H as <- <-. exists (xs0 ++ [x]). split; [now left|].
        apply in_or_app. now left.
      * exists xs. split; [now right|exact Hy].
    + intros [H|H] Hy.
      * exists xs. split; [now left|exact Hy].
      * destruct (IH _ _ _ H Hy) as (xs' & Hin & Hy').
        exists xs'. split; [now right|exact Hy'].
Qed.

(** Every element of the list is in the group of its key. *)
Lemma group_by_covers (l : list A) :
  forall x, In x l -> exists xs, In (key x, xs) (group_by key l) /\ In x xs.
Proof.
  unfold group_by.
  assert (Hkeep : forall todo groups k y xs,
    In (k, xs) groups -> In y xs ->
    exists xs', In (k, xs')
                   (fold_left (fun g x => group_insert (key x) x g) todo groups)
                /\ In y xs').
  { induction todo as [|z rest IH]; intros groups k y xs Hin Hy; simpl.
    - eauto.
    - destruct (group_insert_keeps (key z) z groups _ _ _ Hin Hy)
        as (xs' & Hin' & Hy').
      apply (IH _ _ _ _ Hin' Hy'). }
  assert (Hgen : forall todo groups x, In x todo ->
    exists xs, In (key x, xs)
                  (fold_left (fun g x => group_insert (key x) x g) todo groups)
               /\ In x xs).
  { induction todo as [|z rest IH]; intros groups x; simpl.
    - intros [].
    - intros [<-|Hin].
      + destruct (group_insert_has (key z) z groups) as (xs & Hin & Hx).
        apply (Hkeep _ _ _ _ _ Hin Hx).
      + apply IH. exact Hin. }
  intros x Hx. apply Hgen. exact Hx.
Qed.

(** A list of one key is one group. *)
Lemma group_by_one_key (k : string) (l : list A) :
  l <> [] -> (forall x, In x l -> key x = k) -> group_by key l = [(k, l)].
Proof.
  unfold group_by. destruct l as [|x rest]; [congruence|]. intros _ Hk.
  simpl. rewrite (Hk x (or_introl eq_refl)).
  assert (Hgen : forall todo done,
    (forall y, In y todo -> key y = k) ->
    fold_left (fun g y => group_insert (key y) y g) todo [(k, done)]
    = [(k, done ++ todo)]).
  { induction todo as [|y todo IH]; intros done Hy; simpl.
    - now rewrite app_nil_r.
    - rewrite (Hy y (or_introl eq_refl)), String.eqb_refl.
      rewrite IH; [now rewrite <- app_assoc|].
      intros z Hz. apply Hy. now right. }
  apply (Hgen rest [x]). intros y Hy. apply Hk. now right.
Qed.

(** No group is empty. *)
Lemma group_by_nonempty (l : list A) :
  forall k xs, In (k, xs) (group_by key l) -> xs <> [].
Proof.
  unfold group_by.
  assert (Hgen : forall todo groups,
    (forall k xs, In (k, xs) groups -> xs <> []) ->
    forall k xs,
      In (k, xs) (fold_left (fun g x => group_insert (key x) x g) todo groups) ->
      xs <> []).
  { induction todo as [|y rest IH]; intros groups Hg k xs; simpl.
    - apply Hg.
    - apply IH. intros k' xs' Hin.
      destruct (group_insert_in _ _ _ _ _ Hin)
        as [Hold|(-> & [->|(xs0 & Hold & ->)])].
      + apply (Hg _ _ Hold).
      + discriminate.
      + destruct xs0; discriminate. }
  apply Hgen. intros k xs [].
Qed.

End Grouping.

Lemma insert_by_time_in (op x : Operation) (l : list Operation) :
  In x (insert_by_time op l) <-> x = op \/ In x l.
Proof.
  induction l as [|y rest IH]; simpl.
  - intuition.
  - destruct (dt_leb (utc_time op) (utc_time y)); simpl.
    + intuition.
    + rewrite IH. intuition.
Qed.

Lemma sort_operations_in (x : Operation) (l : list Operation) :
  In x (sort_operations l) <-> In x l.
Proof.
  unfold sort_operations. induction l as [|y rest IH]; simpl.
  - reflexivity.
  - rewrite insert_by_time_in, IH. intuition.
Qed.

(** ** The events of a book *)

Section BookEvents.

Variable cfg : Config.
Variable price_data : PriceData.

Lemma per_coin_classified (bk operations : list Operation) :
  incl operations bk ->
  appends (fun tx => realized_event_ok cfg price_data (coin (te_op tx)) bk tx)
          (fun tx => virtual_event_ok cfg price_data (coin (te_op tx)) tx)
          (_evaluate_taxation_per_coin cfg price_data operations).
Proof.
  intros Hincl. unfold _evaluate_taxation_per_coin.
  apply appends_for_each. intros [c coin_operations] Hg.
  assert (Hgroup :
    appends (realized_event_ok cfg price_data c
               (sort_operations coin_operations))
            (virtual_event_ok cfg price_data c)
            (_evaluate_taxation_GERMANY cfg price_data c
               (sort_operations coin_operations))).
  { unfold _evaluate_taxation_GERMANY. apply appends_bind.
    - eapply appends_weaken; [| |apply replay_appends; apply incl_refl].
      + auto.
      + intros tx [].
    - intros b. eapply appends_weaken; [| |apply unrealized_gains_appends].
      + intros tx [].
      + auto. }
  eapply appends_weaken; [| |exact Hgroup].
  - intros tx (Hin & Hy & Hkind).
    apply (proj1 (sort_operations_in _ _)) in Hin.
    destruct (group_by_members coin operations _ _ Hg _ Hin) as [Hc Hop].
    rewrite Hc. split; [apply Hincl; exact Hop|]. split; assumption.
  - intros tx Hv. unfold virtual_event_ok in *.
    destruct Hv as (H1 & H2 & H3 & H4 & H5 & H6 & H7 & H8).
    rewrite H6. repeat split; assumption.
Qed.

Lemma evaluation_body_classified (bk : list Operation) :
  appends (fun tx => realized_event_ok cfg price_data (coin (te_op tx)) bk tx)
          (fun tx => virtual_event_ok cfg price_data (coin (te_op tx)) tx)
          (if MULTI_DEPOT cfg then
             for_each (fun g => _evaluate_taxation_per_coin cfg price_data
                                  (snd g))
                      (group_by platform bk)
           else _evaluate_taxation_per_coin cfg price_data bk).
Proof.
  destruct (MULTI_DEPOT cfg).
  - apply appends_for_each. intros [p ops] Hg. apply per_coin_classified.
    intros x Hx. apply (group_by_members platform bk _ _ Hg _ Hx).
  - apply per_coin_classified. apply incl_refl.
Qed.

(** The virtual events that an evaluation appends. *)
Lemma evaluate_taxation_virtual_events (bk : list Operation) :
  exists r E V W,
    (forall self, book self = bk ->
       evaluate_taxation cfg price_data self = (r, with_events self E V W))
    /\ Forall (fun tx =>
                 virtual_event_ok cfg price_data (coin (te_op tx)) tx) V.
Proof.
  destruct (evaluation_body_classified bk) as (r & E & V & W & Hm & _ & HV).
  destruct (year_bound_ok cfg bk) eqn:Hb.
  - exists r, E, V, (LogDebug "Starting evaluation..." :: W).
    split; [|exact HV].
    intros self <-. unfold evaluate_taxation, bind, log_record. simpl.
    rewrite Hb, Hm. unfold with_events. simpl.
    now rewrite <- app_assoc.
  - exists (Raise (AssertionError
        "For tax evaluation, no operation should happen after the tax year.")),
      [], [], [LogDebug "Starting evaluation..."].
    split; [|constructor].
    intros self <-. unfold evaluate_taxation, bind, log_record. simpl.
    rewrite Hb. unfold raise, with_events. simpl. now rewrite !app_nil_r.
Qed.

(** X6. Whatever the instance that holds a given book, and whether or not
    the evaluation raises, [evaluate_taxation] appends the same events, and
    every one of them is accounted for by the book: a realized event is
    triggered by an operation of the book in the tax year, a Sell of a coin
    other than the home fiat or a lending interest, a staking interest in a
    coin that is no fiat, or a commission, and is classified by the kind and
    the coin of that operation; a virtual event is the forced Sell at
    [TAX_DEADLINE] of a positive amount of a coin other than the home fiat,
    and exists only when unrealized gains are tracked. *)
Theorem book_events_classified (bk : list Operation) :
  exists r E V W,
    (forall self, book self = bk ->
       evaluate_taxation cfg price_data self = (r, with_events self E V W))
    /\ Forall (fun tx =>
                 realized_event_ok cfg price_data (coin (te_op tx)) bk tx) E
    /\ Forall (fun tx =>
                 virtual_event_ok cfg price_data (coin (te_op tx)) tx) V.
Proof.
  pose proof (evaluation_body_classified bk) as Hbody.
  destruct Hbody as (r & E & V & W & Hm & HE & HV).
  destruct (year_bound_ok cfg bk) eqn:Hb.
  - exists r, E, V, (LogDebug "Starting evaluation..." :: W).
    split; [|split; assumption].
    intros self <-. unfold evaluate_taxation, bind, log_record. simpl.
    rewrite Hb, Hm. unfold with_events. simpl.
    now rewrite <- app_assoc.
  - exists (Raise (AssertionError
        "For tax evaluation, no operation should happen after the tax year.")),
      [], [], [LogDebug "Starting evaluation..."].
    split; [|split; constructor].
    intros self <-. unfold evaluate_taxation, bind, log_record. simpl.
    rewrite Hb. unfold raise, with_events. simpl. now rewrite !app_nil_r.
Qed.

End BookEvents.

(** ** Books that can not be evaluated *)

Section BookFailures.

Variable cfg : Config.
Variable price_data : PriceData.

Lemma for_each_raises {A} (f : A -> M unit) (l : list A) :
  (exists x, In x l /\ forall s, exists e, fst (f x s) = Raise e) ->
  forall s, exists e, fst (for_each f l s) = Raise e.
Proof.
  induction l as [|y rest IH]; intros (x & Hin & Hx) s; simpl.
  - destruct Hin.
  - unfold bind. destruct Hin as [->|Hin].
    + destruct (Hx s) as (e & He).
      destruct (f x s) as [[u|e'] s1]; simpl in *; [discriminate|eauto].
    + destruct (f y s) as [[u|e'] s1]; simpl; [|eauto].
      apply IH. eauto.
Qed.

Lemma group_with_unevaluable_raises (coin : string)
  (operations : list Operation) :
  (exists op, In op operations /\ unevaluable (kind op)) ->
  forall s, exists e,
    fst (_evaluate_taxation_GERMANY cfg price_data coin operations s)
    = Raise e.
Proof.
  intros (op & Hin & Hk) s.
  destruct (in_split _ _ Hin) as (front & back & ->).
  set (error := match kind op with
                | Fee => RuntimeError "single fee operations shouldn't exist"
                | _ => NotImplementedError
                end).
  assert (Hop : forall balance s0,
             process_op cfg price_data coin op balance s0 = (Raise error, s0)).
  { intros balance s0. subst error. unfold process_op.
    destruct Hk as [Hk|[name Hk]]; rewrite Hk; reflexivity. }
  rewrite (replay_raises_at cfg price_data coin front back op error Hop s).
  destruct (replay cfg price_data coin front (BalanceType cfg) s)
    as [[b1|e1] s1]; simpl; eauto.
Qed.

Lemma per_coin_with_unevaluable_raises (operations : list Operation) :
  (exists op, In op operations /\ unevaluable (kind op)) ->
  forall s, exists e,
    fst (_evaluate_taxation_per_coin cfg price_data operations s) = Raise e.
Proof.
  intros (op & Hin & Hk). unfold _evaluate_taxation_per_coin.
  apply for_each_raises.
  destruct (group_by_covers coin operations op Hin) as (xs & Hg & Hx).
  exists (coin op, xs). split; [exact Hg|].
  apply group_with_unevaluable_raises.
  exists op. split; [|exact Hk]. now apply sort_operations_in.
Qed.

(** X7. A book that holds a standalone Fee or an operation of unrecognized
    kind, anywhere, on any platform and of any coin, can not be evaluated:
    [evaluate_taxation] raises, in single-depot and in multi-depot mode. *)
Theorem book_with_fee_is_never_evaluated (self : Taxman) :
  (exists op, In op (book self)
              /\ (kind op = Fee \/ exists name, kind op = OtherKind name)) ->
  exists e, fst (evaluate_taxation cfg price_data self) = Raise e.
Proof.
  intros (op & Hin & Hk).
  unfold evaluate_taxation, bind, log_record. simpl.
  destruct (year_bound_ok cfg (book self)); [|simpl; eauto].
  destruct (MULTI_DEPOT cfg).
  - apply for_each_raises.
    destruct (group_by_covers platform (book self) op Hin) as (xs & Hg & Hx).
    exists (platform op, xs). split; [exact Hg|]. simpl.
    apply per_coin_with_unevaluable_raises. exists op. split; assumption.
  - apply per_coin_with_unevaluable_raises. exists op. split; assumption.
Qed.

End BookFailures.

(** ** One platform *)

Section OnePlatform.

Variable cfg : Config.
Variable price_data : PriceData.

Lemma for_each_one {A} (f : A -> M unit) (x : A) (s : Taxman) :
  for_each f [x] s = f x s.
Proof.
  simpl. unfold bind, ret. destruct (f x s) as [[[]|e] s1]; reflexivity.
Qed.

(** X8. When all operations of the book are on one platform, the
    multi-depot flag changes nothing: the evaluation separated by platforms
    and the evaluation in a single virtual depot have the same outcome and
    leave the same events and log. *)
Theorem multi_depot_same_on_one_platform (p : string) (self : Taxman) :
  (forall op, In op (book self) -> platform op = p) ->
  evaluate_taxation (with_multi_depot cfg true) price_data self
  = evaluate_taxation (with_multi_depot cfg false) price_data self.
Proof.
  intros Hp. unfold evaluate_taxation, bind, log_record. simpl.
  change (year_bound_ok (with_multi_depot cfg true) (book self))
    with (year_bound_ok (with_multi_depot cfg false) (book self)).
  destruct (year_bound_ok (with_multi_depot cfg false) (book self));
    [|reflexivity].
  destruct (book self) as [|op rest] eqn:Hbook.
  - reflexivity.
  - rewrite (group_by_one_key platform p (op :: rest)); [|discriminate|].
    + rewrite for_each_one. reflexivity.
    + intros x Hx. apply Hp. exact Hx.
Qed.

End OnePlatform.

(** ** The printed summary *)

Section GroupKeys.

Context {A : Type} (key : A -> string).

Lemma group_insert_keys (k : string) (x : A)
  (groups : list (string * list A)) :
  map fst (group_insert k x groups)
  = if existsb (String.eqb k) (map fst groups) then map fst groups
    else map fst groups ++ [k].
Proof.
  induction groups as [|[k0 xs0] rest IH]; simpl.
  - reflexivity.
  - destruct (k =? k0)%string; simpl; [reflexivity|].
    rewrite IH. destruct (existsb (String.eqb k) (map fst rest)); reflexivity.
Qed.

(** Every key has one group. *)
Lemma group_by_keys_nodup (l : list A) : NoDup (map fst (group_by key l)).
Proof.
  unfold group_by.
  assert (Hgen : forall todo groups,
    NoDup (map fst groups) ->
    NoDup (map fst (fold_left (fun g x => group_insert (key x) x g)
                              todo groups))).
  { induction todo as [|x rest IH]; intros groups Hnd; simpl.
    - exact Hnd.
    - apply IH. rewrite group_insert_keys.
      destruct (existsb (String.eqb (key x)) (map fst groups)) eqn:Hex;
        [exact Hnd|].
      apply NoDup_app; [exact Hnd|constructor; [intros []|constructor]|].
      intros k Hin [Heq|[]]. subst k.
      assert (existsb (String.eqb (key x)) (map fst groups) = true).
      { apply existsb_exists. exists (key x). split; [exact Hin|].
        apply String.eqb_refl. }
      congruence. }
  apply Hgen. constructor.
Qed.




End GroupKeys.

Section GroupContents.

Context {A : Type} (key : A -> string).

Lemma filter_none (f : A -> bool) (l : list A) :
  (forall y, In y l -> f y = false) -> filter f l = [].
Proof.
  induction l as [|y rest IH]; intros H; simpl.
  - reflexivity.
  - rewrite (H y (or_introl eq_refl)). apply IH.
    intros z Hz. apply H. now right.
Qed.

Lemma group_insert_cases (k : string) (x : A)
  (groups : list (string * list A)) :
  NoDup (map fst groups) ->
  forall k' xs',
    In (k', xs') (group_insert k x groups) ->
    (k' = k /\ ((xs' = [x] /\ ~ In k (map fst groups))
                \/ exists xs, In (k, xs) groups /\ xs' = xs ++ [x]))
    \/ (k' <> k /\ In (k', xs') groups).
Proof.
  induction groups as [|[k0 xs0] rest IH]; intros Hnd k' xs'; simpl.
  - intros [H|[]]. injection H as <- <-. left. split; [reflexivity|].
    left. split; [reflexivity|]. intros [].
  - inversion Hnd as [|? ? Hnotin Hnd']; subst.
    destruct (k =? k0)%string eqn:Hk.
    + apply String.eqb_eq in Hk. subst k0. intros [H|H].
      * injection H as <- <-. left. split; [reflexivity|].
        right. exists xs0. split; [now left|reflexivity].
      * right. split; [|now right].
        intros ->. apply Hnotin. apply in_map_iff.
        exists (k, xs'). split; [reflexivity|exact H].
    + apply String.eqb_neq in Hk. intros [H|H].
      * injection H as <- <-. right. split; [congruence|now left].
      * destruct (IH Hnd' _ _ H)
          as [(-> & [(-> & Hnew)|(xs & Hin & ->)])|(Hne & Hin)].
        -- left. split; [reflexivity|]. left. split; [reflexivity|].
           intros [Heq|Hin]; [congruence|contradiction].
        -- left. split; [reflexivity|]. right. exists xs.
           split; [now right|reflexivity].
        -- right. split; [exact Hne|now right].
Qed.

(** The group of a key holds the elements of that key, all of them and in
    the order of the list. *)
Lemma group_by_contents (l : list A) :
  forall k xs, In (k, xs) (group_by key l) ->
               xs = filter (fun y => (key y =? k)%string) l.
Proof.
  unfold group_by.
  assert (Hgen : forall todo groups seen,
    NoDup (map fst groups) ->
    (forall y, In y seen -> In (key y) (map fst groups)) ->
    (forall k xs, In (k, xs) groups ->
                  xs = filter (fun y => (key y =? k)%string) seen) ->
    forall k xs,
      In (k, xs) (fold_left (fun g x => group_insert (key x) x g) todo groups) ->
      xs = filter (fun y => (key y =? k)%string) (seen ++ todo)).
  { induction todo as [|x rest IH]; intros groups seen Hnd Hcov Hcont k xs;
      simpl.
    - rewrite app_nil_r. apply Hcont.
    - replace (seen ++ x :: rest) with ((seen ++ [x]) ++ rest)
        by now rewrite <- app_assoc.
      assert (Hkeys := group_insert_keys (key x) x groups).
      apply IH.
      + rewrite Hkeys.
        destruct (existsb (String.eqb (key x)) (map fst groups)) eqn:Hex;
          [exact Hnd|].
        apply NoDup_app; [exact Hnd|constructor; [intros []|constructor]|].
        intros k0 Hin [Heq|[]]. subst k0.
        assert (existsb (String.eqb (key x)) (map fst groups) = true).
        { apply existsb_exists. exists (key x). split; [exact Hin|].
          apply String.eqb_refl. }
        congruence.
      + intros y Hy. rewrite Hkeys. apply in_app_or in Hy.
        destruct (existsb (String.eqb (key x)) (map fst groups)) eqn:Hex.
        * destruct Hy as [Hy|[<-|[]]]; [now apply Hcov|].
          apply existsb_exists in Hex. destruct Hex as (k0 & Hin & He).
          apply String.eqb_eq in He. now subst k0.
        * apply in_or_app. destruct Hy as [Hy|[<-|[]]].
          -- left. now apply Hcov.
          -- right. now left.
      + intros k' xs' Hin. rewrite filter_app. simpl.
        destruct (group_insert_cases _ _ _ Hnd _ _ Hin)
          as [(-> & [(-> & Hnew)|(xs0 & Hold & ->)])|(Hne & Hold)].
        * rewrite String.eqb_refl. rewrite filter_none; [reflexivity|].
          intros y Hy. apply String.eqb_neq. intros Heq.
          apply Hnew. rewrite <- Heq. now apply Hcov.
        * rewrite String.eqb_refl. now rewrite <- (Hcont _ _ Hold).
        * assert ((key x =? k')%string = false) as ->
            by (apply String.eqb_neq; congruence).
          rewrite app_nil_r. apply (Hcont _ _ Hold). }
  intros k xs Hin.
  apply (Hgen l [] [] (NoDup_nil _)) with (k := k) (xs := xs).
  - intros y Hy. destruct Hy.
  - intros k' xs' Hin'. destruct Hin'.
  - exact Hin.
Qed.

End GroupContents.

Section PrintedSummary.

Variable cfg : Config.
Variable price_data : PriceData.

Lemma type_totals_types (events : list TaxEvent) :
  type_total_types (type_totals cfg events)
  = map fst (group_by taxation_type events).
Proof.
  unfold type_totals.
  induction (group_by taxation_type events) as [|[ty evs] rest IH]; simpl.
  - reflexivity.
  - now rewrite IH.
Qed.

Lemma type_total_types_app (l1 l2 : list ReportLine) :
  type_total_types (l1 ++ l2) = type_total_types l1 ++ type_total_types l2.
Proof. apply flat_map_app. Qed.

Lemma portfolio_lines_no_totals (events : list TaxEvent) :
  type_total_types (map (portfolio_line cfg) events) = [].
Proof. induction events as [|tx rest IH]; simpl; auto. Qed.

Lemma portfolio_lines_no_total (events : list TaxEvent)
  (ty : string) (total : Q) (fiat : string) :
  ~ In (TypeTotal ty total fiat) (map (portfolio_line cfg) events).
Proof.
  intros Hin. apply in_map_iff in Hin. destruct Hin as (tx & Heq & _).
  discriminate Heq.
Qed.

(** The part of the report on the realized events, with its totals. *)
Lemma print_evaluation_shape (self : Taxman) (lines : list ReportLine) :
  print_evaluation cfg self = Ok lines ->
  type_total_types lines = map fst (group_by taxation_type (tax_events self))
  /\ (forall ty total fiat,
        In (TypeTotal ty total fiat) lines ->
        In (TypeTotal ty total fiat) (type_totals cfg (tax_events self))).
Proof.
  unfold print_evaluation.
  set (head := match tax_events self with
               | _ :: _ => [ReportTitle] ++ [TaxYearTitle (TAX_YEAR cfg)]
                             ++ type_totals cfg (tax_events self)
               | [] => [ReportTitle] ++ [NoTaxEvents (TAX_YEAR cfg)]
               end).
  assert (Hhead :
    type_total_types head = map fst (group_by taxation_type (tax_events self))
    /\ (forall ty total fiat,
          In (TypeTotal ty total fiat) head ->
          In (TypeTotal ty total fiat) (type_totals cfg (tax_events self)))).
  { subst head. destruct (tax_events self) as [|tx rest] eqn:Hev.
    - split; [reflexivity|].
      intros ty total fiat [H|[H|[]]]; discriminate H.
    - rewrite <- Hev. split.
      + apply type_totals_types.
      + intros ty total fiat [H|[H|H]]; [discriminate H|discriminate H|].
        exact H. }
  destruct Hhead as [Ht Hin].
  destruct (virtual_tax_events self) as [|first others].
  - intros H. injection H as <-. split; assumption.
  - destruct (CALCULATE_UNREALIZED_GAINS cfg); [|discriminate].
    match goal with
    | |- Ok (head ++ ?mid ++ map _ ?evs) = Ok lines -> _ =>
        set (middle := mid); set (sorted := evs)
    end.
    intros H.
    replace lines with (head ++ middle ++ map (portfolio_line cfg) sorted)
      by congruence.
    clear H. split.
    + rewrite !type_total_types_app, Ht, portfolio_lines_no_totals.
      subst middle. simpl. now rewrite app_nil_r.
    + intros ty total fiat H.
      apply in_app_or in H. destruct H as [H|H]; [now apply Hin|].
      apply in_app_or in H. destruct H as [H|H].
      * subst middle. destruct H as [H|[H|[H|[H|[]]]]]; discriminate H.
      * now apply portfolio_lines_no_total in H.
Qed.

(** X9. The summary that [print_evaluation] logs lists every taxation type
    of the realized events, each once, and the total it prints for a type
    is the sum of the taxed gains of the realized events of that type, added
    up in the order of the list and rounded to two places, in the home
    fiat. *)
Theorem printed_totals_by_type (self : Taxman) (lines : list ReportLine) :
  print_evaluation cfg self = Ok lines ->
  NoDup (type_total_types lines)
  /\ (forall ty, In ty (type_total_types lines)
                 <-> exists tx, In tx (tax_events self)
                                /\ taxation_type tx = ty)
  /\ (forall ty total fiat,
        In (TypeTotal ty total fiat) lines ->
        fiat = FIAT cfg
        /\ total
           = quantize 2
               (dsum (map taxed_gain
                          (filter (fun tx => (taxation_type tx =? ty)%string)
                                  (tax_events self))))).
Proof.
  intros H. destruct (print_evaluation_shape _ _ H) as [Ht Hin].
  split; [|split].
  - rewrite Ht. apply group_by_keys_nodup.
  - intros ty. rewrite Ht. split.
    + intros Hty. apply in_map_iff in Hty. destruct Hty as ([k evs] & <- & Hg).
      simpl.
      pose proof (group_by_nonempty taxation_type _ _ _ Hg) as Hne.
      destruct evs as [|tx rest]; [congruence|].
      exists tx.
      destruct (group_by_members taxation_type _ _ _ Hg tx (or_introl eq_refl))
        as [Hk Hmem].
      split; assumption.
    + intros (tx & Hmem & <-).
      destruct (group_by_covers taxation_type _ tx Hmem) as (evs & Hg & _).
      apply in_map_iff. exists (taxation_type tx, evs). split; auto.
  - intros ty total fiat Hline. apply Hin in Hline.
    unfold type_totals in Hline. apply in_map_iff in Hline.
    destruct Hline as ([k evs] & Heq & Hg). injection Heq as -> <- <-.
    split; [reflexivity|].
    now rewrite (group_by_contents taxation_type _ _ _ Hg).
Qed.

Lemma py_max_in {A} (ltb : A -> A -> bool) (others : list A) :
  forall first, In (py_max ltb first others) (first :: others).
Proof.
  unfold py_max. induction others as [|x rest IH]; intros first; simpl.
  - now left.
  - destruct (IH (if ltb first x then x else first)) as [H|H].
    + rewrite <- H. destruct (ltb first x); auto.
    + auto.
Qed.

(** X10. A virtual event only comes to exist when unrealized gains are
    tracked, so that after the evaluation of a fresh instance the assertion
    of [print_evaluation] holds and the summary is logged; when there are
    virtual events the deadline it prints is [TAX_DEADLINE]. Without
    tracking an evaluation leaves the virtual list of any instance as it
    was. *)
Theorem print_evaluation_after_evaluation (bk : list Operation) :
  (forall new, Taxman_init cfg bk = Ok new ->
     let self := snd (evaluate_taxation cfg price_data new) in
     exists lines,
       print_evaluation cfg self = Ok lines
       /\ (virtual_tax_events self <> [] ->
           CALCULATE_UNREALIZED_GAINS cfg = true
           /\ In (DeadlineTitle (TAX_YEAR cfg) (TAX_DEADLINE cfg)) lines))
  /\ (CALCULATE_UNREALIZED_GAINS cfg = false ->
      forall self, book self = bk ->
        virtual_tax_events (snd (evaluate_taxation cfg price_data self))
        = virtual_tax_events self).
Proof.
  destruct (evaluate_taxation_virtual_events cfg price_data bk)
    as (r & E & V & W & Hrun & HV).
  split.
  - intros new Hinit self.
    assert (Hnew : new = mk_Taxman bk [] [] []).
    { unfold Taxman_init in Hinit.
      destruct (COUNTRY cfg); [|discriminate].
      destruct (PRINCIPLE cfg); congruence. }
    subst new. subst self.
    rewrite (Hrun (mk_Taxman bk [] [] []) eq_refl). simpl.
    unfold print_evaluation. simpl.
    destruct V as [|first others].
    + eexists. split; [reflexivity|]. intros H. now contradiction H.
    + assert (Hcug : CALCULATE_UNREALIZED_GAINS cfg = true).
      { inversion HV as [|? ? Hfirst _]. apply Hfirst. }
      rewrite Hcug. eexists. split; [reflexivity|]. intros _.
      split; [reflexivity|].
      assert (Htime : forall tx, In tx (first :: others) ->
                                 utc_time (te_op tx) = TAX_DEADLINE cfg).
      { intros tx Hin.
        apply (proj1 (Forall_forall _ _) HV tx Hin). }
      rewrite (Htime _ (py_max_in _ others first)).
      apply in_or_app. right. now left.
  - intros Hcug self Hbook. rewrite (Hrun self Hbook). simpl.
    destruct V as [|tx rest]; [apply app_nil_r|].
    inversion HV as [|? ? Htx _]. destruct Htx as [Htx _]. congruence.
Qed.

End PrintedSummary.

(** ** The exported rows *)

Section Sorting.

Context {A : Type} (leb : A -> A -> bool).

Lemma insert_sorted_perm (x : A) (l : list A) :
  Permutation (insert_sorted leb x l) (x :: l).
Proof.
  induction l as [|y rest IH]; simpl.
  - apply Permutation_refl.
  - destruct (leb x y).
    + apply Permutation_refl.
    + eapply perm_trans; [apply perm_skip; exact IH|apply perm_swap].
Qed.

Lemma py_sorted_perm (l : list A) : Permutation (py_sorted leb l) l.
Proof.
  unfold py_sorted. induction l as [|x rest IH]; simpl.
  - apply perm_nil.
  - eapply perm_trans; [apply insert_sorted_perm|now apply perm_skip].
Qed.

Hypothesis leb_total : forall x y, leb x y = false -> leb y x = true.

Lemma insert_sorted_sorted (x : A) (l : list A) :
  Sorted (fun a b => leb a b = true) l ->
  Sorted (fun a b => leb a b = true) (insert_sorted leb x l).
Proof.
  induction 1 as [|y rest Hrest IH Hhd]; simpl.
  - repeat constructor.
  - destruct (leb x y) eqn:Hxy.
    + constructor; [constructor; assumption|constructor; exact Hxy].
    + constructor; [exact IH|].
      destruct rest as [|z rest']; simpl.
      * constructor. now apply leb_total.
      * destruct (leb x z) eqn:Hxz.
        -- constructor. now apply leb_total.
        -- inversion Hhd. now constructor.
Qed.

Lemma py_sorted_sorted (l : list A) :
  Sorted (fun a b => leb a b = true) (py_sorted leb l).
Proof.
  unfold py_sorted. induction l as [|x rest IH]; simpl.
  - constructor.
  - now apply insert_sorted_sorted.
Qed.

End Sorting.

Lemma lex_ltb_asym (a : list Z) :
  forall b, lex_ltb a b = true -> lex_ltb b a = false.
Proof.
  induction a as [|x a' IH]; intros [|y b']; simpl; try discriminate; auto.
  intros H. apply orb_true_iff in H.
  destruct H as [H|H].
  - apply Z.ltb_lt in H.
    assert ((y <? x)%Z = false) as -> by (apply Z.ltb_ge; lia).
    assert ((y =? x)%Z = false) as -> by (apply Z.eqb_neq; lia).
    reflexivity.
  - apply andb_true_iff in H. destruct H as [He Hl].
    apply Z.eqb_eq in He. subst y.
    rewrite Z.ltb_irrefl, Z.eqb_refl. simpl. now apply IH.
Qed.

Lemma dt_leb_total (a b : datetime) : dt_leb a b = false -> dt_leb b a = true.
Proof.
  unfold dt_leb, dt_ltb. intros H. apply negb_false_iff in H.
  now rewrite (lex_ltb_asym _ _ H).
Qed.

Section ExportedRows.

Variable cfg : Config.

(** X11. The file that [export_evaluation_as_csv] writes holds three lines
    of metadata, the header, and one line for each realized event, so with
    no tax events only the header part; the lines of the events stand in
    ascending time of their operations, every event has its line and no
    line is made up, and header and lines have nine columns. The virtual
    events are not exported. *)
Theorem exported_rows_follow_time (env : ExportEnv) (self : Taxman) :
  let rows := snd (export_evaluation_as_csv cfg env self) in
  fst (export_evaluation_as_csv cfg env self) = next_file_path env
  /\ List.length rows = (4 + List.length (tax_events self))%nat
  /\ nth_error rows 3 = Some (csv_header cfg)
  /\ Forall (fun row => List.length row = 9%nat) (skipn 3 rows)
  /\ exists events,
       skipn 4 rows = map csv_line events
       /\ Permutation events (tax_events self)
       /\ Sorted (fun a b =>
                    dt_leb (utc_time (te_op a)) (utc_time (te_op b)) = true)
                 events.
Proof.
  intros rows. subst rows. unfold export_evaluation_as_csv. simpl.
  set (by_time := fun a b : TaxEvent =>
                    dt_leb (utc_time (te_op a)) (utc_time (te_op b))).
  split; [reflexivity|]. split.
  - rewrite length_map. f_equal. f_equal. f_equal. f_equal.
    apply Permutation_length. apply py_sorted_perm.
  - split; [reflexivity|]. split.
    + constructor; [reflexivity|].
      apply Forall_forall. intros row Hin.
      apply in_map_iff in Hin. destruct Hin as (tx & <- & _). reflexivity.
    + exists (py_sorted by_time (tax_events self)).
      split; [reflexivity|]. split.
      * apply py_sorted_perm.
      * apply (py_sorted_sorted by_time).
        intros x y. apply dt_leb_total.
Qed.

End ExportedRows.

(** ** The gains of a Sell, in sum *)

Section GainsInSum.

Variable cfg : Config.
Variable price_data : PriceData.

Lemma no_taxable_lot_no_taxed_gain (op : Operation) (sell_value : Q)
  (sold_coins : list SoldCoin) :
  Forall (fun sc => lot_exempt cfg sc op) sold_coins ->
  taxable_gains cfg price_data op sell_value sold_coins = 0.
Proof.
  unfold taxable_gains. intros H.
  assert (Hnone : filter (fun sc => lot_taxable cfg sc op) sold_coins = []).
  { induction H as [|sc rest Hsc Hrest IH]; simpl.
    - reflexivity.
    - now rewrite (proj2 (lot_taxable_false cfg sc op) Hsc). }
  now rewrite Hnone.
Qed.

(** X12. A Sell whose consumed lots are all exempt, held for the long term
    or stemming from an Airdrop, CoinLendInterest, StakingInterest or
    Commission operation in a coin other than the home fiat, and on whose
    lots the long-term predicate returns, still has its event, with the full
    sell value and a taxed gain of zero. *)
Theorem exempt_lots_leave_no_taxed_gain (group_coin : string)
  (op : Operation) (force : bool) (balance balance' : BalanceQueue.t)
  (sold_coins : list SoldCoin) (verdicts : list bool) :
  (group_coin =? FIAT cfg)%string = false ->
  in_tax_year cfg op || force = true ->
  BalanceQueue.remove op balance = Ok (sold_coins, balance') ->
  long_term_checks cfg op sold_coins = Ok verdicts ->
  Forall (fun sc =>
            IS_LONG_TERM cfg (utc_time (sc_op sc)) (utc_time op) = Ok true
            \/ (In (kind (sc_op sc))
                   [Airdrop; CoinLendInterest; StakingInterest; Commission]
                /\ coin (sc_op sc) <> FIAT cfg))
         sold_coins ->
  exists tx,
    evaluate_sell cfg price_data group_coin op force balance
    = Ok (Some tx, balance')
    /\ taxed_gain tx = 0
    /\ sell_value tx = get_cost price_data (inl op)
    /\ te_op tx = op.
Proof.
  intros Hf Hy Hrm Hchecks Hex.
  rewrite (evaluate_sell_event cfg price_data _ _ _ _ _ _ Hf Hy Hrm), Hchecks.
  eexists. split; [reflexivity|]. simpl. split; [|split; reflexivity].
  apply no_taxable_lot_no_taxed_gain. exact Hex.
Qed.

End GainsInSum.

(** ** The sample ledger, further *)

Lemma group_events_follow_operations_sample :
  _evaluate_taxation_GERMANY (config false) prices "BTC" [buy21; sell21]
                             (fresh [])
  = (Ok tt, mk_Taxman [] [event_new] [] [])
  /\ exists E, [event_new] = [] ++ E /\ map te_op E = [sell21].
Proof.
  split; [vm_compute; reflexivity|].
  destruct (group_events_follow_operations (config false) prices "BTC"
              [buy21; sell21] (fresh []) (mk_Taxman [] [event_new] [] [])
              eq_refl)
    as (E & HE & Hm & _).
  exists E. split; [exact HE|exact Hm].
Defined.

Lemma replay_leaves_net_balance_sample :
  replay (config false) prices "BTC" [buy19; buy21; sell21]
         (BalanceType (config false)) (fresh [])
  = (Ok (holding [buy21]), mk_Taxman [] [event_old] [] [])
  /\ not_sold_total (BalanceQueue.queue (holding [buy21])) == 1 + 1 + - (1).
Proof.
  split; [vm_compute; reflexivity|].
  destruct (replay_leaves_net_balance (config false) prices "BTC"
              [buy19; buy21; sell21] (holding [buy21]) (fresh [])
              (mk_Taxman [] [event_old] [] []) eq_refl)
    as (Hnet & _).
  rewrite Hnet. vm_compute. reflexivity.
Defined.

Lemma custodial_operations_are_skipped_sample :
  (forall last, py_last [buy21; lend21; sell21] = Some last ->
                custodial (kind last) = false)
  /\ _evaluate_taxation_GERMANY (config false) prices "BTC"
       [buy21; sell21] (fresh [])
     = _evaluate_taxation_GERMANY (config false) prices "BTC"
         [buy21; lend21; sell21] (fresh []).
Proof.
  assert (H : forall last, py_last [buy21; lend21; sell21] = Some last ->
                           custodial (kind last) = false).
  { intros last Hlast. injection Hlast as <-. reflexivity. }
  split; [exact H|].
  exact (proj2 (custodial_operations_are_skipped (config false) prices "BTC"
                  [buy21; lend21; sell21] (fresh [])) H).
Defined.

Lemma book_events_classified_sample :
  exists r E V W,
    evaluate_taxation (config true) prices (fresh [buy21; sell21; deposit_eur])
    = (r, with_events (fresh [buy21; sell21; deposit_eur]) E V W)
    /\ Forall (fun tx => in_tax_year (config true) (te_op tx) = true) E
    /\ Forall (fun tx => utc_time (te_op tx) = TAX_DEADLINE (config true)) V.
Proof.
  destruct (book_events_classified (config true) prices
              [buy21; sell21; deposit_eur])
    as (r & E & V & W & Hrun & HE & HV).
  exists r, E, V, W. split; [apply Hrun; reflexivity|]. split.
  - revert HE. apply Forall_impl. intros tx H. apply H.
  - revert HV. apply Forall_impl. intros tx H. apply H.
Defined.

Lemma book_with_fee_is_never_evaluated_sample :
  (exists o, In o [buy21; deposit_eur; fee21]
             /\ (kind o = Fee \/ exists name, kind o = OtherKind name))
  /\ exists e,
      fst (evaluate_taxation (config false) prices
             (fresh [buy21; deposit_eur; fee21]))
      = Raise e.
Proof.
  assert (H : exists o, In o [buy21; deposit_eur; fee21]
                        /\ (kind o = Fee
                            \/ exists name, kind o = OtherKind name)).
  { exists fee21. split; [right; right; left; reflexivity|left; reflexivity]. }
  split; [exact H|].
  exact (book_with_fee_is_never_evaluated (config false) prices
           (fresh [buy21; deposit_eur; fee21]) H).
Defined.

Lemma multi_depot_same_on_one_platform_sample :
  (forall o, In o [buy21; sell21; deposit_eur] -> platform o = "kraken")
  /\ evaluate_taxation (with_multi_depot (config true) true) prices
       (fresh [buy21; sell21; deposit_eur])
     = evaluate_taxation (with_multi_depot (config true) false) prices
         (fresh [buy21; sell21; deposit_eur]).
Proof.
  assert (H : forall o, In o [buy21; sell21; deposit_eur] ->
                        platform o = "kraken").
  { intros o [<-|[<-|[<-|[]]]]; reflexivity. }
  split; [exact H|].
  exact (multi_depot_same_on_one_platform (config true) prices "kraken"
           (fresh [buy21; sell21; deposit_eur]) H).
Defined.

(** The summary of the three events: 50.00 for the two Sells, and 0.12 for
    the commission, the eighth rounded to the even digit. *)
Lemma printed_totals_by_type_sample :
  print_evaluation (config false) three_events = Ok three_events_summary
  /\ type_total_types three_events_summary
     = ["Sonstige Einkünfte"; "Einkünfte aus sonstigen Leistungen"]
  /\ In (TypeTotal "Sonstige Einkünfte" 50 "EUR") three_events_summary
  /\ In (TypeTotal "Einkünfte aus sonstigen Leistungen" (3 # 25) "EUR")
        three_events_summary
  /\ (forall ty total fiat,
        In (TypeTotal ty total fiat) three_events_summary ->
        fiat = "EUR"
        /\ total
           = quantize 2
               (dsum (map taxed_gain
                          (filter (fun tx => (taxation_type tx =? ty)%string)
                                  (tax_events three_events))))).
Proof.
  split; [vm_compute; reflexivity|]. split; [reflexivity|].
  split; [right; right; left; reflexivity|].
  split; [right; right; right; left; reflexivity|].
  exact (proj2 (proj2 (printed_totals_by_type (config false) three_events
                         three_events_summary eq_refl))).
Defined.

Lemma print_evaluation_after_evaluation_sample :
  Taxman_init (calendar_config true) [buy21] = Ok (fresh [buy21])
  /\ exists lines,
      print_evaluation (calendar_config true)
        (snd (evaluate_taxation (calendar_config true) prices (fresh [buy21])))
      = Ok lines
      /\ In (DeadlineTitle 2021 (mk_datetime 2021 12 31 23 59 59 false)) lines.
Proof.
  split; [reflexivity|].
  destruct (proj1 (print_evaluation_after_evaluation (calendar_config true)
                     prices [buy21]) (fresh [buy21]) eq_refl)
    as (lines & Hprint & Hvirtual).
  exists lines. split; [exact Hprint|].
  apply Hvirtual. vm_compute. discriminate.
Defined.

(** Five coins sold against a lot of 2019 and four lots of income in BTC of
    February 2021: every lot is exempt, the first by its age and the others
    by their origin. *)
Lemma exempt_lots_leave_no_taxed_gain_sample :
  BalanceQueue.remove sell21_5 (holding exempt_lots)
  = Ok (sold_exempt, holding [])
  /\ long_term_checks (config false) sell21_5 sold_exempt
     = Ok [true; false; false; false; false]
  /\ Forall (fun sc =>
               IS_LONG_TERM (config false) (utc_time (sc_op sc))
                            (utc_time sell21_5) = Ok true
               \/ (In (kind (sc_op sc))
                      [Airdrop; CoinLendInterest; StakingInterest; Commission]
                   /\ coin (sc_op sc) <> FIAT (config false)))
            sold_exempt
  /\ exists tx,
      evaluate_sell (config false) prices "BTC" sell21_5 false
                    (holding exempt_lots)
      = Ok (Some tx, holding [])
      /\ taxed_gain tx = 0
      /\ sell_value tx = 150 * 5.
Proof.
  assert (H : Forall (fun sc =>
               IS_LONG_TERM (config false) (utc_time (sc_op sc))
                            (utc_time sell21_5) = Ok true
               \/ (In (kind (sc_op sc))
                      [Airdrop; CoinLendInterest; StakingInterest; Commission]
                   /\ coin (sc_op sc) <> FIAT (config false)))
            sold_exempt).
  { constructor; [left; reflexivity|].
    repeat (constructor;
            [right; split; [simpl; tauto|intros E; vm_compute in E; discriminate E]|]).
    constructor. }
  split; [reflexivity|]. split; [reflexivity|]. split; [exact H|].
  destruct (exempt_lots_leave_no_taxed_gain (config false) prices "BTC"
              sell21_5 false (holding exempt_lots) (holding []) sold_exempt
              [true; false; false; false; false]
              eq_refl eq_refl eq_refl eq_refl H)
    as (tx & Hev & Hgain & Hvalue & _).
  exists tx. split; [exact Hev|]. split; [exact Hgain|exact Hvalue].
Defined.

(** ** Coins are evaluated apart *)

Section CoinsApart.

Variable cfg : Config.
Variable price_data : PriceData.




(** X15. A disposal beyond the balance aborts the group: when the operations
    before it have replayed without error and a Sell, or a Withdrawal of
    home fiat, disposes of more than their net balance, the evaluation of
    the group raises the error of the balance queue at that operation, from
    the instance the operations before it left; nothing after it is
    evaluated. *)
Theorem disposal_beyond_balance_aborts (group_coin : string)
  (front back : list Operation) (op : Operation)
  (balance : BalanceQueue.t) (self self1 : Taxman) :
  replay cfg price_data group_coin front (BalanceType cfg) self
  = (Ok balance, self1) ->
  kind op = Sell
  \/ (kind op = Withdrawal /\ (group_coin =? FIAT cfg)%string = true) ->
  net_balance cfg group_coin front < Qabs (change op) ->
  _evaluate_taxation_GERMANY cfg price_data group_coin (front ++ op :: back)
                             self
  = (Raise InsufficientBalance, self1).
Proof.
  intros Hfront Hk Hlt.
  assert (Htotal : not_sold_total (BalanceQueue.queue balance)
                   < Qabs (change op)).
  { rewrite (replay_balance _ _ _ _ _ _ _ _ Hfront).
    change (not_sold_total (BalanceQueue.queue (BalanceType cfg))) with 0.
    lra. }
  pose proof (remove_insufficient op balance Htotal) as Hrm.
  unfold _evaluate_taxation_GERMANY, bind at 1.
  rewrite replay_app, Hfront. simpl. unfold bind at 1.
  assert (Hop : process_op cfg price_data group_coin op balance self1
                = (Raise InsufficientBalance, self1)).
  { unfold process_op. destruct Hk as [Hk|[Hk Hf]]; rewrite Hk.
    - unfold bind, lift, evaluate_sell. now rewrite Hrm.
    - rewrite Hf. unfold bind, lift. now rewrite Hrm. }
  now rewrite Hop.
Qed.

End CoinsApart.

Lemma disposal_beyond_balance_aborts_sample :
  replay (config false) prices "BTC" [buy21]
         (BalanceType (config false)) (fresh [])
  = (Ok (holding [buy21]), fresh [])
  /\ net_balance (config false) "BTC" [buy21] < Qabs (change sell21_2)
  /\ _evaluate_taxation_GERMANY (config false) prices "BTC"
       ([buy21] ++ sell21_2 :: [buy21]) (fresh [])
     = (Raise InsufficientBalance, fresh []).
Proof.
  split; [reflexivity|]. split; [reflexivity|].
  exact (disposal_beyond_balance_aborts (config false) prices "BTC"
           [buy21] [buy21] sell21_2 (holding [buy21]) (fresh []) (fresh [])
           eq_refl (or_introl eq_refl) eq_refl).
Defined.
